(** * QuantInvestStrats: the bar renderers and the multi-portfolio aggregator

    A shallow embedding of [qis/plots/bars.py] ([plot_bars], [plot_vbars])
    and of [qis/portfolio/multi_portfolio_data.py] ([MultiPortfolioData]),
    with the properties their specification states.

    Numbers.  A cell of a table is an exact rational or missing (NaN);
    rounding and the infinities of binary floating point are outside the
    model.  Timestamps are day numbers.

    Libraries.  pandas, numpy, seaborn and matplotlib are modelled by the
    operations the two files call, each next to the call it serves. *)

From Stdlib Require Import ZArith QArith Qabs Qround String List Lia Lqa.
From stdpp Require Import base option list sorting strings pretty gmap.

Local Open Scope Z_scope.

(** ** Python values: exceptions and list indexing *)
Module Py.

Inductive exn :=
| IndexError | KeyError | AttributeError | TypeError | ValueError
| AxisError | InvalidIndexError.

Inductive Err (A : Type) :=
| Raise (e : exn)
| Ok (a : A).
Arguments Raise {A} e.
Arguments Ok {A} a.

#[global] Instance Err_ret : MRet Err := λ A a, Ok a.
#[global] Instance Err_bind : MBind Err := λ A B f m,
  match m with Raise e => Raise e | Ok a => f a end.
#[global] Instance Err_fmap : FMap Err := λ A B f m,
  match m with Raise e => Raise e | Ok a => Ok (f a) end.

(** [l[i]] for a Python list: a negative [i] counts from the end. *)
Definition getitem {A} (l : list A) (i : Z) : Err A :=
  let n := Z.of_nat (length l) in
  let j := if i <? 0 then n + i else i in
  if (0 <=? j) && (j <? n)
  then match l !! Z.to_nat j with Some a => Ok a | None => Raise IndexError end
  else Raise IndexError.

(** The index Python reads for [i] in a list of length [n]: an index from
    [-n] to [-1] counts from the end. *)
Definition wrap (n i : Z) : Z := if (i <? 0) && (- n <=? i) then n + i else i.

(** A dict built by successive [d[k] = v]: a key keeps the place of its
    first insertion and the value of its last. *)
Fixpoint dict_set {K V} `{EqDecision K} (k : K) (v : V) (d : list (K * V))
  : list (K * V) :=
  match d with
  | [] => [(k, v)]
  | (k', v') :: d' =>
      if decide (k = k') then (k', v) :: d' else (k', v') :: dict_set k v d'
  end.

Definition dict_of {K V} `{EqDecision K} (kvs : list (K * V)) : list (K * V) :=
  foldl (λ d kv, dict_set kv.1 kv.2 d) [] kvs.

(** [f(k1=v1, ..., **kwargs)]: Python refuses the call when [kwargs]
    holds one of the keywords written out ("got multiple values for
    keyword argument").  Keyword arguments are known by their names. *)
Definition call_kw (explicit kwargs : list string) : Err unit :=
  if decide (Exists (λ k, k ∈ explicit) kwargs) then Raise TypeError
  else Ok ().

(** Statements run one after the other, each giving the calls it makes
    or raising: the calls made up to the first raise, and the outcome. *)
Fixpoint run_steps {A} (steps : list (Err (list A))) : list A * Err unit :=
  match steps with
  | [] => ([], Ok ())
  | Raise e :: _ => ([], Raise e)
  | Ok ops :: rest => let r := run_steps rest in (ops ++ r.1, r.2)
  end.

End Py.
Export Py.

(** ** Numbers: rationals, NaN, and numpy's element-wise operations *)
Module Np.

(** [None] is NaN. *)
Definition Val := option Q.

#[global] Instance Q_eq_dec : EqDecision Q.
Proof. solve_decision. Defined.

Definition Qltb (a b : Q) : bool := negb (Qle_bool b a).

Definition nan : Val := None.
Definition vadd (a b : Val) : Val :=
  match a, b with Some x, Some y => Some (x + y)%Q | _, _ => None end.
Definition vsub (a b : Val) : Val :=
  match a, b with Some x, Some y => Some (x - y)%Q | _, _ => None end.
Definition vneg (a : Val) : Val :=
  match a with Some x => Some (- x)%Q | None => None end.
Definition vscale (k : Q) (a : Val) : Val :=
  match a with Some x => Some (k * x)%Q | None => None end.

(** Comparisons with NaN are false. *)
Definition vlt0 (a : Val) : bool :=
  match a with Some x => Qltb x 0 | None => false end.
Definition vgt0 (a : Val) : bool :=
  match a with Some x => Qltb 0 x | None => false end.
(** [a == 0.0] *)
Definition veq0 (a : Val) : bool :=
  match a with Some x => Qeq_bool x 0 | None => false end.

(** Equality of cells up to the representation of a rational. *)
Definition veq (a b : Val) : Prop :=
  match a, b with
  | Some x, Some y => (x == y)%Q
  | None, None => True
  | _, _ => False
  end.

(** [fillna(0.0)] and [replace({0.0: np.nan})] on one cell; a cell that
    holds a number other than zero. *)
Definition fill0 (v : Val) : Val :=
  match v with None => Some 0%Q | _ => v end.
Definition zero_to_nan (v : Val) : Val := if veq0 v then nan else v.
Definition nonzero (v : Val) : Prop := ∃ x : Q, v = Some x ∧ ¬ (x == 0)%Q.

(** [np.sum]: NaN propagates; [np.nansum]: NaN counts as zero. *)
Definition Qsum (l : list Q) : Q := foldr Qplus 0%Q l.
Definition np_sum (l : list Val) : Val := foldr vadd (Some 0%Q) l.
Definition np_nansum (l : list Val) : Q := Qsum (omap id l).

(** [np.where(a < 0.0, a, 0.0)] and [np.where(a > 0.0, a, 0.0)] on one
    element. *)
Definition where_neg (a : Val) : Q :=
  match a with Some x => if Qltb x 0 then x else 0%Q | None => 0%Q end.
Definition where_pos (a : Val) : Q :=
  match a with Some x => if Qltb 0 x then x else 0%Q | None => 0%Q end.

(** [np.isclose(c, 0.0)] with the default tolerances: [|c - 0| <= atol +
    rtol * |0|], [atol = 1e-8]. *)
Definition atol : Q := 1 # 100000000.
Definition isclose0 (c : Q) : bool := Qle_bool (Qabs c) atol.
Definition visclose0 (a : Val) : bool :=
  match a with Some x => isclose0 x | None => false end.

(** [np.cumsum] along one row. *)
Fixpoint cumsum_from (acc : Val) (l : list Val) : list Val :=
  match l with
  | [] => []
  | x :: l' => let s := vadd acc x in s :: cumsum_from s l'
  end.
Definition np_cumsum (l : list Val) : list Val := cumsum_from (Some 0%Q) l.

(** [np.max] and [np.min] of a non-empty array: NaN if any element is. *)
Definition vmax (a b : Val) : Val :=
  match a, b with
  | Some x, Some y => Some (if Qle_bool x y then y else x)
  | _, _ => None
  end.
Definition vmin (a b : Val) : Val :=
  match a, b with
  | Some x, Some y => Some (if Qle_bool x y then x else y)
  | _, _ => None
  end.
Definition np_max (l : list Val) : Err Val :=
  match l with [] => Raise ValueError | x :: l' => Ok (foldl vmax x l') end.
Definition np_min (l : list Val) : Err Val :=
  match l with [] => Raise ValueError | x :: l' => Ok (foldl vmin x l') end.

(** [np.nanmean]: the mean of the values that are not NaN; NaN if there
    are none. *)
Definition np_nanmean (l : list Val) : Val :=
  match omap id l with
  | [] => None
  | qs => Some (Qsum qs / inject_Z (Z.of_nat (length qs)))%Q
  end.

End Np.
Export Np.


(** ** pandas: series, frames and the operations the sources call *)
Module Pd.

(** Labels of an axis: comparable, ordered for [Index.union] and
    [sort_values]; [label_datetime] tells a [DatetimeIndex] from an index
    of objects ([pd.concat] combines the two kinds differently). *)
Class Labels (L : Type) := {
  label_eq_dec :: EqDecision L;
  label_leb : L → L → bool;
  label_datetime : bool }.

#[global] Instance Z_Labels : Labels Z :=
  {| label_leb := Z.leb; label_datetime := true |}.
#[global] Instance string_Labels : Labels string :=
  {| label_leb := String.leb; label_datetime := false |}.

Definition label_le {L} `{Labels L} : relation L := λ x y, label_leb x y = true.
Definition label_lt {L} `{Labels L} : relation L :=
  λ x y, label_leb x y = true ∧ label_leb y x = false.

#[global] Instance label_le_dec {L} `{Labels L} : RelDecision (label_le (L:=L)).
Proof. intros x y. unfold label_le. apply _. Defined.
#[global] Instance label_lt_dec {L} `{Labels L} : RelDecision (label_lt (L:=L)).
Proof. intros x y. unfold label_lt. apply _. Defined.

(** What the unions and the sorts rely on: the order on labels is a
    total order. *)
Class LabelOrder (L : Type) `{Labels L} := {
  label_le_trans :: Transitive (label_le (L:=L));
  label_le_antisym :: AntiSymm (=) (label_le (L:=L));
  label_le_total :: Total (label_le (L:=L)) }.

Record Series (L : Type) := mkSeries {
  s_name : string;
  s_index : list L;
  s_values : list Val }.
Arguments mkSeries {L}.
Arguments s_name {L}.
Arguments s_index {L}.
Arguments s_values {L}.

(** A frame holds its cells row by row: [values df !! i] is the row of
    label [index df !! i], with one cell per entry of [columns df]. *)
Record DataFrame (L : Type) := mkFrame {
  index : list L;
  columns : list string;
  values : list (list Val) }.
Arguments mkFrame {L}.
Arguments index {L}.
Arguments columns {L}.
Arguments values {L}.

(** What pandas keeps true of every frame it builds. *)
Definition rectangular {L} (df : DataFrame L) : Prop :=
  length (values df) = length (index df) ∧
  Forall (λ row, length row = length (columns df)) (values df).

Section ops.
Context {L : Type} `{Labels L}.

(** [Index.get_loc]: the place of the first occurrence. *)
Fixpoint get_loc {A} `{EqDecision A} (x : A) (l : list A) : option nat :=
  match l with
  | [] => None
  | y :: l' => if decide (x = y) then Some 0%nat else S <$> get_loc x l'
  end.

(** [pd.unique]: first occurrences, in order. *)
Fixpoint unique {A} `{EqDecision A} (l : list A) : list A :=
  match l with
  | [] => []
  | x :: l' => x :: filter (λ y, y ≠ x) (unique l')
  end.

Definition nan_row (df : DataFrame L) : list Val :=
  replicate (length (columns df)) nan.

(** [df.iat[i, j]], and [df.at[r, c]] with NaN for an absent label. *)
Definition iat (df : DataFrame L) (i j : nat) : Val :=
  default nan (values df !! i ≫= λ row, row !! j).
Definition loc (df : DataFrame L) (r : L) (c : string) : Val :=
  match get_loc r (index df), get_loc c (columns df) with
  | Some i, Some j => iat df i j
  | _, _ => nan
  end.
Definition row_at (df : DataFrame L) (r : L) : list Val :=
  match get_loc r (index df) with
  | Some i => default (nan_row df) (values df !! i)
  | None => nan_row df
  end.

(** The frame with the given labels whose cell at [(r, c)] is [f r c]. *)
Definition build (I : list L) (C : list string) (f : L → string → Val)
  : DataFrame L :=
  {| index := I; columns := C; values := (λ r, f r <$> C) <$> I |}.

(** [df.reindex(index=I, columns=C)]. *)
Definition reindex (df : DataFrame L) (I : list L) (C : list string)
  : DataFrame L := build I C (loc df).

(** [s.get(t, np.nan)] *)
Definition series_at (s : Series L) (t : L) : Val :=
  default nan (get_loc t (s_index s) ≫= λ j, s_values s !! j).

Definition to_frame (s : Series L) : DataFrame L :=
  {| index := s_index s; columns := [s_name s];
     values := (λ v, [v]) <$> s_values s |}.

(** [Index.union(other)] with [sort=None]: sorted, except when the two
    are equal or one of them is empty.  (For labels without repeats.) *)
Definition index_union {A} `{Labels A} (a b : list A) : list A :=
  if decide (a = b) then a
  else match a, b with
       | [], _ => b
       | _, [] => a
       | _, _ => merge_sort label_le (unique (a ++ b))
       end.

(** The index of [pd.concat(objs, axis=1)]: datetime indexes are united
    one after the other (sorted); other indexes are united in order of
    appearance unless they are all the same. *)
Definition union_indexes (idxs : list (list L)) : list L :=
  match idxs with
  | [] => []
  | i0 :: rest =>
      if label_datetime then foldl index_union i0 rest
      else if decide (Forall (λ i, i = i0) rest) then i0
      else unique (mjoin idxs)
  end.

(** The rows of [df] moved onto the labels [I]. *)
Definition reindex_rows (df : DataFrame L) (I : list L) : list (list Val) :=
  if decide (index df = I) then values df else row_at df <$> I.

(** Blocks of rows with the same number of rows, side by side. *)
Definition hstack (n : nat) (blocks : list (list (list Val)))
  : list (list Val) :=
  foldr (zip_with app) (replicate n []) blocks.

(** [pd.concat(objs, axis=1)] (outer join).  An index with a repeated
    label cannot be moved onto another index: pandas raises. *)
Definition concat_axis1 (objs : list (DataFrame L)) : Err (DataFrame L) :=
  match objs with
  | [] => Raise ValueError
  | _ =>
      let I := union_indexes (index <$> objs) in
      if decide (Forall (λ df, index df = I ∨ NoDup (index df)) objs)
      then Ok {| index := I;
                 columns := mjoin (columns <$> objs);
                 values := hstack (length I)
                             ((λ df, reindex_rows df I) <$> objs) |}
      else Raise InvalidIndexError
  end.

(** [df[name]]: the columns called [name] (one, as a series, when names
    are distinct). *)
Definition positions (name : string) (cols : list string) : list nat :=
  (λ p, p.1) <$> filter (λ p, p.2 = name) (imap pair cols).
Definition select (df : DataFrame L) (name : string) : Err (DataFrame L) :=
  match positions name (columns df) with
  | [] => Raise KeyError
  | js => Ok {| index := index df;
                columns := (λ _, name) <$> js;
                values := (λ row, (λ j, default nan (row !! j)) <$> js)
                            <$> values df |}
  end.

(** [df.iloc[:, j]], as a frame of one column. *)
Definition iloc_column (df : DataFrame L) (j : nat) : DataFrame L :=
  {| index := index df;
     columns := option_list (columns df !! j);
     values := (λ row : list Val, [default nan (row !! j)]) <$> values df |}.

(** [df.fillna(0.0)] and [df.replace({0.0: np.nan})]. *)
Definition map_cells (f : Val → Val) (df : DataFrame L) : DataFrame L :=
  {| index := index df; columns := columns df;
     values := (λ row : list Val, f <$> row) <$> values df |}.
Definition fillna0 : DataFrame L → DataFrame L := map_cells fill0.
Definition replace_zero_nan : DataFrame L → DataFrame L :=
  map_cells zero_to_nan.

(** [df.dropna()]: [how='any'], a row goes as soon as one cell is NaN. *)
Definition complete (row : list Val) : bool :=
  forallb (λ v : Val, match v with Some _ => true | None => false end) row.
Definition rows (df : DataFrame L) : list (L * list Val) :=
  zip (index df) (values df).
Definition of_rows (C : list string) (rs : list (L * list Val)) : DataFrame L :=
  {| index := rs.*1; columns := C; values := rs.*2 |}.
Definition dropna (df : DataFrame L) : DataFrame L :=
  of_rows (columns df) (filter (λ r, complete r.2 = true) (rows df)).

(** [df.sort_values(name, ascending=False)]: NaN last. *)
Definition desc (j : nat) : relation (L * list Val) := λ a b,
  match default nan (a.2 !! j), default nan (b.2 !! j) with
  | Some x, Some y => Qle_bool y x = true
  | None, Some _ => False
  | _, None => True
  end.
#[global] Instance desc_dec j : RelDecision (desc j).
Proof. intros a b. unfold desc. repeat case_match; apply _. Defined.
Definition sort_values_desc (df : DataFrame L) (name : string)
  : Err (DataFrame L) :=
  match positions name (columns df) with
  | [] => Raise KeyError
  | [j] => Ok (of_rows (columns df) (merge_sort (desc j) (rows df)))
  | _ => Raise ValueError
  end.

(** [a.subtract(b)]: both operands on the union of their labels, then cell
    by cell; a cell absent on one side is NaN. *)
Definition subtract (a b : DataFrame L) : DataFrame L :=
  build (index_union (index a) (index b))
        (index_union (columns a) (columns b))
        (λ r c, vsub (loc a r c) (loc b r c)).

(** [a.align(other=b, join='outer', axis=None)]. *)
Definition align_outer (a b : DataFrame L) : DataFrame L * DataFrame L :=
  let I := index_union (index a) (index b) in
  let C := index_union (columns a) (columns b) in
  (reindex a I C, reindex b I C).

(** [df.cumsum(axis=0)]: a NaN cell stays NaN and is skipped by the sum. *)
Fixpoint cumsum_rows (acc : list Q) (rs : list (list Val)) : list (list Val) :=
  match rs with
  | [] => []
  | row :: rs' =>
      let acc' := zip_with (λ a (v : Val), match v with Some x => (a + x)%Q | None => a end)
                    acc row in
      zip_with (λ a' (v : Val), match v with Some _ => Some a' | None => nan end)
        acc' row :: cumsum_rows acc' rs'
  end.
Definition cumsum (df : DataFrame L) : DataFrame L :=
  {| index := index df; columns := columns df;
     values := cumsum_rows (replicate (length (columns df)) 0%Q) (values df) |}.

(** Strictly increasing labels. *)
Fixpoint increasing (l : list L) : bool :=
  match l with
  | x :: (y :: _) as l' =>
      label_leb x y && negb (label_leb y x) && increasing l'
  | _ => true
  end.

(** The place of the last label of a sorted index that is [<= t]. *)
Definition pad_loc (I : list L) (t : L) : option nat :=
  match length (filter (λ s, label_le s t) I) with
  | O => None
  | S k => Some k
  end.

(** [df.reindex(index=I, method='ffill')].  The source index has to be
    monotonic; the model takes the increasing case (the data model's) and
    raises as pandas does for an index in no order. *)
Definition reindex_ffill (df : DataFrame L) (I : list L) : Err (DataFrame L) :=
  if increasing (index df)
  then Ok {| index := I; columns := columns df;
             values := (λ t, match pad_loc (index df) t with
                             | Some i => default (nan_row df) (values df !! i)
                             | None => nan_row df
                             end) <$> I |}
  else Raise ValueError.

End ops.

(** A series of the data model: increasing timestamps, one value per
    timestamp. *)
Definition series_ok (s : Series Z) : Prop :=
  increasing (s_index s) = true ∧ length (s_values s) = length (s_index s).

(** [k] is the place of the last timestamp of [I] at or before [t], if
    there is one. *)
Definition last_at_or_before (I : list Z) (t : Z) (k : option nat) : Prop :=
  match k with
  | Some k => ∃ s, I !! k = Some s ∧ s <= t
                   ∧ ∀ k' s', I !! k' = Some s' → s' <= t → (k' ≤ k)%nat
  | None => ∀ s, s ∈ I → t < s
  end.

(** [pd.date_range(start, end, freq)]: a frequency is given by its anchor
    days; the range holds the anchors from [start] to [end]. *)
Definition Freq := Z → bool.
Definition date_range (start stop : Z) (freq : Freq) : list Z :=
  filter (λ t, freq t = true) (seqZ start (stop - start + 1)).

(** [df.asfreq(freq, method='ffill')] *)
Definition asfreq (df : DataFrame Z) (freq : Freq) : Err (DataFrame Z) :=
  match index df with
  | [] => Ok df
  | t0 :: ts =>
      reindex_ffill df (date_range (foldl Z.min t0 ts) (foldl Z.max t0 ts) freq)
  end.

(** [df.ffill()]: down each column, a missing cell takes the last value
    above it. *)
Fixpoint ffill_rows (prev : list Val) (rs : list (list Val))
  : list (list Val) :=
  match rs with
  | [] => []
  | row :: rs' =>
      let row' := zip_with (λ p v : Val, match v with Some _ => v | None => p end)
                    prev row in
      row' :: ffill_rows row' rs'
  end.
Definition ffill {L} (df : DataFrame L) : DataFrame L :=
  {| index := index df; columns := columns df;
     values := ffill_rows (replicate (length (columns df)) nan) (values df) |}.

(** [df.drop(name, axis=1)]: without the columns called [name]; pandas
    raises when there is none. *)
Definition drop_column {L} (df : DataFrame L) (name : string)
  : Err (DataFrame L) :=
  if decide (name ∈ columns df)
  then Ok {| index := index df;
             columns := filter (λ c, c ≠ name) (columns df);
             values := (λ row : list Val,
                          (λ p : string * Val, p.2)
                          <$> filter (λ p : string * Val, p.1 ≠ name)
                                (zip (columns df) row))
                       <$> values df |}
  else Raise KeyError.

End Pd.
Export Pd.


(** ** qis/plots/bars.py *)
Module Bars.

(** What Python prints is left to Python, and the colours to
    [qis.plots.utils], which is not among the sources: the renderers are
    given the functions they call. *)
Record Printer := mkPrinter {
  format : string → Val → string;          (* fmt.format(v) *)
  format_quot : string → Q → Val → string; (* fmt.format(c / total) *)
  strftime : string → Z → string;          (* t.strftime(fmt) *)
  str_timestamp : Z → string;              (* str(t) *)
  compute_heatmap_colors : list Val → list string; (* put.compute_heatmap_colors(a) *)
  get_n_mlt_colors : nat → list string }.  (* put.get_n_mlt_colors(n) *)

(** A label of the index of a table to draw. *)
Inductive Label :=
| LTimestamp (t : Z)
| LStr (s : string).

#[global] Instance Label_eq_dec : EqDecision Label.
Proof. solve_decision. Defined.

Definition label_text (py : Printer) (l : Label) : string :=
  match l with LTimestamp t => str_timestamp py t | LStr s => s end.

(** [df: Union[pd.DataFrame, pd.Series]] *)
Inductive Table :=
| PSeries (s : Series Label)
| PFrame (d : DataFrame Label).

Definition table_index (t : Table) : list Label :=
  match t with PSeries s => s_index s | PFrame d => index d end.
Definition table_columns (t : Table) : list string :=
  match t with PSeries s => [s_name s] | PFrame d => columns d end.
Definition table_values (t : Table) : list (list Val) :=
  match t with PSeries s => (λ v, [v]) <$> s_values s | PFrame d => values d end.
(** [df.index = idx] *)
Definition set_index (t : Table) (idx : list Label) : Table :=
  match t with
  | PSeries s => PSeries (mkSeries (s_name s) idx (s_values s))
  | PFrame d => PFrame (mkFrame idx (columns d) (values d))
  end.

(** Python passes a table by reference: the caller and the renderer hold
    the same object of the store. *)
Definition ref := nat.
Abbreviation Heap := (gmap ref Table).

(** One bar of the chart, as [ax.patches] reports it. *)
Record Patch := mkPatch {
  p_x : Q;
  p_y : Q;
  p_width : Q;
  p_height : Val }.

(** A drawing surface is known by the patches already on it. *)
Definition Axes := list Patch.
Inductive Figure := NewFigure.

(** *** seaborn's [barplot] on a categorical axis

    The categories are the distinct index labels, category [k] centred on
    [x = k]; the series (hue levels) are the distinct column names and
    share a group [0.8] wide; the bars come series by series; a bar's
    height is the mean of the cells of its category and series. *)
Definition cells_of (t : Table) (cat : Label) (name : string) : list Val :=
  mjoin ((λ r : Label * list Val,
            if decide (r.1 = cat)
            then (λ c : string * Val, c.2) <$>
                   filter (λ c : string * Val, c.1 = name)
                          (zip (table_columns t) r.2)
            else [])
         <$> zip (table_index t) (table_values t)).

Definition bar_width (m : nat) : Q := (4 # 5) / inject_Z (Z.of_nat m).
Definition bar_x (m k j : nat) : Q :=
  inject_Z (Z.of_nat k) - (2 # 5) + inject_Z (Z.of_nat j) * bar_width m.

Definition bar (t : Table) (m : nat) (j : nat) (name : string)
                (k : nat) (cat : Label) : Patch :=
  {| p_x := bar_x m k j; p_y := 0; p_width := bar_width m;
     p_height := np_nanmean (cells_of t cat name) |}.

Definition sns_barplot (t : Table) : list Patch :=
  let cats := unique (table_index t) in
  let hues := unique (table_columns t) in
  mjoin (imap (λ j name, imap (bar t (length hues) j name) cats) hues).

(** [sns.barplot(x=df1.index, y=value_name, data=df1, hue=var_name)] of
    line 75, on the melted frame [df1] with the columns [var_name] and
    [value_name]: seaborn 0.12 looks [x] up in [data] first ([data.get(x,
    x)]), and an index whose labels all name columns of [data] selects
    these columns instead of standing for itself; the plot then raises
    [ValueError].  A series (line 70) is plotted without [data]. *)
Definition melted_index (var_name value_name : string) (t : Table) : bool :=
  match t with
  | PSeries _ => false
  | PFrame d =>
      forallb (λ l, match l with
                    | LStr s => bool_decide (s ∈ [var_name; value_name])
                    | LTimestamp _ => false
                    end) (index d)
  end.

(** *** The keyword arguments of the two renderers that reach the
    drawing calls modelled here, and the names of the further keyword
    arguments of the call, which the renderers pass on as [**kwargs]
    (none of them is the name of a parameter of the renderer) *)
Record Config := mkConfig {
  stacked : bool;
  colors : option (list string);
  date_format : string;
  min_max_for_bars_values : option Q;
  is_add_bar_values : bool;
  is_add_top_bar_values : bool;
  var_format : string;
  totals : option (list Val);
  is_top_totals : bool;
  vline_columns : option (list Z);
  is_add_avg_line : bool;
  (* plot_vbars only *)
  add_bar_perc_values : bool;
  xmin_shift : option Q;
  add_bar_value_at_mid : bool;
  add_total_bar : bool;
  add_total_to_index : bool;
  add_total_to_left : bool;
  x_step : option Q;
  rows_edge_lines : option (list Z);
  is_category_names_colors : bool;
  (* plot_bars only *)
  xlabel : option string;
  ylabel : option string;
  (* both *)
  kwargs : list string }.

(** *** [plot_bars] *)

(** Where a bar's value is written: at a height of the data, or at a
    fraction of the upper limit of the y-axis. *)
Inductive YLoc :=
| YData (y : Val)
| YOfYmax (k : Q).

(** The palette of [sns.barplot]: the caller's colours, or [n] colours
    of [put.get_n_colors]. *)
Inductive Palette :=
| Given (cs : list string)
| Generated (n : nat).

(** The calls made on the drawing surface. *)
Inductive Op :=
| barplot (palette : Palette)
| annotate (text : string) (x : Q) (y : YLoc)
| set_ylim_scaled (k : Q)
| text_top (x y : Q) (label : string)
| hlines (xmin xmax : Q) (y : Val)
| annotate_total (label : string) (x : Q) (y : Val)
| vlines (x : Q)
| axhline_avg (avg : Val)
| axhline_zero
| put (helper : string).  (* a call [put.<helper>(ax=ax, ...)] of qis.plots.utils *)

(** [[date.strftime(date_format) for date in df.index]]: a label that is
    not a timestamp has no [strftime]. *)
Definition strftime_index (py : Printer) (fmt : string) (idx : list Label)
  : Err (list Label) :=
  foldr (λ l acc,
           match l with
           | LTimestamp t => (λ r, LStr (strftime py fmt t) :: r) <$> acc
           | LStr _ => Raise AttributeError
           end) (Ok []) idx.

(** The bar locations the loop over [ax.patches] stores. *)
Record BarLayout := mkLayout {
  x_locs : list Q;
  x_mins : list Q;
  x_maxs : list Q }.

Definition Q_in (x : Q) (l : list Q) : bool := existsb (Qeq_bool x) l.

(** [if x not in x_locs: x_locs.append(x); x_mins.append(x);
    x_maxs.append(x + width)] *)
Definition layout_step (lay : BarLayout) (p : Patch) : BarLayout :=
  if Q_in (p_x p) (x_locs lay) then lay
  else mkLayout (x_locs lay ++ [p_x p]) (x_mins lay ++ [p_x p])
                (x_maxs lay ++ [(p_x p + p_width p)%Q]).

(** One turn of [for p in ax.patches]. *)
Definition patch_step (py : Printer) (cfg : Config) (acc : list Op * BarLayout) (p : Patch)
  : list Op * BarLayout :=
  let '(ops, lay) := acc in
  let width := p_width p in
  let height := p_height p in
  let y := p_y p in
  let x := p_x p in
  let is_put_label :=
    match min_max_for_bars_values cfg, height with
    | Some m, Some hq => negb (Qle_bool (Qabs hq) m)
    | _, _ => true
    end in
  let x_loc := (x + (2 # 10) * width)%Q in
  let y_loc := if vgt0 height
               then vadd (Some y) (vscale (3 # 10) height)
               else vadd (Some y) (vscale (8 # 10) height) in
  let ops :=
    if is_add_bar_values cfg then
      if is_put_label && negb (veq0 height)
      then ops ++ [annotate (format py (var_format cfg) height) x_loc
                     (YData y_loc)]
      else ops
    else if is_add_top_bar_values cfg then
      if is_put_label && negb (veq0 height)
      then ops ++ [annotate (format py (var_format cfg) height) x_loc
                     (YOfYmax (95 # 100))]
      else ops
    else ops in
  (ops, layout_step lay p).

(** One turn of [for total, x_loc, x_min, x_max in zip(...)]. *)
Definition total_marker (py : Printer) (cfg : Config) (total : Val)
    (x_min x_max : Q) : list Op :=
  let label := format py (var_format cfg) total in
  if is_top_totals cfg
  then [text_top (x_min + (2 # 10) * (x_max - x_min))%Q (975 # 1000) label]
  else [hlines x_min x_max total; annotate_total label x_max total].

Definition total_markers (py : Printer) (cfg : Config) (lay : BarLayout)
  : list Op :=
  match totals cfg with
  | None => []
  | Some ts =>
      (if is_top_totals cfg then [set_ylim_scaled (11 # 10)] else []) ++
      mjoin (zip_with (λ (tx : Val * Q) (mm : Q * Q),
                         total_marker py cfg tx.1 mm.1 mm.2)
               (zip ts (x_locs lay)) (zip (x_mins lay) (x_maxs lay)))
  end.

(** Lines 66-67: [if isinstance(df.index[0], pd.Timestamp):
    df.index = [date.strftime(date_format) for date in df.index]]. *)
Definition reformat_index (py : Printer) (cfg : Config) (t : Table)
  : Err Table :=
  match table_index t with
  | [] => Raise IndexError
  | LTimestamp _ :: _ =>
      set_index t <$> strftime_index py (date_format cfg) (table_index t)
  | LStr _ :: _ => Ok t
  end.

(** The calls that mark a total: the tick with its label, or the label
    at the top. *)
Definition is_total_marker (op : Op) : bool :=
  match op with
  | text_top _ _ _ | hlines _ _ _ | annotate_total _ _ _ => true
  | _ => false
  end.

(** The calls made after the markers of the totals. *)
Definition is_dressing (op : Op) : bool :=
  match op with
  | vlines _ | axhline_avg _ | axhline_zero | put _ => true
  | _ => false
  end.

Record Result := mkResult {
  heap : Heap;
  drawn : list Op;
  returned : Err (option Figure) }.

(** Lines 72-73: [value_name = ylabel or 'y'], [var_name = xlabel or
    'x']. *)
Definition value_name (cfg : Config) : string :=
  match ylabel cfg with
  | Some s => if decide (s = "") then "y" else s
  | None => "y"
  end.
Definition var_name (cfg : Config) : string :=
  match xlabel cfg with
  | Some s => if decide (s = "") then "x" else s
  | None => "x"
  end.

(** Lines 56-64: the caller's colours, or [put.get_n_colors(n=n,
    **kwargs)]. *)
Definition palette_of (cfg : Config) (t : Table) : Err Palette :=
  match colors cfg with
  | Some cs => Ok (Given cs)
  | None =>
      let n := match t with
               | PSeries _ => 1%nat
               | PFrame d => if stacked cfg then length (columns d)
                             else length (index d)
               end in
      _ ← call_kw ["n"] (kwargs cfg);
      Ok (Generated n)
  end.

(** Lines 111-176, after the loop over the bars: the markers of the
    totals, the vertical lines, the legend, the average line, the zero
    line, and the helpers of [qis.plots.utils] that dress the axes, each
    with the keywords the source writes out.  ([put.get_legend_lines],
    and the calls [put.set_y_limits] and [put.set_title], which are given
    no [**kwargs], are left out.) *)
Definition after_bars (py : Printer) (cfg : Config) (t' : Table)
    (lay : BarLayout) : list (Err (list Op)) :=
  let kw := kwargs cfg in
  [ Ok (total_markers py cfg lay);
    Ok (match vline_columns cfg with
        | None => []
        | Some cs => (λ c, vlines (inject_Z c - (1 # 2))) <$> cs
        end);
    (λ _, [put "set_legend"])
      <$> call_kw ["ax"; "labels"; "colors"; "is_reversed"; "bbox_to_anchor";
                   "legend_loc"; "fontsize"] kw;
    Ok (if is_add_avg_line cfg
        then [axhline_avg (np_nanmean (mjoin (table_values t')))]
        else []);
    Ok [axhline_zero];
    (λ _, [put "set_ax_xy_labels"])
      <$> call_kw ["ax"; "fontsize"; "xlabel"; "ylabel"] kw;
    Ok [put "set_ax_tick_params"];
    (λ _, [put "set_ax_tick_labels"])
      <$> call_kw ["ax"; "fontsize"; "skip_y_axis"] kw;
    (* local_kwargs = sop.update_kwargs(dict(yvar_format=..., fontsize=...), kwargs) *)
    (λ _, [put "set_ax_ticks_format"])
      <$> call_kw ["ax"; "x_rotation"] ("yvar_format" :: "fontsize" :: kw);
    (λ _, [put "set_spines"]) <$> call_kw ["ax"] kw ].

(** The keywords the helper calls of [after_bars] write out. *)
Definition bars_keywords : list string :=
  ["ax"; "labels"; "colors"; "is_reversed"; "bbox_to_anchor"; "legend_loc";
   "fontsize"; "xlabel"; "ylabel"; "skip_y_axis"; "x_rotation"].

(** [plot_bars(df, ..., ax, **kwargs)], from the colours to the return of
    the figure.  What has been drawn, and what has been done to the
    caller's table, stays when a later statement raises; a bar plot that
    raises has drawn nothing. *)
Definition plot_bars (py : Printer) (h : Heap) (df : ref) (cfg : Config)
    (ax : option Axes) : Result :=
  match h !! df with
  | None => mkResult h [] (Raise AttributeError)
  | Some t =>
      let fig := match ax with None => Some NewFigure | Some _ => None end in
      let before := default [] ax in
      match palette_of cfg t with
      | Raise e => mkResult h [] (Raise e)
      | Ok palette =>
          match reformat_index py cfg t with
          | Raise e => mkResult h [] (Raise e)
          | Ok t' =>
              let h' := <[df := t']> h in
              if melted_index (var_name cfg) (value_name cfg) t'
              then mkResult h' [] (Raise ValueError)
              else
                let patches := before ++ sns_barplot t' in
                let '(ops, lay) :=
                  foldl (patch_step py cfg) ([], mkLayout [] [] []) patches in
                let tail := run_steps (after_bars py cfg t' lay) in
                mkResult h' (barplot palette :: ops ++ tail.1)
                  (tail.2 ≫= λ _, Ok fig)
          end
      end
  end.

(** *** [plot_vbars] *)

(** The loop turn that draws a stack segment: the negative pass or the
    positive pass, at column [i]. *)
Inductive Site :=
| neg_pass (i : nat)
| pos_pass (i : nat).

Inductive HOp :=
| invert_yaxis
| barh (site : Site) (labels : list Label) (widths lefts : list Q)
       (colname : string)
| text_segment (site : Site) (x : Val) (y : nat) (label : string)
| shift_xmin (d : Q)
| vlines_total (x : Val) (idx : nat)
| text_total (x : Q) (idx : nat) (label : string)
| set_x_limits (lo hi : Val)
| axhline_edge (y : Q)
| hput (helper : string). (* a call [put.<helper>(ax=ax, ...)], [ax.grid], [ax.axvline] *)

(** [np_data[:, i]] *)
Definition column (np_data : list (list Val)) (i : nat) : list Val :=
  (λ row : list Val, default nan (row !! i)) <$> np_data.

(** The label written on a segment of value [c] in row [y]. *)
Definition segment_label (py : Printer) (cfg : Config) (vtotals : list Val)
    (y : nat) (c : Q) : string :=
  if add_bar_perc_values cfg
  then format py (var_format cfg) (Some c) +:+ " / "
       +:+ format_quot py "{:.0%}" c (default nan (vtotals !! y))
  else format py (var_format cfg) (Some c).

(** [for y, (x, c) in enumerate(zip(xcenters, widths)):
       if not np.isclose(c, 0.0): ax.text(x_loc, y, label, ...)] *)
Definition segment_texts (py : Printer) (cfg : Config) (site : Site)
    (vtotals : list Val) (bar_value_at_max : Val) (xcenters widths : list Q)
  : list HOp :=
  if is_add_bar_values cfg then
    mjoin (imap (λ y (xc : Q * Q),
                   let '(x, c) := xc in
                   if negb (isclose0 c)
                   then [text_segment site
                           (if add_bar_value_at_mid cfg then Some x
                            else bar_value_at_max)
                           y (segment_label py cfg vtotals y c)]
                   else [])
             (zip xcenters widths))
  else [].

Record Pass := mkPass {
  pass_ops : list HOp;
  last_starts : option (list Q) }.

(** One turn of the loop of the negative pass. *)
Definition neg_step (py : Printer) (cfg : Config) (labels : list Label)
    (np_data : list (list Val)) (vtotals : list Val) (bar_value_at_max : Val)
    (initial_starts : list Q) (st : Pass) (ic : nat * string) : Pass :=
  let '(i, colname) := ic in
  let widths := where_neg <$> column np_data i in
  let starts := default initial_starts (last_starts st) in
  let last := zip_with (λ s w, s + Qabs w)%Q starts widths in
  let xcenters := zip_with (λ s w, s + Qabs w / 2)%Q starts widths in
  mkPass (pass_ops st
          ++ [barh (neg_pass i) labels (Qabs <$> widths) starts colname]
          ++ segment_texts py cfg (neg_pass i) vtotals bar_value_at_max
               xcenters widths)
         (Some last).

(** One turn of the loop of the positive pass. *)
Definition pos_step (py : Printer) (cfg : Config) (labels : list Label)
    (np_data : list (list Val)) (vtotals : list Val) (bar_value_at_max : Val)
    (st : Pass) (ic : nat * string) : Pass :=
  let '(i, colname) := ic in
  let widths := where_pos <$> column np_data i in
  let starts := match last_starts st with
                | None => replicate (length widths) 0%Q
                | Some l => l
                end in
  let last := match last_starts st with
              | None => widths
              | Some l => zip_with Qplus l widths
              end in
  let xcenters := zip_with (λ s w, s + w / 2)%Q starts widths in
  mkPass (pass_ops st
          ++ [barh (pos_pass i) labels widths starts colname]
          ++ segment_texts py cfg (pos_pass i) vtotals bar_value_at_max
               xcenters widths)
         (Some last).

(** The calls of one loop turn at column [i], from the widths [wcol i]
    drawn there, the values [ccol i] written there, and the starts [l]. *)
Definition turn (py : Printer) (cfg : Config) (labels : list Label)
    (vtotals : list Val) (bar_value_at_max : Val)
    (site : nat → Site) (wcol ccol : nat → list Q)
    (xc : list Q → list Q → list Q) (i : nat) (colname : string) (l : list Q)
  : list HOp :=
  barh (site i) labels (wcol i) l colname
  :: segment_texts py cfg (site i) vtotals bar_value_at_max
       (xc l (ccol i)) (ccol i).

(** The widths drawn and the values written at column [i] in the negative
    pass and in the positive pass, and the centres of the segments. *)
Definition wcol_neg (np_data : list (list Val)) (i : nat) : list Q :=
  Qabs <$> (where_neg <$> column np_data i).
Definition ccol_neg (np_data : list (list Val)) (i : nat) : list Q :=
  where_neg <$> column np_data i.
Definition xc_neg (l c : list Q) : list Q :=
  zip_with (λ s w, s + Qabs w / 2)%Q l c.
Definition ccol_pos (np_data : list (list Val)) (i : nat) : list Q :=
  where_pos <$> column np_data i.
Definition xc_pos (l c : list Q) : list Q :=
  zip_with (λ s w, s + w / 2)%Q l c.

(** The starts after the columns [off], ..., [off + k - 1]. *)
Definition starts_at (wcol : nat → list Q) (l : list Q) (off k : nat) : list Q :=
  foldl (λ acc j, zip_with Qplus acc (wcol j)) l (seq off k).

(** [f"{x} {var_format.format(total)}"] over [zip(df.index, totals)] *)
Definition index_with_totals (py : Printer) (cfg : Config) (idx : list Label)
    (ts : list Val) : list Label :=
  zip_with (λ x total,
              LStr (label_text py x +:+ " " +:+ format py (var_format cfg) total))
    idx ts.

(** Lines 213-214: [if add_total_to_index and totals is not None:
    df.index = [...]]; pandas refuses an index of another length. *)
Definition index_totals (py : Printer) (cfg : Config) (d : DataFrame Label)
  : Err (DataFrame Label) :=
  match add_total_to_index cfg, totals cfg with
  | true, Some ts =>
      let idx := index_with_totals py cfg (index d) ts in
      if decide (length idx = length (values d))
      then Ok (mkFrame idx (columns d) (values d))
      else Raise ValueError
  | _, _ => Ok d
  end.

(** The keyword arguments with [totals=ts]. *)
Definition with_totals (ts : option (list Val)) (cfg : Config) : Config :=
  let 'mkConfig a b c d e f g _ i j k l m n o p q r s u xl yl v := cfg in
  mkConfig a b c d e f g ts i j k l m n o p q r s u xl yl v.

(** Lines 222-232: the colours.  Without [colors], one colour per value
    handed to [put.compute_heatmap_colors] (the cells of the only column,
    or the sums of the rows of the table), or [put.get_n_mlt_colors] of
    the number of columns; otherwise the caller's colours, tiled once per
    column. *)
Definition vcolors (py : Printer) (cfg : Config) (d : DataFrame Label)
  : list string :=
  match colors cfg with
  | None =>
      if is_category_names_colors cfg then
        if decide (length (columns d) = 1%nat)
        then compute_heatmap_colors py (mjoin (values d))
        else compute_heatmap_colors py (np_sum <$> values d)
      else get_n_mlt_colors py (length (columns d))
  | Some cs => mjoin (replicate (length (columns d)) cs)
  end.

(** Lines 251-254 and 283-286: [col_colors = colors[i]] under
    [is_category_names_colors], all the colours otherwise. *)
Definition col_colors (cfg : Config) (colors : list string) (i : nat)
  : Err (list string) :=
  if is_category_names_colors cfg
  then (λ c, [c]) <$> getitem colors (Z.of_nat i)
  else Ok colors.

(** A loop turn of a pass starts with the colour of its column; [step]
    is the rest of the turn.  After a raise no turn is run.  (The colour
    is not recorded in the call [barh].) *)
Definition coloured_step (cfg : Config) (colors : list string)
    (step : Pass → nat * string → Pass)
    (st : Pass * Err unit) (ic : nat * string) : Pass * Err unit :=
  match st.2 with
  | Raise _ => st
  | Ok _ =>
      match col_colors cfg colors ic.1 with
      | Raise e => (st.1, Raise e)
      | Ok _ => (step st.1 ic, Ok ())
      end
  end.

(** [{rdata[0]: rdata[1].to_list() for rdata in df.iterrows()}] *)
Definition results_of (d : DataFrame Label) : list (Label * list Val) :=
  dict_of (zip (index d) (values d)).

(** [x_step * np.floor(v / x_step)] and [x_step * np.ceil(v / x_step)] *)
Definition floor_to (step : Q) (v : Val) : Val :=
  match v with
  | Some q => if Qeq_bool step 0 then nan
              else Some (step * inject_Z (Qfloor (q / step)))%Q
  | None => nan
  end.
Definition ceil_to (step : Q) (v : Val) : Val :=
  match v with
  | Some q => if Qeq_bool step 0 then nan
              else Some (step * inject_Z (Qceiling (q / step)))%Q
  | None => nan
  end.

(** The width a call draws in row [y], for the calls of the negative pass
    ([neg = true]) or of the positive pass; and the sum over a drawing. *)
Definition is_neg (site : Site) : bool :=
  match site with neg_pass _ => true | pos_pass _ => false end.
Definition drawn_width (neg : bool) (y : nat) (op : HOp) : Q :=
  match op with
  | barh site _ widths _ _ =>
      if Bool.eqb (is_neg site) neg then default 0%Q (widths !! y) else 0%Q
  | _ => 0%Q
  end.
Definition drawn_widths (neg : bool) (y : nat) (ops : list HOp) : Q :=
  Qsum (drawn_width neg y <$> ops).

(** The calls of the two passes: a stack segment or its annotation. *)
Definition is_stack_call (op : HOp) : bool :=
  match op with
  | barh _ _ _ _ _ | text_segment _ _ _ _ => true
  | _ => false
  end.

Record HResult := mkHResult {
  hheap : Heap;
  hdrawn : list HOp;
  hreturned : Err (option Figure) }.

(** The part of [plot_vbars] after the two passes, lines 313-380,
    statement by statement; the helpers of [qis.plots.utils] with the
    keywords the source writes out.  (The calls [put.set_x_limits] for the
    caller's [x_limits] and [put.set_title], whose keywords are all
    parameters of [plot_vbars], are left out.) *)
Definition finish (py : Printer) (cfg : Config) (np_data : list (list Val))
    (vtotals : list Val) : list (Err (list HOp)) :=
  let kw := kwargs cfg in
  [ Ok (match xmin_shift cfg with
        | None => []
        | Some d => [shift_xmin d]
        end);
    Ok (if add_total_bar cfg
        then imap (λ idx total, vlines_total total idx) vtotals
        else []);
    (if add_total_to_left cfg then
       let widths := (λ row : list Val, Qsum (where_pos <$> row)) <$> np_data in
       m ← np_max (Some <$> widths);
       let shift := match m with
                    | Some mq => if Qle_bool ((2 # 10) * mq) (2 # 10)
                                 then (2 # 10)%Q else ((2 # 10) * mq)%Q
                    | None => (2 # 10)%Q
                    end in
       Ok (imap (λ idx (total : Val),
                   text_total (default 0%Q (widths !! idx) + shift)%Q idx
                     ("total: " +:+ format py (var_format cfg) total))
             vtotals)
     else Ok []);
    (λ _, [hput "set_legend"])
      <$> call_kw ["ax"; "labels"; "colors"; "legend_loc"; "is_reversed";
                   "bbox_to_anchor"; "fontsize"] kw;
    Ok [hput "grid"; hput "axvline"];
    (λ _, [hput "set_ax_tick_labels"])
      <$> call_kw ["ax"; "x_labels"; "y_labels"; "fontsize"; "x_rotation"] kw;
    (λ _, [hput "set_spines"]) <$> call_kw ["ax"] kw;
    match x_step cfg with
    | None => Ok []
    | Some step =>
        lo ← np_min (mjoin ((λ row : list Val,
                               np_cumsum ((λ v, Some (where_neg v)) <$> row))
                            <$> np_data));
        hi ← np_max (mjoin ((λ row : list Val,
                               np_cumsum ((λ v, Some (where_pos v)) <$> row))
                            <$> np_data));
        Ok [set_x_limits (floor_to step lo) (ceil_to step hi)]
    end;
    Ok (match rows_edge_lines cfg with
        | None => []
        | Some ls => (λ l, axhline_edge (inject_Z l - (1 # 2))) <$> ls
        end) ].

(** The keywords the helper calls of [finish] write out. *)
Definition vbars_keywords : list string :=
  ["ax"; "labels"; "colors"; "legend_loc"; "is_reversed"; "bbox_to_anchor";
   "fontsize"; "x_labels"; "y_labels"; "x_rotation"].

(** [plot_vbars(df, ..., ax, **kwargs)].  What has been drawn, and what
    has been done to the caller's table, stays when a later statement
    raises. *)
Definition plot_vbars (py : Printer) (h : Heap) (df : ref) (cfg : Config)
    (ax : option Axes) : HResult :=
  match h !! df with
  | Some (PFrame d) =>
      let category_names := columns d in
      match index_totals py cfg d with
      | Raise e => mkHResult h [] (Raise e)
      | Ok d' =>
          let h' := <[df := PFrame d']> h in
          let results := results_of d' in
          let labels := results.*1 in
          let np_data := results.*2 in
          match np_data with
          | [] => mkHResult h' [] (Raise AxisError)
          | _ =>
              let vtotals := np_sum <$> np_data in
              let colors := vcolors py cfg d' in
              let fig := match ax with None => Some NewFigure | Some _ => None end in
              match (if add_bar_value_at_mid cfg then Ok nan
                     else np_max (mjoin (np_cumsum <$> np_data))) with
              | Raise e => mkHResult h' [] (Raise e)
              | Ok bar_value_at_max =>
                  let initial_starts :=
                    (λ row : list Val, Qsum (where_neg <$> row)) <$> np_data in
                  let neg := foldl (coloured_step cfg colors
                                      (neg_step py cfg labels np_data vtotals
                                         bar_value_at_max initial_starts))
                               (mkPass [invert_yaxis] None, Ok ())
                               (imap pair category_names) in
                  match neg.2, last_starts neg.1 with
                  | Raise e, _ => mkHResult h' (pass_ops neg.1) (Raise e)
                  (* last_starts = 0*last_starts *)
                  | Ok _, None => mkHResult h' (pass_ops neg.1) (Raise TypeError)
                  | Ok _, Some l =>
                      let pos := foldl (coloured_step cfg colors
                                          (pos_step py cfg labels np_data vtotals
                                             bar_value_at_max))
                                   (mkPass (pass_ops neg.1)
                                           (Some (Qmult 0 <$> l)), Ok ())
                                   (imap pair category_names) in
                      match pos.2 with
                      | Raise e => mkHResult h' (pass_ops pos.1) (Raise e)
                      | Ok _ =>
                          let tail := run_steps (finish py cfg np_data vtotals) in
                          mkHResult h' (pass_ops pos.1 ++ tail.1)
                            (tail.2 ≫= λ _, Ok fig)
                      end
                  end
              end
          end
      end
  | _ => mkHResult h [] (Raise AttributeError)
  end.

End Bars.


(** ** qis/portfolio/portfolio_data.py, as the aggregator sees it

    The module is not among the sources at hand: a portfolio is given by
    the attributes the aggregator reads and the methods it calls, with
    their arguments in the order of the calls. *)
Module PortfolioData.

(** Modelled from the spec: [qis.utils.dates.TimePeriod] is not among the
    sources; [locate] restricts a table to a requested time window. *)
Record TimePeriod := mkPeriod {
  tp_start : option Z;
  tp_end : option Z }.

Definition in_period (tp : TimePeriod) (t : Z) : bool :=
  match tp_start tp with Some a => a <=? t | None => true end &&
  match tp_end tp with Some b => t <=? b | None => true end.

Definition locate (tp : TimePeriod) (df : DataFrame Z) : DataFrame Z :=
  of_rows (columns df) (filter (λ r, in_period tp r.1 = true) (rows df)).

(** [AttributionMetric]: a member is known here by its [title]. *)
Record AttributionMetric := { title : string }.

Record t := {
  nav : Series Z;
  instrument_pnl : DataFrame Z;
  group_data : list (string * string);
  group_order : list string;
  get_portfolio_nav : option TimePeriod → Series Z;
  get_ac_navs : option TimePeriod → DataFrame Z;
  (* get_exposures(is_grouped, time_period, add_total) *)
  get_exposures : bool → option TimePeriod → bool → DataFrame Z;
  (* get_performance_data(attribution_metric, time_period) *)
  get_performance_data : AttributionMetric → option TimePeriod → DataFrame string }.

End PortfolioData.

(** ** qis/portfolio/multi_portfolio_data.py *)
Module MultiPortfolioData.
Import PortfolioData.

(** The dataclass, with the attribute [navs] that [set_navs] adds. *)
Record t := mk {
  portfolio_datas : list PortfolioData.t;
  benchmark_prices : option (DataFrame Z);
  navs : option (DataFrame Z) }.

(** The NAV series of the portfolios, as [set_navs] collects them. *)
Definition nav_series (self : t) : list (Series Z) :=
  (λ portfolio, PortfolioData.get_portfolio_nav portfolio None)
  <$> portfolio_datas self.

(** A method that assigns to [self] gives the object as it leaves it,
    also when it raises. *)
Record Run := mkRun {
  self_after : t;
  outcome : Err unit }.

Definition set_navs (freq : option Freq) (self : t) : Run :=
  match concat_axis1 (to_frame <$> nav_series self) with
  | Raise e => mkRun self (Raise e)
  | Ok navs0 =>
      let self1 := mk (portfolio_datas self) (benchmark_prices self) (Some navs0) in
      match (match freq with None => Ok navs0 | Some f => asfreq navs0 f end) with
      | Raise e => mkRun self1 (Raise e)
      | Ok navs1 =>
          let self2 := mk (portfolio_datas self) (benchmark_prices self) (Some navs1) in
          match benchmark_prices self with
          | None => mkRun self2 (Ok ())
          | Some b =>
              match reindex_ffill b (index navs1) with
              | Raise e => mkRun self2 (Raise e)
              | Ok b' => mkRun (mk (portfolio_datas self) (Some b') (Some navs1)) (Ok ())
              end
          end
      end
  end.

(** [__post_init__] *)
Definition post_init (portfolio_datas : list PortfolioData.t)
    (benchmark_prices : option (DataFrame Z)) : Run :=
  set_navs None (mk portfolio_datas benchmark_prices None).

Definition _set_benchmark_prices (benchmark_prices : DataFrame Z) (self : t)
  : Run :=
  set_navs None (mk (portfolio_datas self) (Some benchmark_prices) (navs self)).

(** [time_period.locate(df)] when a period is given. *)
Definition window (time_period : option TimePeriod) (df : DataFrame Z)
  : DataFrame Z :=
  match time_period with
  | Some tp => locate tp df
  | None => df
  end.

Definition get_benchmark_price (self : t) (benchmark : string)
    (time_period : option TimePeriod) : Err (DataFrame Z) :=
  b ← match benchmark_prices self with
      | None => Raise TypeError
      | Some b => Ok b
      end;
  price ← select b benchmark;
  Ok (window time_period price).

Definition get_ac_navs (self : t) (portfolio_idx : Z)
    (benchmark : option string) (time_period : option TimePeriod)
  : Err (DataFrame Z) :=
  portfolio ← getitem (portfolio_datas self) portfolio_idx;
  let prices := PortfolioData.get_ac_navs portfolio time_period in
  match benchmark with
  | None => Ok prices
  | Some _ =>
      b ← match benchmark_prices self with
          | None => Raise AttributeError
          | Some b => Ok b
          end;
      name ← getitem (columns b) 0;
      benchmark_price ← get_benchmark_price self name time_period;
      concat_axis1 [prices; benchmark_price]
  end.

(** The calls into the plotting modules that are not among the sources. *)
Inductive Call :=
| plot_time_series (df : DataFrame Z) (title : string)
| add_bnb_regime_shadows (pivot_prices : DataFrame Z).

Definition add_regime_shadows (self : t) (regime_benchmark : string)
    (idx : option (list Z)) : Err (list Call) :=
  b ← match benchmark_prices self with
      | None => Raise TypeError
      | Some b => Ok b
      end;
  pivot_prices ← select b regime_benchmark;
  pivot_prices ← match idx with
                 | Some i => reindex_ffill pivot_prices i
                 | None => Ok pivot_prices
                 end;
  Ok [add_bnb_regime_shadows pivot_prices].

(** Lines 297-301 of [plot_instrument_pnl_diff]: align, fill, subtract. *)
Definition instrument_pnl_diff (pnl_inst1 pnl_inst2 : DataFrame Z)
  : DataFrame Z :=
  let '(df1_, df2_) := align_outer pnl_inst1 pnl_inst2 in
  subtract (fillna0 df1_) (fillna0 df2_).

Definition diff_name (p1 p2 : PortfolioData.t) : string :=
  s_name (nav p1) +:+ "-" +:+ s_name (nav p2).

Section plots.
(** [qis.utils.df_groups.agg_df_by_groups_ax1(df, group_data, total_column,
    group_order)], not among the sources. *)
Variable agg_df_by_groups_ax1 :
  DataFrame Z → list (string * string) → string → list string → DataFrame Z.

Definition plot_instrument_pnl_diff (self : t)
    (portfolio_idx1 portfolio_idx2 : Z) (is_grouped : bool)
    (benchmark : option string) (time_period : option TimePeriod)
  : Err (list Call) :=
  p1 ← getitem (portfolio_datas self) portfolio_idx1;
  p2 ← getitem (portfolio_datas self) portfolio_idx2;
  let diff := instrument_pnl_diff (instrument_pnl p1) (instrument_pnl p2) in
  let diff := if is_grouped
              then agg_df_by_groups_ax1 diff (group_data p1) (diff_name p1 p2)
                     (group_order p1)
              else diff in
  let diff := window time_period diff in
  let diff := cumsum diff in
  let drawn := [plot_time_series diff ("Cumulative p&l diff " +:+ diff_name p1 p2)] in
  match benchmark with
  | None => Ok drawn
  | Some name =>
      shadows ← add_regime_shadows self name (Some (index diff));
      Ok (drawn ++ shadows)
  end.

End plots.

Definition plot_exposures_diff (self : t)
    (portfolio_idx1 portfolio_idx2 : Z)
    (benchmark : option string) (time_period : option TimePeriod)
  : Err (list Call) :=
  p1 ← getitem (portfolio_datas self) portfolio_idx1;
  let exposures1 := get_exposures p1 true time_period false in
  p2 ← getitem (portfolio_datas self) portfolio_idx2;
  let exposures2 := get_exposures p2 true time_period false in
  let diff := subtract exposures1 exposures2 in
  let drawn := [plot_time_series diff ("Net exposure diff " +:+ diff_name p1 p2)] in
  match benchmark with
  | None => Ok drawn
  | Some name =>
      shadows ← add_regime_shadows self name (Some (index diff));
      Ok (drawn ++ shadows)
  end.

(** Lines 475-479 of [plot_performance_attribution]: the attribution
    table, one column per requested portfolio. *)
Definition attribution_table (self : t) (portfolio_ids : list Z)
    (time_period : option TimePeriod) (attribution_metric : AttributionMetric)
  : Err (DataFrame string) :=
  datas ← foldr (λ portfolio_id acc,
                   match getitem (portfolio_datas self) portfolio_id with
                   | Raise e => Raise e
                   | Ok p => (λ r, get_performance_data p attribution_metric
                                     time_period :: r) <$> acc
                   end) (Ok []) portfolio_ids;
  concat_axis1 datas.

(** The table [plot_performance_attribution] hands to [plot_bars]. *)
Definition attribution_data (self : t) (portfolio_ids : list Z)
    (time_period : option TimePeriod) (attribution_metric : AttributionMetric)
  : Err (DataFrame string) :=
  data ← attribution_table self portfolio_ids time_period attribution_metric;
  c0 ← getitem (columns data) 0;
  data ← sort_values_desc data c0;
  Ok (dropna (replace_zero_nan data)).

Definition bars_table (data : DataFrame string) : Bars.Table :=
  Bars.PFrame (mkFrame (Bars.LStr <$> index data)
                       (columns data) (values data)).

(** The keyword arguments [plot_bars] receives from the call of lines
    487-492: [stacked=False], and among its [**kwargs] the names
    [skip_y_axis] (written out in the call; it is no parameter of
    [plot_bars]) and [ncol] (line 482). *)
Definition grouped (cfg : Bars.Config) : Bars.Config :=
  let 'Bars.mkConfig _ a b c d e f g h i j k l m n o p q r s xl yl kw := cfg in
  Bars.mkConfig false a b c d e f g h i j k l m n o p q r s xl yl
    ("skip_y_axis" :: "ncol" :: filter (λ k, k ≠ "ncol") kw).

(** [plot_performance_attribution(..., ax, **kwargs)]: the table passed
    as [df] and what [plot_bars] does with it.  [cfg] stands for the
    caller's [**kwargs]: its fields for the keywords that are parameters
    of [plot_bars], [kwargs cfg] for the others; a keyword the call of
    line 487 writes out itself is refused there.  The table is a fresh
    object, at the address [0%nat] of a store of its own. *)
Definition plot_performance_attribution (py : Bars.Printer) (self : t)
    (portfolio_ids : list Z) (time_period : option TimePeriod)
    (attribution_metric : AttributionMetric)
    (cfg : Bars.Config) (ax : option Bars.Axes)
  : Err (DataFrame string * Bars.Result) :=
  data ← attribution_data self portfolio_ids time_period attribution_metric;
  _ ← call_kw ["df"; "skip_y_axis"; "title"; "stacked"; "ax"]
        (Bars.kwargs cfg);
  Ok (data, Bars.plot_bars py {[ 0%nat := bars_table data ]} 0%nat
              (grouped cfg) ax).

(** *** The other methods: the tables they fetch and the calls they make *)

(** [get_navs]: the NAV table, with a benchmark column put in front and
    the gaps of the joined table filled forward when a benchmark is named,
    cut to the period when one is given. *)
Definition get_navs (self : t) (benchmark : option string)
    (time_period : option TimePeriod) : Err (DataFrame Z) :=
  navs ← match navs self with
         | None => Raise AttributeError
         | Some navs => Ok navs
         end;
  navs ← match benchmark with
         | None => Ok navs
         | Some name =>
             b ← match benchmark_prices self with
                 | None => Raise TypeError
                 | Some b => Ok b
                 end;
             price ← select b name;
             ffill <$> concat_axis1 [price; navs]
         end;
  Ok (window time_period navs).

(** The calls into [qis.plots] and [qis.models], which are not among the
    sources, named after the module alias and the function
    ([ppd.plot_prices], [cdr.plot_rolling_drawdowns], ...): each with the
    table it is handed and the arguments the method computes for it.
    Titles that name the period of the prices come from [qis.utils.dates]
    and are left out. *)
Inductive Chart :=
| ppd_plot_prices (prices : DataFrame Z)
| rhe_plot_periodic_returns_table (prices : DataFrame Z) (freq : string)
| ppt_plot_ra_perf_bars (prices : DataFrame Z)
| pco_plot_returns_corr_table (prices : DataFrame Z) (freq title : string)
| cdr_plot_rolling_drawdowns (prices : DataFrame Z)
| cdr_plot_rolling_time_under_water (prices : DataFrame Z)
| ppt_plot_ra_perf_table_benchmark (prices : DataFrame Z) (benchmark : string)
    (rows_edge_lines : option (list Z))
| ppd_plot_prices_with_dd (prices : DataFrame Z)
    (regime_benchmark_str : option string)
| prs_plot_returns_scatter (prices : DataFrame Z) (benchmark freq title : string)
| regime_shadows (call : Call).

(** [if regime_benchmark is not None: self.add_regime_shadows(...,
    index=prices.index)] *)
Definition shadows_on (self : t) (regime_benchmark : option string)
    (prices : DataFrame Z) : Err (list Chart) :=
  match regime_benchmark with
  | None => Ok []
  | Some name =>
      calls ← add_regime_shadows self name (Some (index prices));
      Ok (map regime_shadows calls)
  end.

Definition plot_nav (self : t) (time_period : option TimePeriod)
    (regime_benchmark : option string) : Err (list Chart) :=
  prices ← get_navs self None time_period;
  shadows ← shadows_on self regime_benchmark prices;
  Ok (ppd_plot_prices prices :: shadows).

Definition plot_periodic_returns (self : t) (time_period : option TimePeriod)
    (heatmap_freq : string) : Err (list Chart) :=
  prices ← get_navs self None time_period;
  Ok [rhe_plot_periodic_returns_table prices heatmap_freq].

Definition plot_performance_bars (self : t) (time_period : option TimePeriod)
  : Err (list Chart) :=
  prices ← get_navs self None time_period;
  Ok [ppt_plot_ra_perf_bars prices].

Definition plot_corr_table (self : t) (time_period : option TimePeriod)
    (freq : string) : Err (list Chart) :=
  prices ← get_navs self None time_period;
  if decide (1 < length (columns prices))%nat
  then Ok [pco_plot_returns_corr_table prices freq
             ("Correlation of " +:+ freq +:+ " returns")]
  else Ok [].

(** Lines 195-198 and 209-212: the benchmark joins the prices only for a
    single portfolio. *)
Definition drawdown_prices (self : t) (time_period : option TimePeriod)
    (regime_benchmark : option string) : Err (DataFrame Z) :=
  match regime_benchmark with
  | Some name =>
      if decide (length (portfolio_datas self) = 1%nat)
      then get_navs self (Some name) time_period
      else get_navs self None time_period
  | None => get_navs self None time_period
  end.

Definition plot_drawdowns (self : t) (time_period : option TimePeriod)
    (regime_benchmark : option string) : Err (list Chart) :=
  prices ← drawdown_prices self time_period regime_benchmark;
  shadows ← shadows_on self regime_benchmark prices;
  Ok (cdr_plot_rolling_drawdowns prices :: shadows).

Definition plot_rolling_time_under_water (self : t)
    (time_period : option TimePeriod) (regime_benchmark : option string)
  : Err (list Chart) :=
  prices ← drawdown_prices self time_period regime_benchmark;
  shadows ← shadows_on self regime_benchmark prices;
  Ok (cdr_plot_rolling_time_under_water prices :: shadows).

Definition plot_ra_perf_table (self : t) (time_period : option TimePeriod)
  : Err (list Chart) :=
  b ← match benchmark_prices self with
      | None => Raise AttributeError
      | Some b => Ok b
      end;
  benchmark ← getitem (columns b) 0;
  prices ← get_navs self (Some benchmark) time_period;
  Ok [ppt_plot_ra_perf_table_benchmark prices benchmark None].

Definition plot_nav_with_dd (self : t) (time_period : option TimePeriod)
  : Err (list Chart) :=
  prices ← get_navs self None time_period;
  regime_benchmark_str ←
    match benchmark_prices self with
    | Some b => Some <$> getitem (columns b) 0
    | None => Ok None
    end;
  Ok [ppd_plot_prices_with_dd prices regime_benchmark_str].

Definition plot_returns_scatter (self : t) (benchmark : string)
    (time_period : option TimePeriod) (freq : string) : Err (list Chart) :=
  prices ← get_navs self (Some benchmark) time_period;
  Ok [prs_plot_returns_scatter prices benchmark freq
        ("Scatterplot of " +:+ freq +:+ "-returns vs " +:+ benchmark)].

(** *** [plot_ac_ra_perf_table] *)

(** The three lists the loop over the portfolios fills. *)
Record AcTables := mkAcTables {
  strategy_prices : list (DataFrame Z);
  ac_prices : list (DataFrame Z);
  rows_edge_lines : list Z }.

(** [sum(rows_edge_lines)] *)
Definition py_sum (l : list Z) : Z := foldl Z.add 0 l.

(** [[f"{portfolio_name}-{x}" for x in ac_prices_.columns]] *)
Definition prefixed (portfolio_name : string) (df : DataFrame Z) : DataFrame Z :=
  {| index := index df;
     columns := (λ x, portfolio_name +:+ "-" +:+ x) <$> columns df;
     values := values df |}.

(** One turn of [for portfolio in self.portfolio_datas]. *)
Definition ac_step (time_period : option TimePeriod) (acc : AcTables)
    (portfolio : PortfolioData.t) : Err AcTables :=
  let portfolio_name := s_name (nav portfolio) in
  let prices_ := PortfolioData.get_ac_navs portfolio time_period in
  strategy ← select prices_ portfolio_name;
  ac_prices_ ← drop_column prices_ portfolio_name;
  let ac_prices_ := prefixed portfolio_name ac_prices_ in
  Ok (mkAcTables (strategy_prices acc ++ [strategy])
        (ac_prices acc ++ [ac_prices_])
        (rows_edge_lines acc
         ++ [py_sum (rows_edge_lines acc)
             + Z.of_nat (length (columns ac_prices_))])).

Definition ac_tables (self : t) (time_period : option TimePeriod)
  : Err AcTables :=
  foldl (λ acc portfolio, acc ← acc; ac_step time_period acc portfolio)
    (Ok (mkAcTables [] [] [Z.of_nat (length (portfolio_datas self))]))
    (portfolio_datas self).

Definition plot_ac_ra_perf_table (self : t) (benchmark_price : Series Z)
    (time_period : option TimePeriod) : Err (list Chart) :=
  tabs ← ac_tables self time_period;
  strategy ← concat_axis1 (strategy_prices tabs);
  ac ← concat_axis1 (ac_prices tabs);
  bench ← reindex_ffill (to_frame benchmark_price) (index strategy);
  prices ← concat_axis1 [bench; strategy; ac];
  Ok [ppt_plot_ra_perf_table_benchmark prices (s_name benchmark_price)
        (Some (rows_edge_lines tabs))].

End MultiPortfolioData.


(** ** Sample data *)
Module Samples.
Import PortfolioData.

Definition q (n : Z) : Val := Some (inject_Z n).

Definition pnl_a : DataFrame Z :=
  mkFrame [1; 2] ["x"; "y"] [[q 1; q 2]; [q 3; nan]].
Definition pnl_b : DataFrame Z :=
  mkFrame [2; 3] ["y"; "z"] [[q 5; q 7]; [q 1; q 1]].

Definition perf_a : DataFrame string :=
  mkFrame ["x"; "y"; "z"] ["A"] [[q 0]; [q 3]; [q 2]].
Definition perf_b : DataFrame string :=
  mkFrame ["x"; "y"; "z"] ["B"] [[q 0]; [q 0]; [q 5]].

Definition portfolio (name : string) (nav_index : list Z) (nav_values : list Val)
    (pnl : DataFrame Z) (perf : DataFrame string) : PortfolioData.t :=
  {| nav := mkSeries name nav_index nav_values;
     instrument_pnl := pnl;
     group_data := [];
     group_order := [];
     get_portfolio_nav := λ _, mkSeries name nav_index nav_values;
     get_ac_navs := λ _, mkFrame nav_index [name] ((λ v, [v]) <$> nav_values);
     get_exposures := λ _ _ _, pnl;
     get_performance_data := λ _ _, perf |}.

Definition portfolio_a : PortfolioData.t :=
  portfolio "A" [1; 2; 4] [q 100; q 101; q 103] pnl_a perf_a.
Definition portfolio_b : PortfolioData.t :=
  portfolio "B" [2; 3] [q 50; q 51] pnl_b perf_b.

Definition benchmark : DataFrame Z :=
  mkFrame [0; 3] ["SPY"; "TLT"] [[q 10; q 20]; [q 11; q 21]].

Definition pnl : AttributionMetric := {| title := "P&L" |}.

(** The default keyword arguments of the renderers. *)
Definition config : Bars.Config :=
  {| Bars.stacked := true; Bars.colors := None;
     Bars.date_format := "%d-%b-%y";
     Bars.min_max_for_bars_values := None;
     Bars.is_add_bar_values := false; Bars.is_add_top_bar_values := false;
     Bars.var_format := "{:.1%}"; Bars.totals := None;
     Bars.is_top_totals := false; Bars.vline_columns := None;
     Bars.is_add_avg_line := false;
     Bars.add_bar_perc_values := false; Bars.xmin_shift := None;
     Bars.add_bar_value_at_mid := true; Bars.add_total_bar := true;
     Bars.add_total_to_index := false; Bars.add_total_to_left := false;
     Bars.x_step := None; Bars.rows_edge_lines := None;
     Bars.is_category_names_colors := true;
     Bars.xlabel := None; Bars.ylabel := None; Bars.kwargs := [] |}.

(** A stand-in for Python's printing: a number is shown as the fraction
    it is, after the format string; a date by its day number.  The colour
    helpers give one colour per value, and [n] colours. *)
Definition show (v : Val) : string :=
  match v with
  | Some x => pretty (Qnum x) +:+ "/" +:+ pretty (Zpos (Qden x))
  | None => "nan"
  end.
Definition printer : Bars.Printer :=
  {| Bars.format := λ fmt v, fmt +:+ show v;
     Bars.format_quot := λ fmt c total, fmt +:+ show (Some c) +:+ ":" +:+ show total;
     Bars.strftime := λ fmt t, fmt +:+ pretty t;
     Bars.str_timestamp := λ t, pretty t;
     Bars.compute_heatmap_colors := λ a, (λ _, "grey") <$> a;
     Bars.get_n_mlt_colors := λ n, replicate n "grey" |}.

(** The defaults, with [totals=...] and [add_bar_perc_values=True]. *)
Definition config_totals (ts : list Val) : Bars.Config :=
  let 'Bars.mkConfig a b c d e f g _ i j k _ m n o p q r s u xl yl v := config in
  Bars.mkConfig a b c d e f g (Some ts) i j k true m n o p q r s u xl yl v.

(** Two monthly observations of one series, and two series over three
    named categories. *)
Definition monthly : Bars.Table :=
  Bars.PFrame (mkFrame [Bars.LTimestamp 0; Bars.LTimestamp 31] ["a"]
                 [[q 1]; [q 2]]).
Definition weights_frame : DataFrame Bars.Label :=
  mkFrame [Bars.LStr "f1"; Bars.LStr "f2"; Bars.LStr "f3"] ["as1"; "as2"]
    [[q 5; q 5]; [q 7; q (-3)]; [q 10; q 0]].
Definition weights : Bars.Table := Bars.PFrame weights_frame.

(** A table in which the label [f1] comes twice. *)
Definition repeated : DataFrame Bars.Label :=
  mkFrame [Bars.LStr "f1"; Bars.LStr "f2"; Bars.LStr "f1"] ["as1"; "as2"]
    [[q 1; q 2]; [q 3; q 4]; [q 5; q 6]].

(** One row over two columns: the values [0.5] and [0.5]. *)
Definition wide : DataFrame Bars.Label :=
  mkFrame [Bars.LStr "f1"] ["as1"; "as2"] [[Some (1 # 2)%Q; Some (1 # 2)%Q]].

(** The defaults of [plot_vbars]: [is_add_bar_values=True]. *)
Definition vconfig : Bars.Config :=
  let 'Bars.mkConfig a b c d _ f g h i j k l m n o p q r s u xl yl v := config in
  Bars.mkConfig a b c d true f g h i j k l m n o p q r s u xl yl v.

(** The defaults of [plot_vbars], with [x_step=2]. *)
Definition vconfig_step : Bars.Config :=
  let 'Bars.mkConfig a b c d e f g h i j k l m n o p q _ s u xl yl v := vconfig in
  Bars.mkConfig a b c d e f g h i j k l m n o p q (Some 2%Q) s u xl yl v.

Definition multi : MultiPortfolioData.t :=
  MultiPortfolioData.mk [portfolio_a; portfolio_b] (Some benchmark) None.

(** One portfolio whose attribution is not in order. *)
Definition perf_c : DataFrame string :=
  mkFrame ["x"; "y"; "z"] ["B"] [[q 1]; [q 5]; [q 0]].
Definition multi_b : MultiPortfolioData.t :=
  MultiPortfolioData.mk [portfolio "B" [2; 3] [q 50; q 51] pnl_b perf_c]
    None None.

(** Two portfolios with two and three asset classes. *)
Definition with_classes (name : string) (classes : list string)
    (rows : list (list Val)) : PortfolioData.t :=
  {| nav := mkSeries name [1; 2] [q 1; q 2];
     instrument_pnl := pnl_a;
     group_data := [];
     group_order := [];
     get_portfolio_nav := λ _, mkSeries name [1; 2] [q 1; q 2];
     get_ac_navs := λ _, mkFrame [1; 2] (name :: classes) rows;
     get_exposures := λ _ _ _, pnl_a;
     get_performance_data := λ _ _, perf_a |}.
Definition multi_ac : MultiPortfolioData.t :=
  MultiPortfolioData.mk
    [with_classes "X" ["EQ"; "FI"] [[q 1; q 2; q 3]; [q 4; q 5; q 6]];
     with_classes "Y" ["EQ"; "FI"; "FX"]
       [[q 1; q 2; q 3; q 4]; [q 5; q 6; q 7; q 8]]]
    None None.

(** A stand-in for the grouping helper where the ungrouped path is run. *)
Definition no_groups : DataFrame Z → list (string * string) → string →
                       list string → DataFrame Z := λ d _ _ _, d.

End Samples.


(** * Properties *)

(** ** Python lists *)
Module PyFacts.

Lemma getitem_in_range {A} (l : list A) (i : Z) (a : A) :
  0 <= i → l !! Z.to_nat i = Some a → getitem l i = Ok a.
Proof.
  intros Hi Hl. unfold getitem.
  pose proof (lookup_lt_Some _ _ _ Hl) as Hlt.
  replace (i <? 0) with false by lia.
  replace ((0 <=? i) && (i <? Z.of_nat (length l))) with true by lia.
  by rewrite Hl.
Qed.

Lemma getitem_out_of_range {A} (l : list A) (i : Z) :
  i < - Z.of_nat (length l) ∨ Z.of_nat (length l) <= i →
  getitem l i = Raise IndexError.
Proof.
  intros Hi. unfold getitem.
  destruct (i <? 0) eqn:E.
  - replace ((0 <=? Z.of_nat (length l) + i) &&
             (Z.of_nat (length l) + i <? Z.of_nat (length l))) with false by lia.
    done.
  - replace ((0 <=? i) && (i <? Z.of_nat (length l))) with false by lia.
    done.
Qed.

Lemma getitem_ok {A} (l : list A) (i : Z) :
  - Z.of_nat (length l) <= i < Z.of_nat (length l) →
  ∃ a, getitem l i = Ok a.
Proof.
  intros Hi. unfold getitem.
  set (j := if i <? 0 then Z.of_nat (length l) + i else i).
  assert (Hj : 0 <= j < Z.of_nat (length l)).
  { subst j. destruct (i <? 0) eqn:E; lia. }
  replace ((0 <=? j) && (j <? Z.of_nat (length l))) with true by lia.
  destruct (lookup_lt_is_Some_2 l (Z.to_nat j)) as [a Ha]; [lia|].
  exists a. by rewrite Ha.
Qed.

Lemma getitem_wrap {A} (l : list A) (i : Z) :
  getitem l i = getitem l (wrap (Z.of_nat (length l)) i).
Proof.
  unfold wrap.
  destruct ((i <? 0) && (- Z.of_nat (length l) <=? i)) eqn:E; [|done].
  apply andb_true_iff in E as [E1 E2].
  unfold getitem. rewrite E1.
  replace (Z.of_nat (length l) + i <? 0) with false by lia.
  done.
Qed.

Section dicts.
Context {K V : Type} `{EqDecision K}.

Lemma dict_set_values (P : V → Prop) (k : K) (v : V) (d : list (K * V)) :
  P v → Forall P d.*2 → Forall P (dict_set k v d).*2.
Proof.
  intros Hv. induction d as [|[k' v'] d IH]; simpl.
  - intros _. by repeat constructor.
  - rewrite Forall_cons. intros [Hv' Hd].
    destruct (decide (k = k')); simpl; constructor; auto.
Qed.

Lemma dict_set_nonempty (k : K) (v : V) (d : list (K * V)) :
  dict_set k v d ≠ [].
Proof. destruct d as [|[k' v'] d]; simpl; [done|]. by destruct (decide (k = k')). Qed.

Lemma dict_set_fresh (k : K) (v : V) (d : list (K * V)) :
  k ∉ d.*1 → dict_set k v d = d ++ [(k, v)].
Proof.
  induction d as [|[k' v'] d IH]; simpl; [done|].
  intros [Hne Hd]%not_elem_of_cons.
  rewrite decide_False by done. by rewrite IH.
Qed.

Lemma dict_of_snoc (kvs : list (K * V)) (k : K) (v : V) :
  dict_of (kvs ++ [(k, v)]) = dict_set k v (dict_of kvs).
Proof. unfold dict_of. by rewrite foldl_app. Qed.

Lemma dict_of_values (P : V → Prop) (kvs : list (K * V)) :
  Forall P kvs.*2 → Forall P (dict_of kvs).*2.
Proof.
  induction kvs as [|[k v] kvs IH] using rev_ind; [done|].
  rewrite fmap_app, Forall_app, dict_of_snoc. simpl.
  intros [Hkvs Hv]. apply dict_set_values; [by inversion Hv|by apply IH].
Qed.

Lemma dict_of_nonempty (kvs : list (K * V)) : kvs ≠ [] → dict_of kvs ≠ [].
Proof.
  destruct kvs as [|[k v] kvs _] using rev_ind; [done|].
  intros _. rewrite dict_of_snoc. apply dict_set_nonempty.
Qed.

(** With distinct keys, the dict holds the pairs as they came. *)
Lemma dict_of_NoDup (kvs : list (K * V)) : NoDup kvs.*1 → dict_of kvs = kvs.
Proof.
  induction kvs as [|[k v] kvs IH] using rev_ind; [done|].
  rewrite fmap_app, dict_of_snoc. simpl.
  intros [Hnd [Hk _]]%NoDup_app.
  rewrite IH by done. apply dict_set_fresh.
  intros Hin. apply (Hk k Hin). by left.
Qed.

End dicts.

Section calls.

Lemma call_kw_ok (explicit kwargs : list string) :
  call_kw explicit kwargs = Ok () ↔ Forall (λ k, k ∉ explicit) kwargs.
Proof.
  unfold call_kw. rewrite Forall_Exists_neg.
  destruct (decide (Exists (λ k, k ∈ explicit) kwargs)); by split.
Qed.

Lemma call_kw_raise (explicit kwargs : list string) (k : string) :
  k ∈ kwargs → k ∈ explicit → call_kw explicit kwargs = Raise TypeError.
Proof.
  intros Hk He. unfold call_kw. rewrite decide_True; [done|].
  apply Exists_exists. by exists k.
Qed.

Lemma call_kw_cases (explicit kwargs : list string) :
  call_kw explicit kwargs = Ok () ∨ call_kw explicit kwargs = Raise TypeError.
Proof. unfold call_kw. destruct (decide _); [by right|by left]. Qed.

Lemma run_steps_cons {A} (ops : list A) (rest : list (Err (list A))) :
  run_steps (Ok ops :: rest)
  = (ops ++ (run_steps rest).1, (run_steps rest).2).
Proof. done. Qed.

Lemma run_steps_raise {A} (e : exn) (rest : list (Err (list A))) :
  run_steps (Raise e :: rest) = ([], Raise e).
Proof. done. Qed.

Lemma run_steps_ok {A} (parts : list (list A)) :
  run_steps (Ok <$> parts) = (mjoin parts, Ok ()).
Proof.
  induction parts as [|ops parts IH]; [done|].
  rewrite fmap_cons. cbn [run_steps]. by rewrite IH.
Qed.

Lemma run_steps_inv {A} (steps : list (Err (list A))) :
  (run_steps steps).2 = Ok () →
  ∃ parts, steps = Ok <$> parts ∧ (run_steps steps).1 = mjoin parts.
Proof.
  induction steps as [|[e|ops] steps IH]; cbn [run_steps snd fst].
  - intros _. by exists [].
  - done.
  - intros Hok. destruct (IH Hok) as (parts & -> & ->).
    by exists (ops :: parts).
Qed.

(** What has been done comes from the statements that were run. *)
Lemma run_steps_elem {A} (steps : list (Err (list A))) (op : A) :
  op ∈ (run_steps steps).1 → ∃ ops, Ok ops ∈ steps ∧ op ∈ ops.
Proof.
  induction steps as [|[e|ops] steps IH]; cbn [run_steps fst].
  - by intros ?%elem_of_nil.
  - by intros ?%elem_of_nil.
  - intros [Hin|Hin]%elem_of_app.
    + exists ops. split; [by left|done].
    + destruct (IH Hin) as (ops' & Hs & Hop). exists ops'. split; [by right|done].
Qed.

(** When no statement raises, each has done its part. *)
Lemma run_steps_all_ok {A} (steps : list (Err (list A))) (s : Err (list A)) :
  (run_steps steps).2 = Ok () → s ∈ steps → ∃ ops, s = Ok ops.
Proof.
  intros Hok Hs. destruct (run_steps_inv steps Hok) as (parts & -> & _).
  apply list_elem_of_fmap in Hs as (ops & -> & _). by exists ops.
Qed.

Lemma run_steps_elem_ok {A} (steps : list (Err (list A))) (ops : list A)
    (op : A) :
  (run_steps steps).2 = Ok () → Ok ops ∈ steps → op ∈ ops →
  op ∈ (run_steps steps).1.
Proof.
  intros Hok Hs Hop. destruct (run_steps_inv steps Hok) as (parts & -> & ->).
  apply list_elem_of_fmap in Hs as (ops' & [= <-] & Hin).
  apply list_elem_of_join. by exists ops.
Qed.

(** The statements before the first that raises have been run. *)
Lemma run_steps_app {A} (parts : list (list A)) (rest : list (Err (list A))) :
  run_steps ((Ok <$> parts) ++ rest)
  = (mjoin parts ++ (run_steps rest).1, (run_steps rest).2).
Proof.
  induction parts as [|ops parts IH].
  - cbn. by destruct (run_steps rest).
  - rewrite fmap_cons. cbn [app run_steps]. rewrite IH. cbn [fst snd mjoin list_join].
    by rewrite app_assoc.
Qed.

End calls.

End PyFacts.

(** ** pandas: the order of labels, unions, lookups *)
Module PdFacts.

#[global] Instance Z_LabelOrder : LabelOrder Z.
Proof.
  split; unfold label_le; simpl.
  - intros x y z. lia.
  - intros x y. lia.
  - intros x y. lia.
Qed.

Lemma string_compare_trans (s1 s2 s3 : string) :
  String.compare s1 s2 ≠ Gt → String.compare s2 s3 ≠ Gt →
  String.compare s1 s3 ≠ Gt.
Proof.
  revert s2 s3. induction s1 as [|c1 s1 IH]; intros [|c2 s2] [|c3 s3];
    simpl; try done.
  unfold Ascii.compare.
  destruct (N.compare_spec (Ascii.N_of_ascii c1) (Ascii.N_of_ascii c2)) as [E12|L12|G12];
    destruct (N.compare_spec (Ascii.N_of_ascii c2) (Ascii.N_of_ascii c3)) as [E23|L23|G23];
    try done; intros H12 H23.
  - rewrite E12, E23, N.compare_refl. by apply (IH s2).
  - rewrite E12. by rewrite (proj2 (N.compare_lt_iff _ _) L23).
  - rewrite <- E23. by rewrite (proj2 (N.compare_lt_iff _ _) L12).
  - by rewrite (proj2 (N.compare_lt_iff _ _) (N.lt_trans _ _ _ L12 L23)).
Qed.

Lemma string_leb_compare (s1 s2 : string) :
  String.leb s1 s2 = true ↔ String.compare s1 s2 ≠ Gt.
Proof. unfold String.leb. destruct (String.compare s1 s2); split; done. Qed.

#[global] Instance string_LabelOrder : LabelOrder string.
Proof.
  split; unfold label_le; simpl.
  - intros x y z. rewrite !string_leb_compare. apply string_compare_trans.
  - intros x y. apply String.leb_antisym.
  - intros x y. apply String.leb_total.
Qed.

Section lists.
Context {A : Type} `{EqDecision A}.

Lemma elem_of_unique (l : list A) (x : A) : x ∈ unique l ↔ x ∈ l.
Proof.
  induction l as [|y l IH]; simpl; [done|].
  rewrite !elem_of_cons, list_elem_of_filter, IH.
  destruct (decide (x = y)); tauto.
Qed.

Lemma NoDup_unique (l : list A) : NoDup (unique l).
Proof.
  induction l as [|y l IH]; simpl; constructor.
  - rewrite list_elem_of_filter. tauto.
  - by apply NoDup_filter.
Qed.

Lemma get_loc_Some (x : A) (l : list A) (i : nat) :
  get_loc x l = Some i → l !! i = Some x.
Proof.
  revert i. induction l as [|y l IH]; intros i; simpl; [done|].
  destruct (decide (x = y)) as [->|Hne].
  - by intros [= <-].
  - destruct (get_loc x l) as [j|]; [|done].
    intros [= <-]. by apply IH.
Qed.

Lemma get_loc_elem_of (x : A) (l : list A) :
  x ∈ l → ∃ i, get_loc x l = Some i.
Proof.
  induction l as [|y l IH]; [by intros ?%elem_of_nil|].
  intros Hx. simpl. destruct (decide (x = y)) as [->|Hne]; [by eexists|].
  apply elem_of_cons in Hx as [?|Hx]; [done|].
  destruct (IH Hx) as [i ->]. by eexists.
Qed.

Lemma get_loc_None (x : A) (l : list A) : x ∉ l → get_loc x l = None.
Proof.
  intros Hx. destruct (get_loc x l) as [i|] eqn:E; [|done].
  apply get_loc_Some, list_elem_of_lookup_2 in E. done.
Qed.

Lemma get_loc_NoDup (x : A) (l : list A) (i : nat) :
  NoDup l → l !! i = Some x → get_loc x l = Some i.
Proof.
  intros Hnd Hi.
  destruct (get_loc_elem_of x l) as [j Hj]; [by eapply list_elem_of_lookup_2|].
  rewrite Hj. f_equal.
  apply get_loc_Some in Hj. by eapply NoDup_lookup.
Qed.

End lists.

Section order.
Context {L : Type} `{LabelOrder L}.

Lemma label_lt_le (x y : L) : label_lt x y → label_le x y.
Proof. by intros [? _]. Qed.

Lemma label_lt_irrefl (x : L) : ¬ label_lt x x.
Proof. intros [H1 H2]. congruence. Qed.

#[local] Instance label_lt_trans : Transitive (label_lt (L:=L)).
Proof.
  intros x y z [Hxy Hyx] [Hyz Hzy]. split.
  - exact (label_le_trans x y z Hxy Hyz).
  - destruct (label_leb z x) eqn:E; [|done].
    pose proof (label_le_trans z x y E Hxy) as Hzy'.
    unfold label_le in Hzy'. congruence.
Qed.

Lemma increasing_Sorted (l : list L) :
  increasing l = true ↔ Sorted label_lt l.
Proof.
  induction l as [|x [|y l] IH].
  - split; [constructor|done].
  - split; [repeat constructor|done].
  - change (increasing (x :: y :: l)) with
      (label_leb x y && negb (label_leb y x) && increasing (y :: l)).
    rewrite !andb_true_iff, negb_true_iff, IH. split.
    + intros [[] ?]. constructor; [done|]. by constructor.
    + intros Hs. inversion Hs as [|?? Hs' Hhd]; subst.
      inversion Hhd as [|?? [? ?]]; subst. done.
Qed.

Lemma increasing_StronglySorted (l : list L) :
  increasing l = true → StronglySorted label_lt l.
Proof. rewrite increasing_Sorted. apply Sorted_StronglySorted, _. Qed.

Lemma increasing_NoDup (l : list L) : increasing l = true → NoDup l.
Proof.
  intros Hs%increasing_StronglySorted.
  induction Hs as [|x l Hs IH Hall]; constructor; [|done].
  intros Hx. rewrite Forall_forall in Hall.
  by apply (label_lt_irrefl x), Hall.
Qed.

Lemma Sorted_le_increasing (l : list L) :
  Sorted label_le l → NoDup l → increasing l = true.
Proof.
  intros Hs Hnd. apply increasing_Sorted.
  induction Hs as [|x l Hs IH Hhd]; [constructor|].
  apply NoDup_cons in Hnd as [Hx Hnd].
  constructor; [by apply IH|].
  destruct Hhd as [|y l Hxy]; constructor.
  split; [done|].
  destruct (label_leb y x) eqn:E; [|done].
  assert (x = y) by (by apply (anti_symm label_le)).
  subst. exfalso. apply Hx. by left.
Qed.

Lemma sorted_union_increasing (l : list L) :
  increasing (merge_sort label_le (unique l)) = true.
Proof.
  apply Sorted_le_increasing.
  - apply Sorted_merge_sort, _.
  - rewrite merge_sort_Permutation. apply NoDup_unique.
Qed.

Lemma index_union_same (a : list L) : index_union a a = a.
Proof. unfold index_union. by rewrite decide_True. Qed.

Lemma index_union_comm (a b : list L) : index_union a b = index_union b a.
Proof.
  unfold index_union.
  destruct (decide (a = b)) as [->|Hne].
  - by rewrite decide_True.
  - rewrite decide_False by done.
    destruct a as [|x a], b as [|y b]; try done.
    apply (Sorted_unique label_le).
    + apply Sorted_merge_sort, _.
    + apply Sorted_merge_sort, _.
    + rewrite !merge_sort_Permutation.
      apply NoDup_Permutation; [apply NoDup_unique..|].
      intros z. rewrite !elem_of_unique, !elem_of_app. tauto.
Qed.

Lemma elem_of_index_union (a b : list L) (x : L) :
  x ∈ index_union a b ↔ x ∈ a ∨ x ∈ b.
Proof.
  unfold index_union.
  destruct (decide (a = b)) as [->|Hne]; [tauto|].
  destruct a as [|y a], b as [|z b].
  - tauto.
  - rewrite elem_of_nil. tauto.
  - rewrite elem_of_nil. tauto.
  - rewrite merge_sort_Permutation, elem_of_unique, elem_of_app. tauto.
Qed.

Lemma increasing_index_union (a b : list L) :
  increasing a = true → increasing b = true →
  increasing (index_union a b) = true.
Proof.
  intros Ha Hb. unfold index_union.
  destruct (decide (a = b)); [done|].
  destruct a, b; try done.
  apply sorted_union_increasing.
Qed.

End order.

Section frames.
Context {L : Type} `{Labels L}.

Lemma loc_build (I : list L) (C : list string) (f : L → string → Val)
    (r : L) (c : string) :
  r ∈ I → c ∈ C → loc (build I C f) r c = f r c.
Proof.
  intros Hr Hc. unfold loc, iat, build; simpl.
  destruct (get_loc_elem_of r I Hr) as [i Hi].
  destruct (get_loc_elem_of c C Hc) as [j Hj].
  rewrite Hi, Hj.
  apply get_loc_Some in Hi. apply get_loc_Some in Hj.
  rewrite list_lookup_fmap, Hi. simpl.
  by rewrite list_lookup_fmap, Hj.
Qed.

Lemma map_cells_build (g : Val → Val) (I : list L) (C : list string)
    (f : L → string → Val) :
  map_cells g (build I C f) = build I C (λ r c, g (f r c)).
Proof.
  unfold map_cells, build; simpl. f_equal.
  rewrite <- list_fmap_compose. apply list_fmap_ext. intros _ r _. simpl.
  by rewrite <- list_fmap_compose.
Qed.

Lemma Forall2_build (R : Val → Val → Prop) (I : list L) (C : list string)
    (f g : L → string → Val) :
  (∀ r c, r ∈ I → c ∈ C → R (f r c) (g r c)) →
  Forall2 (Forall2 R) (values (build I C f)) (values (build I C g)).
Proof.
  intros Hfg. unfold build; simpl.
  apply Forall2_fmap, Forall_Forall2_diag, Forall_forall. intros r Hr.
  apply Forall2_fmap, Forall_Forall2_diag, Forall_forall. intros c Hc.
  by apply Hfg.
Qed.

End frames.

Section rows.
Context {L : Type}.

Lemma rows_of_rows (C : list string) (rs : list (L * list Val)) :
  rows (of_rows C rs) = rs.
Proof. unfold rows, of_rows; simpl. apply zip_fst_snd. Qed.

Lemma rows_map_cells (g : Val → Val) (df : DataFrame L) :
  rows (map_cells g df)
  = (λ r : L * list Val, (r.1, g <$> r.2)) <$> rows df.
Proof.
  unfold rows, map_cells; simpl.
  generalize (index df) (values df).
  induction l as [|x l IH]; intros [|row rs]; simpl; [done..|].
  by rewrite IH.
Qed.

Lemma rows_dropna (df : DataFrame L) :
  rows (dropna df) = filter (λ r, complete r.2 = true) (rows df).
Proof. unfold dropna. apply rows_of_rows. Qed.

End rows.

Section stacking.

Lemma length_hstack (n : nat) (blocks : list (list (list Val))) :
  Forall (λ b, length b = n) blocks → length (hstack n blocks) = n.
Proof.
  induction 1 as [|b blocks Hb _ IH]; simpl.
  - apply length_replicate.
  - rewrite length_zip_with. fold (hstack n blocks). lia.
Qed.

Lemma hstack_lookup (n : nat) (blocks : list (list (list Val))) (i : nat) :
  (i < n)%nat → Forall (λ b, length b = n) blocks →
  hstack n blocks !! i
  = Some (mjoin ((λ b : list (list Val), default [] (b !! i)) <$> blocks)).
Proof.
  intros Hi. induction 1 as [|b blocks Hb _ IH]; simpl.
  - by apply lookup_replicate_2.
  - rewrite lookup_zip_with. fold (hstack n blocks). rewrite IH.
    destruct (lookup_lt_is_Some_2 b i) as [row ->]; [lia|]. done.
Qed.

Lemma mjoin_fmap_singleton {A B} (f : A → list B) (g : A → B) (l : list A) :
  Forall (λ a, f a = [g a]) l → mjoin (f <$> l) = g <$> l.
Proof.
  induction 1 as [|a l Ha _ IH]; [done|].
  rewrite !fmap_cons. simpl. by rewrite Ha, IH.
Qed.

End stacking.

Section timestamps.

Lemma label_lt_Z (x y : Z) : label_lt x y ↔ x < y.
Proof. unfold label_lt; simpl. lia. Qed.

Lemma increasing_Z (l : list Z) :
  increasing l = true ↔ StronglySorted Z.lt l.
Proof.
  rewrite increasing_Sorted. split.
  - intros Hs. apply Sorted_StronglySorted; [apply _|].
    induction Hs as [|x l Hs IH Hhd]; constructor; [done|].
    destruct Hhd; constructor. by apply label_lt_Z.
  - intros Hs%StronglySorted_Sorted.
    induction Hs as [|x l Hs IH Hhd]; constructor; [done|].
    destruct Hhd; constructor. by apply label_lt_Z.
Qed.

Lemma StronglySorted_seqZ (m n : Z) : StronglySorted Z.lt (seqZ m n).
Proof.
  remember (Z.to_nat n) as k eqn:Hk. revert m n Hk.
  induction k as [|k IH]; intros m n Hk.
  - rewrite seqZ_nil by lia. constructor.
  - rewrite seqZ_cons by lia. constructor.
    + apply IH. lia.
    + apply Forall_seqZ. lia.
Qed.

Lemma StronglySorted_filter_lt (P : Z → Prop) `{∀ x, Decision (P x)}
    (l : list Z) :
  StronglySorted Z.lt l → StronglySorted Z.lt (filter P l).
Proof.
  induction 1 as [|x l Hs IH Hall]; [constructor|].
  rewrite filter_cons. destruct (decide (P x)); [|done].
  constructor; [done|].
  apply Forall_forall. intros y [_ Hy]%list_elem_of_filter.
  rewrite Forall_forall in Hall. by apply Hall.
Qed.

Lemma increasing_date_range (start stop : Z) (freq : Freq) :
  increasing (date_range start stop freq) = true.
Proof.
  apply increasing_Z. unfold date_range.
  apply StronglySorted_filter_lt, StronglySorted_seqZ.
Qed.

Lemma filter_le_nil (I : list Z) (t x : Z) :
  t < x → Forall (Z.lt x) I → filter (λ s : Z, label_le s t) I = [].
Proof.
  intros Hx Hall. induction Hall as [|y I Hy _ IH]; [done|].
  rewrite filter_cons_False; [done|].
  unfold label_le; simpl. lia.
Qed.

Lemma pad_loc_spec (I : list Z) (t : Z) :
  increasing I = true → last_at_or_before I t (pad_loc I t).
Proof.
  intros Hs%increasing_Z. unfold pad_loc.
  induction Hs as [|x I Hs IH Hall].
  - simpl. by intros s ?%elem_of_nil.
  - destruct (decide (x <= t)) as [Hle|Hgt].
    + rewrite filter_cons_True by (unfold label_le; simpl; lia).
      simpl length.
      destruct (length (filter (λ s : Z, label_le s t) I)) as [|k] eqn:E.
      * exists x. split; [done|]. split; [done|].
        intros [|k'] s'; [lia|]. simpl. intros Hk' Hs'.
        apply list_elem_of_lookup_2, IH in Hk'. lia.
      * destruct IH as (s & Hk & Hst & Hmax).
        exists s. split; [done|]. split; [done|].
        intros [|k'] s'; [lia|]. simpl. intros Hk' Hs'.
        apply le_n_S. by eapply Hmax.
    + rewrite filter_cons_False by (unfold label_le; simpl; lia).
      rewrite (filter_le_nil I t x) by (done || lia). simpl.
      intros s [->|Hin]%elem_of_cons; [lia|].
      rewrite Forall_forall in Hall. specialize (Hall s Hin). lia.
Qed.

End timestamps.

Section concat.

Lemma foldl_index_union_increasing (i0 : list Z) (rest : list (list Z)) :
  increasing i0 = true → Forall (λ i, increasing i = true) rest →
  increasing (foldl index_union i0 rest) = true.
Proof.
  intros H0 Hrest. revert i0 H0.
  induction Hrest as [|i rest Hi _ IH]; intros i0 H0; [done|].
  simpl. apply IH. by apply increasing_index_union.
Qed.

Lemma elem_of_foldl_index_union (i0 : list Z) (rest : list (list Z)) (x : Z) :
  x ∈ foldl index_union i0 rest ↔ x ∈ i0 ∨ ∃ i, i ∈ rest ∧ x ∈ i.
Proof.
  revert i0. induction rest as [|i rest IH]; intros i0; simpl.
  - split; [by left|]. intros [?|(i & ?%elem_of_nil & _)]; done.
  - rewrite IH, elem_of_index_union. split.
    + intros [[?|?]|(i' & ? & ?)]; [by left| |].
      * right. exists i. split; [by left|done].
      * right. exists i'. split; [by right|done].
    + intros [?|(i' & [->|?]%elem_of_cons & ?)]; [by left; left| |].
      * by left; right.
      * right. by exists i'.
Qed.

Lemma union_indexes_increasing (idxs : list (list Z)) :
  Forall (λ i, increasing i = true) idxs →
  increasing (union_indexes idxs) = true.
Proof.
  destruct 1 as [|i0 rest H0 Hrest]; [done|].
  by apply foldl_index_union_increasing.
Qed.

Lemma elem_of_union_indexes (idxs : list (list Z)) (x : Z) :
  x ∈ union_indexes idxs ↔ ∃ i, i ∈ idxs ∧ x ∈ i.
Proof.
  destruct idxs as [|i0 rest]; simpl.
  - split; [by intros ?%elem_of_nil|]. by intros (i & ?%elem_of_nil & _).
  - rewrite elem_of_foldl_index_union. split.
    + intros [?|(i & ? & ?)]; [exists i0|exists i]; split; try done.
      * by left.
      * by right.
    + intros (i & [->|?]%elem_of_cons & ?); [by left|]. right. by exists i.
Qed.

Lemma concat_axis1_increasing (objs : list (DataFrame Z)) :
  objs ≠ [] → Forall (λ df, increasing (index df) = true) objs →
  concat_axis1 objs
  = Ok {| index := union_indexes (index <$> objs);
          columns := mjoin (columns <$> objs);
          values := hstack (length (union_indexes (index <$> objs)))
                      ((λ df, reindex_rows df (union_indexes (index <$> objs)))
                       <$> objs) |}.
Proof.
  intros Hne Hinc. unfold concat_axis1. destruct objs as [|o objs]; [done|].
  rewrite decide_True; [done|].
  eapply Forall_impl; [exact Hinc|]. intros df Hdf. right.
  by apply increasing_NoDup.
Qed.

Lemma reindex_rows_series (s : Series Z) (I : list Z) (i : nat) (t : Z) :
  series_ok s → NoDup I → I !! i = Some t →
  reindex_rows (to_frame s) I !! i = Some [series_at s t].
Proof.
  intros [Hinc Hlen] Hnd Hi. unfold reindex_rows, series_at. simpl.
  destruct (decide (s_index s = I)) as [Heq|Hne].
  - subst I. rewrite (get_loc_NoDup t _ i Hnd Hi). simpl.
    rewrite list_lookup_fmap.
    destruct (lookup_lt_is_Some_2 (s_values s) i) as [v ->]; [|done].
    rewrite Hlen. by eapply lookup_lt_Some.
  - rewrite list_lookup_fmap, Hi. simpl. f_equal.
    unfold row_at. simpl.
    destruct (get_loc t (s_index s)) as [j|] eqn:Ej; [|done].
    simpl. rewrite list_lookup_fmap.
    destruct (lookup_lt_is_Some_2 (s_values s) j) as [v ->]; [|done].
    rewrite Hlen. apply get_loc_Some in Ej. by eapply lookup_lt_Some.
Qed.

Lemma length_reindex_rows_series (s : Series Z) (I : list Z) :
  series_ok s → length (reindex_rows (to_frame s) I) = length I.
Proof.
  intros [_ Hlen]. unfold reindex_rows. simpl.
  destruct (decide (s_index s = I)) as [<-|Hne].
  - by rewrite length_fmap.
  - by rewrite length_fmap.
Qed.

(** The table [pd.concat] makes of series: its index, its columns, its
    cells. *)
Lemma concat_series (ss : list (Series Z)) :
  ss ≠ [] → Forall series_ok ss →
  ∃ navs,
    concat_axis1 (to_frame <$> ss) = Ok navs
    ∧ columns navs = s_name <$> ss
    ∧ increasing (index navs) = true
    ∧ length (values navs) = length (index navs)
    ∧ (∀ t, t ∈ index navs ↔ ∃ s, s ∈ ss ∧ t ∈ s_index s)
    ∧ (∀ i t, index navs !! i = Some t →
         values navs !! i = Some ((λ s, series_at s t) <$> ss)).
Proof.
  intros Hne Hok.
  assert (Hinc : Forall (λ df : DataFrame Z, increasing (index df) = true)
                   (to_frame <$> ss)).
  { apply Forall_fmap. eapply Forall_impl; [exact Hok|]. by intros s [? _]. }
  eexists. split.
  { apply concat_axis1_increasing; [|done]. by destruct ss. }
  set (I := union_indexes (index <$> (to_frame <$> ss))).
  assert (HI : increasing I = true).
  { apply union_indexes_increasing. by apply Forall_fmap. }
  assert (Hblocks : Forall (λ b : list (list Val), length b = length I)
                      ((λ df, reindex_rows df I) <$> (to_frame <$> ss))).
  { rewrite <- list_fmap_compose. apply Forall_fmap.
    eapply Forall_impl; [exact Hok|]. intros s Hs. simpl.
    by apply length_reindex_rows_series. }
  simpl. split_and!; [|done|by apply length_hstack| |].
  - clear. induction ss as [|s ss IH]; [done|].
    rewrite !fmap_cons. simpl. by rewrite IH.
  - intros t. subst I. rewrite elem_of_union_indexes. split.
    + intros (i & Hi & Ht).
      apply list_elem_of_fmap in Hi as (df & -> & Hdf).
      apply list_elem_of_fmap in Hdf as (s & -> & Hs).
      by exists s.
    + intros (s & Hs & Ht). exists (s_index s). split; [|done].
      rewrite <- list_fmap_compose.
      apply list_elem_of_fmap. by exists s.
  - intros i t Hi.
    rewrite hstack_lookup; [|by eapply lookup_lt_Some|done].
    f_equal. rewrite <- !list_fmap_compose.
    apply mjoin_fmap_singleton.
    eapply Forall_impl; [exact Hok|]. intros s Hs. simpl.
    by rewrite (reindex_rows_series s I i t Hs (increasing_NoDup I HI) Hi).
Qed.

End concat.

End PdFacts.

(** ** Pairwise comparisons and the portfolio indices *)
Module PairwiseSpec.
Import PortfolioData MultiPortfolioData PyFacts.

Section indices.
Variable agg_df_by_groups_ax1 :
  DataFrame Z → list (string * string) → string → list string → DataFrame Z.

(** C9, as amended.  With [n] portfolios in the collection, both pairwise
    comparisons raise [IndexError] as soon as one of the two requested
    indices is [>= n] or [< -n]; an index from [-n] to [-1] is Python's
    index from the end and selects portfolio [n + i]. *)
Theorem pairwise_index_out_of_range (self : MultiPortfolioData.t)
    (idx1 idx2 : Z) (is_grouped : bool) (benchmark : option string)
    (time_period : option TimePeriod) :
  let n := Z.of_nat (length (portfolio_datas self)) in
  (idx1 < - n ∨ n <= idx1 ∨ idx2 < - n ∨ n <= idx2 →
     plot_instrument_pnl_diff agg_df_by_groups_ax1 self idx1 idx2 is_grouped
       benchmark time_period = Raise IndexError
     ∧ plot_exposures_diff self idx1 idx2 benchmark time_period
       = Raise IndexError)
  ∧ plot_instrument_pnl_diff agg_df_by_groups_ax1 self idx1 idx2 is_grouped
      benchmark time_period
    = plot_instrument_pnl_diff agg_df_by_groups_ax1 self (wrap n idx1)
        (wrap n idx2) is_grouped benchmark time_period
  ∧ plot_exposures_diff self idx1 idx2 benchmark time_period
    = plot_exposures_diff self (wrap n idx1) (wrap n idx2) benchmark time_period.
Proof.
  intros n. split; [|split].
  - intros Hout.
    unfold plot_instrument_pnl_diff, plot_exposures_diff.
    destruct (decide (idx1 < - n ∨ n <= idx1)) as [H1|H1].
    + rewrite (getitem_out_of_range _ idx1 H1). split; reflexivity.
    + assert (H2 : idx2 < - n ∨ n <= idx2) by lia.
      rewrite (getitem_out_of_range _ idx2 H2).
      destruct (getitem_ok (portfolio_datas self) idx1) as [p1 ->]; [lia|].
      split; reflexivity.
  - unfold plot_instrument_pnl_diff. subst n.
    by rewrite <- !getitem_wrap.
  - unfold plot_exposures_diff. subst n.
    by rewrite <- !getitem_wrap.
Qed.

End indices.

Lemma pairwise_index_out_of_range_witness :
  plot_instrument_pnl_diff Samples.no_groups Samples.multi 0 2 true None None
    = Raise IndexError
  ∧ plot_exposures_diff Samples.multi 0 2 None None = Raise IndexError.
Proof.
  apply (proj1 (pairwise_index_out_of_range Samples.no_groups Samples.multi 0 2 true
                  None None)).
  simpl. lia.
Defined.

(** C9 as stated fails: [-1] is outside [0..len-1], and both comparisons
    run, on the last portfolio of the collection. *)
Lemma pairwise_negative_index_selects_last :
  plot_exposures_diff Samples.multi 0 (-1) None None
    = plot_exposures_diff Samples.multi 0 1 None None
  ∧ plot_exposures_diff Samples.multi 0 (-1) None None ≠ Raise IndexError
  ∧ plot_instrument_pnl_diff Samples.no_groups Samples.multi 0 (-1) false None None
    = plot_instrument_pnl_diff Samples.no_groups Samples.multi 0 1 false None None
  ∧ plot_instrument_pnl_diff Samples.no_groups Samples.multi 0 (-1) false None None
    ≠ Raise IndexError.
Proof. repeat split; by vm_compute. Qed.

End PairwiseSpec.

(** ** The benchmark column of the asset-class NAV table *)
Module AcNavsSpec.
Import PortfolioData MultiPortfolioData.

Lemma positions_absent (name : string) (cols : list string) (f : nat → nat) :
  name ∉ cols →
  filter (λ p : nat * string, p.2 = name) (imap (λ i c, (f i, c)) cols) = [].
Proof.
  revert f. induction cols as [|c cols IH]; intros f Hn; [done|].
  apply not_elem_of_cons in Hn as [Hc Hn].
  rewrite imap_cons, filter_cons_False by (simpl; congruence).
  apply (IH (f ∘ S) Hn).
Qed.

Lemma positions_head (name : string) (cols : list string) :
  name ∉ cols → positions name (name :: cols) = [0%nat].
Proof.
  intros Hn. unfold positions.
  rewrite imap_cons, filter_cons_True by done.
  change (imap (pair ∘ S) cols) with (imap (λ i c, (S i, c)) cols).
  by rewrite (positions_absent name cols S Hn).
Qed.

Lemma select_first_column (b : DataFrame Z) (c0 : string) (cs : list string) :
  columns b = c0 :: cs → c0 ∉ cs → select b c0 = Ok (iloc_column b 0).
Proof.
  intros Hc Hn. unfold select, iloc_column.
  rewrite Hc, (positions_head c0 cs Hn). done.
Qed.

(** C10.  With a benchmark table attached whose first column is [c0],
    [get_ac_navs] gives the same table for every requested benchmark name:
    what it appends to the asset-class NAVs is [get_benchmark_price] of
    [c0]; and that is the first column of the stored table (cut to the
    time period) when no other column carries its name. *)
Theorem get_ac_navs_appends_first_benchmark_column
    (self : MultiPortfolioData.t) (b : DataFrame Z) (c0 : string)
    (cs : list string) (portfolio_idx : Z) (benchmark : string)
    (time_period : option TimePeriod) :
  benchmark_prices self = Some b →
  columns b = c0 :: cs →
  (∀ other : string,
     MultiPortfolioData.get_ac_navs self portfolio_idx (Some other) time_period
     = MultiPortfolioData.get_ac_navs self portfolio_idx (Some benchmark)
         time_period)
  ∧ MultiPortfolioData.get_ac_navs self portfolio_idx (Some benchmark)
      time_period
    = (portfolio ← getitem (portfolio_datas self) portfolio_idx;
       benchmark_price ← get_benchmark_price self c0 time_period;
       concat_axis1 [PortfolioData.get_ac_navs portfolio time_period;
                     benchmark_price])
  ∧ (c0 ∉ cs →
     get_benchmark_price self c0 time_period
     = Ok (window time_period (iloc_column b 0))).
Proof.
  intros Hb Hc. split; [done|]. split.
  - unfold MultiPortfolioData.get_ac_navs. rewrite Hb.
    destruct (getitem (portfolio_datas self) portfolio_idx) as [e|p]; [done|].
    cbn. rewrite Hc. done.
  - intros Hn. unfold get_benchmark_price. rewrite Hb. cbn.
    by rewrite (select_first_column b c0 cs Hc Hn).
Qed.

Lemma get_ac_navs_appends_first_benchmark_column_witness :
  MultiPortfolioData.get_ac_navs Samples.multi 0 (Some "TLT"%string) None
  = Ok (mkFrame [0; 1; 2; 3; 4] ["A"; "SPY"]%string
          [[nan; Samples.q 10];
           [Samples.q 100; nan];
           [Samples.q 101; nan];
           [nan; Samples.q 11];
           [Samples.q 103; nan]]).
Proof.
  pose proof (get_ac_navs_appends_first_benchmark_column Samples.multi
                Samples.benchmark "SPY" ["TLT"%string] 0 "TLT" None
                eq_refl eq_refl) as (_ & -> & Hp).
  rewrite Hp by (apply (bool_decide_unpack _); by vm_compute).
  by vm_compute.
Defined.

End AcNavsSpec.

(** ** The pairwise instrument P&L difference *)
Module PnlDiffSpec.
Import PortfolioData MultiPortfolioData PdFacts.

Lemma veq_vsub_swap (u v : Val) : veq (vsub u v) (vneg (vsub v u)).
Proof. destruct u, v; simpl; try done. ring. Qed.

Lemma instrument_pnl_diff_build (a b : DataFrame Z) :
  instrument_pnl_diff a b
  = build (index_union (index a) (index b))
          (index_union (columns a) (columns b))
          (λ r c, vsub
             (loc (fillna0 (reindex a (index_union (index a) (index b))
                              (index_union (columns a) (columns b)))) r c)
             (loc (fillna0 (reindex b (index_union (index a) (index b))
                              (index_union (columns a) (columns b)))) r c)).
Proof.
  unfold instrument_pnl_diff, align_outer, subtract. simpl.
  by rewrite !index_union_same.
Qed.



End PnlDiffSpec.

(** ** The rows of the attribution chart *)
Module AttributionSpec.
Import PortfolioData MultiPortfolioData PdFacts.

Lemma complete_zero_to_nan (row : list Val) :
  complete (zero_to_nan <$> row) = true ↔ Forall nonzero row.
Proof.
  induction row as [|v row IH]; simpl; [by split|].
  rewrite Forall_cons, <- IH, andb_true_iff.
  assert (Hv : match zero_to_nan v with Some _ => true | None => false end
               = true ↔ nonzero v); [|by rewrite Hv].
  unfold zero_to_nan, veq0, nonzero. destruct v as [x|].
  - destruct (Qeq_bool x 0) eqn:E.
    + apply Qeq_bool_iff in E. split; [done|]. by intros (? & [= <-] & ?).
    + apply Qeq_bool_neq in E. split; [|done]. by exists x.
  - split; [done|]. by intros (? & ? & _).
Qed.

Lemma zero_to_nan_nonzero (row : list Val) :
  Forall nonzero row → zero_to_nan <$> row = row.
Proof.
  induction 1 as [|v row (x & -> & Hx) _ IH]; [done|].
  rewrite fmap_cons, IH. f_equal. unfold zero_to_nan, veq0.
  destruct (Qeq_bool x 0) eqn:E; [|done].
  by apply Qeq_bool_iff in E.
Qed.

(** C8, as amended.  The table handed to [plot_bars] has the columns of
    the assembled attribution table and exactly its rows in which every
    portfolio's value is present and not zero: a row goes as soon as one of
    its values is zero or missing. *)
Theorem attribution_rows_reaching_plot_bars (self : MultiPortfolioData.t)
    (portfolio_ids : list Z) (time_period : option TimePeriod)
    (attribution_metric : AttributionMetric) (py : Bars.Printer)
    (cfg : Bars.Config) (ax : option Bars.Axes) (out : DataFrame string)
    (res : Bars.Result) :
  plot_performance_attribution py self portfolio_ids time_period
    attribution_metric cfg ax = Ok (out, res) →
  ∃ data,
    attribution_table self portfolio_ids time_period attribution_metric
      = Ok data
    ∧ res = Bars.plot_bars py {[ 0%nat := bars_table out ]} 0%nat
              (grouped cfg) ax
    ∧ columns out = columns data
    ∧ ∀ r row, (r, row) ∈ rows out ↔
               (r, row) ∈ rows data ∧ Forall nonzero row.
Proof.
  unfold plot_performance_attribution, attribution_data.
  destruct (attribution_table self portfolio_ids time_period
              attribution_metric) as [e|data]; [done|].
  cbn. destruct (getitem (columns data) 0) as [e|c0]; [done|].
  cbn. unfold sort_values_desc.
  destruct (positions c0 (columns data)) as [|j [|]]; [done| |done].
  cbn. destruct (call_kw _ _) as [e|[]]; [done|].
  cbn. intros [= <- <-]. exists data.
  split; [done|]. split; [done|]. split; [done|].
  intros r row.
  rewrite rows_dropna. unfold replace_zero_nan.
  rewrite rows_map_cells, rows_of_rows.
  rewrite list_elem_of_filter, list_elem_of_fmap. simpl.
  fold zero_to_nan. split.
  - intros (Hc & [r0 row0] & [= -> ->] & Hin). simpl in *.
    apply complete_zero_to_nan in Hc.
    rewrite (zero_to_nan_nonzero _ Hc).
    by rewrite merge_sort_Permutation in Hin.
  - intros (Hin & Hnz). split.
    + by rewrite <- (zero_to_nan_nonzero _ Hnz), complete_zero_to_nan.
    + exists (r, row). simpl. rewrite (zero_to_nan_nonzero _ Hnz).
      split; [done|]. by rewrite merge_sort_Permutation.
Qed.

Lemma attribution_rows_reaching_plot_bars_witness :
  ∃ data,
    attribution_table Samples.multi [0; 1] None Samples.pnl = Ok data
    ∧ ∀ r row,
        (r, row) ∈ rows (mkFrame ["z"%string] ["A"; "B"]%string
                           [[Samples.q 2; Samples.q 5]]) ↔
        (r, row) ∈ rows data ∧ Forall nonzero row.
Proof.
  destruct (attribution_rows_reaching_plot_bars Samples.multi [0; 1] None
              Samples.pnl Samples.printer Samples.config None
              (mkFrame ["z"%string] ["A"; "B"]%string
                 [[Samples.q 2; Samples.q 5]])
              (Bars.plot_bars Samples.printer
                 {[ 0%nat := bars_table
                      (mkFrame ["z"%string] ["A"; "B"]%string
                         [[Samples.q 2; Samples.q 5]]) ]}
                 0%nat (grouped Samples.config) None))
    as (data & Hd & _ & _ & Hrows).
  - unfold plot_performance_attribution.
    replace (attribution_data Samples.multi [0; 1] None Samples.pnl)
      with (Ok (mkFrame ["z"%string] ["A"; "B"]%string
                  [[Samples.q 2; Samples.q 5]])) by (by vm_compute).
    reflexivity.
  - exists data. split; [exact Hd | exact Hrows].
Defined.

(** C8 as stated fails: in the sample, the row of instrument [y] holds
    [3] for portfolio A (and [0] for portfolio B), and it does not reach
    [plot_bars]. *)
Lemma attribution_row_with_nonzero_value_dropped :
  attribution_table Samples.multi [0; 1] None Samples.pnl
  = Ok (mkFrame ["x"; "y"; "z"]%string ["A"; "B"]%string
          [[Samples.q 0; Samples.q 0];
           [Samples.q 3; Samples.q 0];
           [Samples.q 2; Samples.q 5]])
  ∧ (λ r : DataFrame string * Bars.Result, r.1)
      <$> plot_performance_attribution Samples.printer Samples.multi [0; 1]
            None Samples.pnl Samples.config None
    = Ok (mkFrame ["z"%string] ["A"; "B"]%string [[Samples.q 2; Samples.q 5]]).
Proof. split; by vm_compute. Qed.

End AttributionSpec.

(** ** The unified NAV table and the benchmark table *)
Module NavsSpec.
Import PortfolioData MultiPortfolioData PdFacts.

Lemma reindex_ffill_increasing (df : DataFrame Z) (I : list Z) :
  increasing (index df) = true →
  reindex_ffill df I
  = Ok {| index := I; columns := columns df;
          values := (λ t, match pad_loc (index df) t with
                          | Some i => default (nan_row df) (values df !! i)
                          | None => nan_row df
                          end) <$> I |}.
Proof. intros Hinc. unfold reindex_ffill. by rewrite Hinc. Qed.

(** What a series holds at one of its own labels. *)
Lemma series_at_lookup (s : Series Z) (j : nat) (t : Z) (v : Val) :
  series_ok s → s_index s !! j = Some t → s_values s !! j = Some v →
  series_at s t = v.
Proof.
  intros [Hinc _] Ht Hv. unfold series_at.
  rewrite (get_loc_NoDup t _ j (increasing_NoDup _ Hinc) Ht). simpl.
  by rewrite Hv.
Qed.



(** C7.  Attaching a benchmark table with increasing timestamps to an
    aggregator of portfolios with increasing NAV timestamps runs [set_navs]
    on the new table: the NAV table is built again from the portfolios, and
    the stored benchmark table gets exactly the index of that NAV table,
    the row at a date being the benchmark's last row at or before that date
    (NaN when the benchmark starts later). *)
Theorem set_benchmark_prices_aligns_benchmark (self : MultiPortfolioData.t)
    (b : DataFrame Z) :
  portfolio_datas self ≠ [] →
  Forall series_ok (nav_series self) →
  increasing (index b) = true →
  ∃ navs' b',
    _set_benchmark_prices b self
    = mkRun (mk (portfolio_datas self) (Some b') (Some navs')) (Ok ())
    ∧ _set_benchmark_prices b self
      = set_navs None (mk (portfolio_datas self) (Some b) (navs self))
    ∧ concat_axis1 (to_frame <$> nav_series self) = Ok navs'
    ∧ index b' = index navs'
    ∧ columns b' = columns b
    ∧ ∀ i t, index navs' !! i = Some t →
        ∃ k, last_at_or_before (index b) t k
             ∧ values b' !! i
               = Some match k with
                      | Some j => default (nan_row b) (values b !! j)
                      | None => nan_row b
                      end.
Proof.
  intros Hne Hok Hb.
  destruct (concat_series (nav_series self)) as
    (navs0 & Hcat & _); [|done|].
  { unfold nav_series. by destruct (portfolio_datas self). }
  eexists navs0, _. unfold _set_benchmark_prices, set_navs.
  change (nav_series (mk (portfolio_datas self) (Some b) (navs self)))
    with (nav_series self).
  rewrite Hcat. simpl.
  rewrite reindex_ffill_increasing by done.
  split_and!; try done.
  intros i t Hi. exists (pad_loc (index b) t). split.
  - by apply pad_loc_spec.
  - simpl. by rewrite list_lookup_fmap, Hi.
Qed.

Lemma set_benchmark_prices_aligns_benchmark_witness :
  _set_benchmark_prices Samples.benchmark
    (MultiPortfolioData.mk [Samples.portfolio_a; Samples.portfolio_b] None None)
  = mkRun (MultiPortfolioData.mk [Samples.portfolio_a; Samples.portfolio_b]
             (Some (mkFrame [1; 2; 3; 4] ["SPY"; "TLT"]%string
                      [[Samples.q 10; Samples.q 20];
                       [Samples.q 10; Samples.q 20];
                       [Samples.q 11; Samples.q 21];
                       [Samples.q 11; Samples.q 21]]))
             (Some (mkFrame [1; 2; 3; 4] ["A"; "B"]%string
                      [[Samples.q 100; nan];
                       [Samples.q 101; Samples.q 50];
                       [nan; Samples.q 51];
                       [Samples.q 103; nan]])))
          (Ok ()).
Proof.
  destruct (set_benchmark_prices_aligns_benchmark
              (MultiPortfolioData.mk [Samples.portfolio_a; Samples.portfolio_b]
                 None None)
              Samples.benchmark) as (navs' & b' & Hrun & _).
  - done.
  - repeat constructor.
  - reflexivity.
  - rewrite Hrun. by vm_compute.
Defined.

End NavsSpec.

(** ** [plot_bars]: what it does to the caller's table *)
Module PlotBarsFrameSpec.
Import Bars.

Lemma strftime_index_timestamps (py : Printer) (fmt : string) (ts : list Z) :
  strftime_index py fmt (LTimestamp <$> ts)
  = Ok ((λ d, LStr (strftime py fmt d)) <$> ts).
Proof.
  unfold strftime_index. induction ts as [|d ts IH]; [done|].
  rewrite !fmap_cons. simpl. by rewrite IH.
Qed.

Lemma strftime_index_str (py : Printer) (fmt : string) (idx : list Label)
    (s : string) :
  LStr s ∈ idx → strftime_index py fmt idx = Raise AttributeError.
Proof.
  unfold strftime_index. induction idx as [|l idx IH]; [by intros ?%elem_of_nil|].
  intros [<-|Hin]%elem_of_cons; [done|].
  simpl. destruct l; [|done]. by rewrite (IH Hin).
Qed.

Lemma set_index_same (t : Table) : set_index t (table_index t) = t.
Proof. by destruct t as [[]|[]]. Qed.

Lemma palette_of_ok (cfg : Config) (t : Table) :
  (colors cfg = None → "n" ∉ kwargs cfg) → ∃ p, palette_of cfg t = Ok p.
Proof.
  intros Hn. unfold palette_of. destruct (colors cfg) as [cs|]; [by eexists|].
  assert (H : call_kw ["n"] (kwargs cfg) = Ok ()).
  { apply PyFacts.call_kw_ok, Forall_forall.
    intros k Hk ->%list_elem_of_singleton. by apply Hn. }
  rewrite H. by eexists.
Qed.

Lemma palette_of_raise (cfg : Config) (t : Table) :
  colors cfg = None → "n" ∈ kwargs cfg → palette_of cfg t = Raise TypeError.
Proof.
  intros Hc Hn. unfold palette_of. rewrite Hc.
  rewrite (PyFacts.call_kw_raise ["n"] (kwargs cfg) "n"); [done|done|by left].
Qed.

Lemma palette_of_cases (cfg : Config) (t : Table) :
  (∃ p, palette_of cfg t = Ok p ∧ (colors cfg = None → "n" ∉ kwargs cfg))
  ∨ (palette_of cfg t = Raise TypeError
     ∧ colors cfg = None ∧ "n" ∈ kwargs cfg).
Proof.
  destruct (colors cfg) as [cs|] eqn:Ec.
  - left. unfold palette_of. rewrite Ec. by eexists.
  - destruct (decide ("n" ∈ kwargs cfg)) as [Hn|Hn].
    + right. split; [|done]. by apply palette_of_raise.
    + left. destruct (palette_of_ok cfg t) as [p Hp]; [done|]. by exists p.
Qed.

(** The table of the caller after [plot_bars]. *)
Lemma plot_bars_heap (py : Printer) (h : Heap) (df : ref) (cfg : Config)
    (ax : option Axes) (t : Table) :
  h !! df = Some t →
  heap (plot_bars py h df cfg ax)
  = <[df := match palette_of cfg t, reformat_index py cfg t with
            | Ok _, Ok t' => t'
            | _, _ => t
            end]> h.
Proof.
  intros Ht. unfold plot_bars. rewrite Ht.
  destruct (palette_of cfg t) as [e|p]; [by rewrite insert_id|].
  destruct (reformat_index py cfg t) as [e|t']; simpl.
  - by rewrite insert_id.
  - destruct (melted_index _ _ _); [done|]. by destruct (foldl _ _ _).
Qed.

(** C1, as amended.  [plot_bars] changes neither the values nor the
    column names of the table it is given.  When every index label is a
    timestamp, and the call has not failed before lines 66-67 (it does
    when it has to fetch colours and [n] is among the further keyword
    arguments), the caller's table itself gets the index of formatted
    strings: the assignment [df.index = ...] is made on the object passed
    in, not on a copy, and it stays whatever the call does afterwards.  In
    every other case (first label not a timestamp, empty index, or a label
    without [strftime], where the call raises before the assignment) the
    table is left as it was. *)
Theorem plot_bars_changes_only_the_index (py : Printer) (h : Heap) (df : ref)
    (cfg : Config) (ax : option Axes) (t : Table) :
  h !! df = Some t →
  ∃ t',
    heap (plot_bars py h df cfg ax) = <[df := t']> h
    ∧ table_values t' = table_values t
    ∧ table_columns t' = table_columns t
    ∧ ((∀ d rest, table_index t ≠ LTimestamp d :: rest) → t' = t)
    ∧ (∀ ts, ts ≠ [] → table_index t = LTimestamp <$> ts →
         (colors cfg = None → "n" ∉ kwargs cfg) →
         t' = set_index t ((λ d, LStr (strftime py (date_format cfg) d)) <$> ts))
    ∧ ((∃ s, LStr s ∈ table_index t) → t' = t)
    ∧ (colors cfg = None → "n" ∈ kwargs cfg → t' = t).
Proof.
  intros Ht. eexists. split; [by apply plot_bars_heap|].
  destruct (palette_of_cases cfg t) as [(p & -> & Hp)|(-> & Hc & Hn)].
  2:{ split_and!; try done. intros ts _ _ Hno. by destruct (Hno Hc). }
  unfold reformat_index.
  destruct (table_index t) as [|[d|s] rest] eqn:E.
  - split_and!; try done. intros [|d ts]; [done|]. by rewrite fmap_cons.
  - rewrite <- E.
    destruct (strftime_index py (date_format cfg) (table_index t))
      as [e|idx] eqn:Es; simpl.
    + split_and!; try done.
      intros ts _ Hts. by rewrite Hts, strftime_index_timestamps in Es.
    + split_and!.
      * by destruct t as [[]|[]].
      * by destruct t as [[]|[]].
      * intros Hno. by destruct (Hno d rest).
      * intros ts _ Hts _. rewrite Hts, strftime_index_timestamps in Es.
        by injection Es as <-.
      * intros (s & Hs). by rewrite (strftime_index_str _ _ _ s Hs) in Es.
      * intros Hc Hn. by destruct (Hp Hc).
  - split_and!; try done. intros [|d ts]; [done|]. by rewrite fmap_cons.
Qed.

Lemma plot_bars_changes_only_the_index_witness :
  ∃ t',
    heap (plot_bars Samples.printer {[ 7%nat := Samples.weights ]} 7%nat
            Samples.config None)
    = <[7%nat := t']> {[ 7%nat := Samples.weights ]}
    ∧ table_values t' = table_values Samples.weights
    ∧ table_columns t' = table_columns Samples.weights
    ∧ t' = Samples.weights.
Proof.
  destruct (plot_bars_changes_only_the_index Samples.printer
              {[ 7%nat := Samples.weights ]} 7%nat Samples.config None
              Samples.weights) as (t' & Hh & Hv & Hc & Hsame & _).
  - by rewrite lookup_singleton_eq.
  - exists t'. split_and!; try done. by apply Hsame.
Defined.

(** C1 as stated fails: the caller's table, indexed by two timestamps, is
    indexed by two strings after the call. *)
Lemma plot_bars_reformats_the_callers_index :
  heap (plot_bars Samples.printer {[ 7%nat := Samples.monthly ]} 7%nat
          Samples.config None) !! 7%nat
  = Some (PFrame (mkFrame [LStr "%d-%b-%y0"; LStr "%d-%b-%y31"] ["a"%string]
                    [[Samples.q 1]; [Samples.q 2]]))
  ∧ ({[ 7%nat := Samples.monthly ]} : Heap) !! 7%nat
    = Some (PFrame (mkFrame [LTimestamp 0; LTimestamp 31] ["a"%string]
                      [[Samples.q 1]; [Samples.q 2]])).
Proof. split; by vm_compute. Qed.

End PlotBarsFrameSpec.

(** ** [plot_bars]: the markers of the totals *)
Module PlotBarsTotalsSpec.
Import Bars PlotBarsFrameSpec.

Section layout.
Variables (py : Printer) (cfg : Config).

Lemma patch_step_layout (ops : list Op) (lay : BarLayout) (p : Patch) :
  ∃ ops', patch_step py cfg (ops, lay) p = (ops', layout_step lay p)
          ∧ (Forall (λ op, is_total_marker op = false) ops →
             Forall (λ op, is_total_marker op = false) ops').
Proof.
  unfold patch_step. eexists. split; [done|].
  intros Hops. repeat case_match; try done; apply Forall_app; split; try done;
    by repeat constructor.
Qed.

Lemma foldl_patch_step_layout (ps : list Patch) (ops : list Op)
    (lay : BarLayout) :
  (foldl (patch_step py cfg) (ops, lay) ps).2 = foldl layout_step lay ps.
Proof.
  revert ops lay. induction ps as [|p ps IH]; intros ops lay; [done|].
  destruct (patch_step_layout ops lay p) as (ops' & Hp & _).
  cbn [foldl]. rewrite Hp. apply IH.
Qed.

Lemma foldl_patch_step_ops (ps : list Patch) (ops : list Op)
    (lay : BarLayout) :
  Forall (λ op, is_total_marker op = false) ops →
  Forall (λ op, is_total_marker op = false)
    (foldl (patch_step py cfg) (ops, lay) ps).1.
Proof.
  revert ops lay. induction ps as [|p ps IH]; intros ops lay Hops; [done|].
  destruct (patch_step_layout ops lay p) as (ops' & Hp & Hops').
  cbn [foldl]. rewrite Hp. by apply IH, Hops'.
Qed.

End layout.

Lemma foldl_layout_step_prefix (ps : list Patch) (lay : BarLayout) :
  ∃ e1 e2 e3,
    foldl layout_step lay ps
    = mkLayout (x_locs lay ++ e1) (x_mins lay ++ e2) (x_maxs lay ++ e3).
Proof.
  revert lay. induction ps as [|p ps IH]; intros lay.
  - exists [], [], []. rewrite !app_nil_r. by destruct lay.
  - simpl. destruct (IH (layout_step lay p)) as (e1 & e2 & e3 & ->).
    unfold layout_step. destruct (Q_in (p_x p) (x_locs lay)); simpl.
    + by eexists _, _, _.
    + rewrite <- !app_assoc. by eexists _, _, _.
Qed.

Lemma bar_x_distinct (m k k' : nat) :
  k ≠ k' → Qeq_bool (bar_x m k 0) (bar_x m k' 0) = false.
Proof.
  intros Hne. destruct (Qeq_bool _ _) eqn:E; [|done].
  apply Qeq_bool_iff in E. unfold bar_x, Qminus in E.
  apply Qplus_inj_r in E. apply Qplus_inj_r in E.
  apply (proj1 (inject_Z_injective _ _)) in E. lia.
Qed.

Lemma bar_x_fresh (m off : nat) :
  Q_in (bar_x m off 0) ((λ k, bar_x m k 0) <$> seq 0 off) = false.
Proof.
  unfold Q_in. apply not_true_is_false. intros Hin.
  apply existsb_exists in Hin as (x & Hx & Heq).
  apply list_elem_of_In, list_elem_of_fmap in Hx as (k & -> & Hk).
  apply elem_of_seq in Hk.
  rewrite bar_x_distinct in Heq by lia. done.
Qed.

(** The layout after the bars of the first series. *)
Lemma layout_first_series (t : Table) (m : nat) (name : string)
    (cats : list Label) (off : nat) :
  foldl layout_step
    (mkLayout ((λ k, bar_x m k 0) <$> seq 0 off)
              ((λ k, bar_x m k 0) <$> seq 0 off)
              ((λ k, bar_x m k 0 + bar_width m)%Q <$> seq 0 off))
    (imap (λ k cat, bar t m 0 name (off + k) cat) cats)
  = mkLayout ((λ k, bar_x m k 0) <$> seq 0 (off + length cats))
             ((λ k, bar_x m k 0) <$> seq 0 (off + length cats))
             ((λ k, bar_x m k 0 + bar_width m)%Q <$> seq 0 (off + length cats)).
Proof.
  revert off. induction cats as [|cat cats IH]; intros off.
  - simpl. by rewrite Nat.add_0_r.
  - rewrite imap_cons. simpl foldl. unfold layout_step at 2. simpl.
    rewrite Nat.add_0_r, bar_x_fresh.
    replace (off + S (length cats))%nat with (S off + length cats)%nat by lia.
    rewrite <- (IH (S off)). f_equal.
    + by rewrite seq_S, !fmap_app.
    + apply imap_ext. intros k c _. simpl. f_equal. lia.
Qed.

Lemma zip_with_short {A B C} (g : A → B → C) (l : list A) (k e : list B) :
  length l = length k → zip_with g l (k ++ e) = zip_with g l k.
Proof.
  intros Hlen. rewrite <- (zip_with_take_r g l (k ++ e)).
  by rewrite Hlen, take_app_length.
Qed.

(** The markers of the totals over the bar locations of the first
    series. *)
Lemma markers_zip {A} (G : Val → Q → Q → list A) (f fw : nat → Q)
    (ts : list Val) (off : nat) :
  zip_with (λ (tx : Val * Q) (mm : Q * Q), G tx.1 mm.1 mm.2)
    (zip ts (f <$> seq off (length ts)))
    (zip (f <$> seq off (length ts)) (fw <$> seq off (length ts)))
  = imap (λ k total, G total (f (off + k)%nat) (fw (off + k)%nat)) ts.
Proof.
  revert off. induction ts as [|total ts IH]; intros off; [done|].
  simpl. rewrite Nat.add_0_r. f_equal.
  rewrite IH. apply imap_ext. intros k x _. simpl.
  replace (off + S k)%nat with (S (off + k)) by lia. done.
Qed.

Lemma filter_none {A} (P : A → Prop) `{∀ x, Decision (P x)} (l : list A) :
  Forall (λ x, ¬ P x) l → filter P l = [].
Proof.
  induction 1 as [|x l Hx _ IH]; [done|]. by rewrite filter_cons_False.
Qed.

Lemma filter_all {A} (P : A → Prop) `{∀ x, Decision (P x)} (l : list A) :
  Forall P l → filter P l = l.
Proof.
  induction 1 as [|x l Hx _ IH]; [done|].
  rewrite filter_cons_True by done. by rewrite IH.
Qed.

Lemma total_marker_is_marker (py : Printer) (cfg : Config) (total : Val)
    (x_min x_max : Q) :
  Forall (λ op, is_total_marker op = true) (total_marker py cfg total x_min x_max).
Proof. unfold total_marker. destruct (is_top_totals cfg); by repeat constructor. Qed.

Lemma sns_barplot_first_series (t : Table) (name : string) (rest : list string) :
  unique (table_columns t) = name :: rest →
  ∃ more,
    sns_barplot t
    = imap (bar t (S (length rest)) 0 name) (unique (table_index t)) ++ more.
Proof.
  intros Hu. unfold sns_barplot. rewrite Hu, imap_cons. simpl. by eexists.
Qed.

(** The statements after the loop over the bars: the markers of the
    totals come first and are drawn whatever raises later; the other
    calls mark no total and write no value. *)
Lemma after_bars_split (py : Printer) (cfg : Config) (t' : Table)
    (lay : BarLayout) :
  ∃ rest,
    (run_steps (after_bars py cfg t' lay)).1 = total_markers py cfg lay ++ rest
    ∧ Forall (λ op, is_dressing op = true) rest.
Proof.
  unfold after_bars. rewrite 2!PyFacts.run_steps_cons. cbn [fst].
  eexists. split; [reflexivity|].
  apply Forall_app. split.
  { destruct (vline_columns cfg); [|constructor].
    apply Forall_fmap, Forall_forall. by intros. }
  apply Forall_forall. intros op Hin.
  apply PyFacts.run_steps_elem in Hin as (ops & Hs & Hop).
  repeat (apply elem_of_cons in Hs as [Hs|Hs]);
    try (by apply elem_of_nil in Hs);
    repeat match type of Hs with
           | context [call_kw ?a ?b] =>
               destruct (PyFacts.call_kw_cases a b) as [E|E]; rewrite E in Hs
           end;
    try discriminate Hs; injection Hs as ->;
    try (destruct (is_add_avg_line cfg));
    repeat (apply elem_of_cons in Hop as [->|Hop]); try done;
    by apply elem_of_nil in Hop.
Qed.

Lemma after_bars_returns (py : Printer) (cfg : Config) (t' : Table)
    (lay : BarLayout) :
  (run_steps (after_bars py cfg t' lay)).2 = Ok ()
  ∨ (run_steps (after_bars py cfg t' lay)).2 = Raise TypeError.
Proof.
  unfold after_bars.
  repeat first
    [ rewrite PyFacts.run_steps_cons; cbn [snd]
    | match goal with
      | |- context [call_kw ?a ?b] =>
          destruct (PyFacts.call_kw_cases a b) as [-> | ->];
          cbn [fmap Err_fmap]; [|rewrite PyFacts.run_steps_raise; by right]
      end ].
  by left.
Qed.

(** What a call of [plot_bars] that gets to the bars has drawn. *)
Lemma plot_bars_run (py : Printer) (h : Heap) (df : ref) (cfg : Config)
    (ax : option Axes) (t t' : Table) (p : Palette) :
  h !! df = Some t →
  palette_of cfg t = Ok p →
  reformat_index py cfg t = Ok t' →
  melted_index (var_name cfg) (value_name cfg) t' = false →
  let r := plot_bars py h df cfg ax in
  let fold := foldl (patch_step py cfg) ([], mkLayout [] [] [])
                (default [] ax ++ sns_barplot t') in
  ∃ rest,
    drawn r = barplot p :: fold.1 ++ total_markers py cfg fold.2 ++ rest
    ∧ Forall (λ op, is_dressing op = true) rest
    ∧ returned r
      = ((run_steps (after_bars py cfg t' fold.2)).2 ≫= λ _,
         Ok (match ax with None => Some NewFigure | Some _ => None end)).
Proof.
  intros Ht Hp Hre Hme. cbv zeta. unfold plot_bars. rewrite Ht, Hp, Hre, Hme.
  destruct (foldl (patch_step py cfg) ([], mkLayout [] [] [])
              (default [] ax ++ sns_barplot t')) as [ops lay].
  cbn [drawn returned fst snd].
  destruct (after_bars_split py cfg t' lay) as (rest & -> & Hrest).
  by exists rest.
Qed.

(** The markers of the totals, for no more totals than categories: one
    marker per total, over the bars of the first categories, in order. *)
Lemma plot_bars_markers (py : Printer) (h : Heap) (df : ref)
    (cfg : Config) (ax : option Axes) (t t' : Table) (ts : list Val) :
  h !! df = Some t →
  (colors cfg = None → "n" ∉ kwargs cfg) →
  reformat_index py cfg t = Ok t' →
  melted_index (var_name cfg) (value_name cfg) t' = false →
  totals cfg = Some ts →
  default [] ax = [] →
  table_columns t' ≠ [] →
  (length ts ≤ length (unique (table_index t')))%nat →
  let m := length (unique (table_columns t')) in
  filter (λ op, is_total_marker op = true) (drawn (plot_bars py h df cfg ax))
  = mjoin (imap (λ k total,
                   total_marker py cfg total (bar_x m k 0)
                     (bar_x m k 0 + bar_width m)%Q) ts).
Proof.
  intros Ht Hn Hre Hme Hts Hax Hcols Hlen m.
  destruct (palette_of_ok cfg t Hn) as [p Hp].
  destruct (plot_bars_run py h df cfg ax t t' p Ht Hp Hre Hme)
    as (rest & -> & Hrest & _).
  rewrite Hax. cbn [app].
  destruct (unique (table_columns t')) as [|name more0] eqn:Hu.
  { destruct (table_columns t'); [done|discriminate]. }
  destruct (sns_barplot_first_series t' name more0 Hu) as [more Hsns].
  assert (Hm : m = S (length more0)) by done.
  rewrite foldl_patch_step_layout.
  assert (Hops : Forall (λ op, is_total_marker op = false)
                   (foldl (patch_step py cfg) ([], mkLayout [] [] [])
                      (sns_barplot t')).1)
    by (by apply foldl_patch_step_ops).
  rewrite Hsns at 2. rewrite foldl_app.
  set (n := length (unique (table_index t'))) in *.
  set (f := λ k : nat, bar_x (S (length more0)) k 0).
  set (fw := λ k : nat, (bar_x (S (length more0)) k 0
                         + bar_width (S (length more0)))%Q).
  assert (Hfirst :
    foldl layout_step (mkLayout [] [] [])
      (imap (bar t' (S (length more0)) 0 name) (unique (table_index t')))
    = mkLayout (f <$> seq 0 n) (f <$> seq 0 n) (fw <$> seq 0 n))
    by exact (layout_first_series t' (S (length more0)) name
                (unique (table_index t')) 0).
  rewrite Hfirst. clear Hfirst.
  destruct (foldl_layout_step_prefix more
              (mkLayout (f <$> seq 0 n) (f <$> seq 0 n) (fw <$> seq 0 n)))
    as (e1 & e2 & e3 & ->).
  cbn [x_locs x_mins x_maxs].
  replace n with (length ts + (n - length ts))%nat by lia.
  rewrite !seq_app, !fmap_app, <- !app_assoc.
  rewrite filter_cons_False by (simpl; congruence).
  rewrite !filter_app, (filter_none _ (foldl _ _ _).1)
    by (eapply Forall_impl; [exact Hops|]; simpl; congruence).
  rewrite (filter_none _ rest).
  2:{ eapply Forall_impl; [exact Hrest|]. intros op Hop. by destruct op. }
  rewrite app_nil_r. cbn [app].
  unfold total_markers. rewrite Hts, filter_app.
  rewrite (filter_none _ (if is_top_totals cfg then _ else []))
    by (destruct (is_top_totals cfg); repeat constructor; simpl; congruence).
  cbn [app x_locs x_mins x_maxs].
  rewrite zip_with_short by (by rewrite length_fmap, length_seq).
  rewrite zip_with_app by (by rewrite !length_fmap).
  rewrite zip_with_short
    by (by rewrite !length_zip_with, !length_fmap, !length_seq, Nat.min_id).
  rewrite (markers_zip (total_marker py cfg)). cbn [Nat.add].
  rewrite Hm. apply filter_all.
  apply Forall_forall. intros op Hop.
  apply list_elem_of_join in Hop as (l & Hop & Hl).
  apply list_elem_of_lookup in Hl as (k & Hk).
  apply list_lookup_imap_Some in Hk as (total & _ & ->).
  pose proof (total_marker_is_marker py cfg total (f k) (fw k)) as Hall.
  rewrite Forall_forall in Hall. by apply Hall.
Qed.

(** C2.  Take a table with at least one series, drawn on a surface
    without earlier bars, and one total per category (the categories are
    the distinct labels of the index as it is drawn), in a call that gets
    to the bars (the colours are given or fetched without a clash of
    keywords, the index is formatted, and the bar plot takes the index as
    the vector of categories).  Then the markers of the totals it draws are, in order,
    one per category.  Category [k] has its bar of the first series from
    [x_min = bar_x m k 0] to [x_max = x_min + bar_width m]; its marker is
    the tick [hlines] from [x_min] to [x_max] at [y = ] the [k]-th total,
    annotated at [(x_max, total)] with the formatted total, or, with
    [is_top_totals], the formatted total written at
    [x_min + 0.2 * (x_max - x_min)], at [0.975] of the height of the axes.
    The flag [stacked] plays no part, and the markers are drawn also when
    a later statement of the call raises. *)
Theorem plot_bars_total_markers (py : Printer) (h : Heap) (df : ref)
    (cfg : Config) (ax : option Axes) (t t' : Table) (ts : list Val) :
  h !! df = Some t →
  (colors cfg = None → "n" ∉ kwargs cfg) →
  reformat_index py cfg t = Ok t' →
  melted_index (var_name cfg) (value_name cfg) t' = false →
  totals cfg = Some ts →
  default [] ax = [] →
  table_columns t' ≠ [] →
  length ts = length (unique (table_index t')) →
  let r := plot_bars py h df cfg ax in
  let m := length (unique (table_columns t')) in
  filter (λ op, is_total_marker op = true) (drawn r)
  = mjoin (imap (λ k total,
                   let x_min := bar_x m k 0 in
                   let x_max := (bar_x m k 0 + bar_width m)%Q in
                   let label := format py (var_format cfg) total in
                   if is_top_totals cfg
                   then [text_top (x_min + (2 # 10) * (x_max - x_min))%Q
                           (975 # 1000) label]
                   else [hlines x_min x_max total;
                         annotate_total label x_max total]) ts)
  ∧ ∃ name, unique (table_columns t') !! 0%nat = Some name
      ∧ ∀ k cat, unique (table_index t') !! k = Some cat →
          ∃ p, sns_barplot t' !! k = Some p
               ∧ p_x p = bar_x m k 0
               ∧ p_width p = bar_width m
               ∧ p_height p = np_nanmean (cells_of t' cat name).
Proof.
  intros Ht Hn Hre Hme Hts Hax Hcols Hlen r m. subst r. split.
  - exact (plot_bars_markers py h df cfg ax t t' ts Ht Hn Hre Hme Hts Hax
             Hcols ltac:(lia)).
  - destruct (unique (table_columns t')) as [|name rest] eqn:Hu.
    { destruct (table_columns t'); [done|discriminate]. }
    destruct (sns_barplot_first_series t' name rest Hu) as [more Hsns].
    exists name. split; [done|]. intros k cat Hk.
    exists (bar t' m 0 name k cat). split; [|done].
    rewrite Hsns, lookup_app_l.
    + subst m. by rewrite list_lookup_imap, Hk.
    + rewrite length_imap. by eapply lookup_lt_Some.
Qed.

Lemma plot_bars_total_markers_witness :
  filter (λ op, is_total_marker op = true)
    (drawn (plot_bars Samples.printer {[ 7%nat := Samples.weights ]} 7%nat
              (Samples.config_totals [Samples.q 10; Samples.q 4; Samples.q 10])
              None))
  = [hlines (bar_x 2 0 0) (bar_x 2 0 0 + bar_width 2) (Samples.q 10);
     annotate_total "{:.1%}10/1" (bar_x 2 0 0 + bar_width 2) (Samples.q 10);
     hlines (bar_x 2 1 0) (bar_x 2 1 0 + bar_width 2) (Samples.q 4);
     annotate_total "{:.1%}4/1" (bar_x 2 1 0 + bar_width 2) (Samples.q 4);
     hlines (bar_x 2 2 0) (bar_x 2 2 0 + bar_width 2) (Samples.q 10);
     annotate_total "{:.1%}10/1" (bar_x 2 2 0 + bar_width 2) (Samples.q 10)]%Q.
Proof.
  refine (proj1 (plot_bars_total_markers Samples.printer
                   {[ 7%nat := Samples.weights ]} 7%nat
                   (Samples.config_totals
                      [Samples.q 10; Samples.q 4; Samples.q 10])
                   None Samples.weights Samples.weights
                   [Samples.q 10; Samples.q 4; Samples.q 10] _ _ _ _ _ _ _ _)).
  - by rewrite lookup_singleton_eq.
  - intros _. apply (bool_decide_unpack _). by vm_compute.
  - reflexivity.
  - reflexivity.
  - reflexivity.
  - reflexivity.
  - done.
  - reflexivity.
Defined.

(** The markers of the sample, one tick per category at the total given
    for it. *)
Example sample_total_markers :
  filter (λ op, is_total_marker op = true)
    (drawn (plot_bars Samples.printer {[ 7%nat := Samples.weights ]} 7%nat
              (Samples.config_totals [Samples.q 10; Samples.q 4; Samples.q 10])
              None))
  = [hlines (bar_x 2 0 0) (bar_x 2 0 0 + bar_width 2) (Samples.q 10);
     annotate_total "{:.1%}10/1" (bar_x 2 0 0 + bar_width 2) (Samples.q 10);
     hlines (bar_x 2 1 0) (bar_x 2 1 0 + bar_width 2) (Samples.q 4);
     annotate_total "{:.1%}4/1" (bar_x 2 1 0 + bar_width 2) (Samples.q 4);
     hlines (bar_x 2 2 0) (bar_x 2 2 0 + bar_width 2) (Samples.q 10);
     annotate_total "{:.1%}10/1" (bar_x 2 2 0 + bar_width 2) (Samples.q 10)]%Q.
Proof. by vm_compute. Qed.

End PlotBarsTotalsSpec.

(** ** [plot_vbars]: the two stacking passes *)
Module PlotVbarsSpec.
Import Bars.

Section sums.

Lemma Qsum_app (l1 l2 : list Q) : (Qsum (l1 ++ l2) == Qsum l1 + Qsum l2)%Q.
Proof.
  induction l1 as [|x l1 IH]; cbn [app].
  - unfold Qsum at 2. cbn [foldr]. ring.
  - unfold Qsum at 1 2. cbn [foldr].
    fold (Qsum (l1 ++ l2)). fold (Qsum l1). rewrite IH. ring.
Qed.

Lemma Qsum_zero (l : list Q) : Forall (λ x, x = 0%Q) l → (Qsum l == 0)%Q.
Proof.
  induction 1 as [|x l -> _ IH]; [done|].
  unfold Qsum. cbn [foldr]. fold (Qsum l). rewrite IH. ring.
Qed.

Lemma drawn_widths_app (neg : bool) (y : nat) (a b : list HOp) :
  (drawn_widths neg y (a ++ b)
   == drawn_widths neg y a + drawn_widths neg y b)%Q.
Proof. unfold drawn_widths. rewrite fmap_app. apply Qsum_app. Qed.

Lemma drawn_widths_cons (neg : bool) (y : nat) (op : HOp) (b : list HOp) :
  (drawn_widths neg y (op :: b)
   == drawn_width neg y op + drawn_widths neg y b)%Q.
Proof. done. Qed.

Lemma drawn_widths_zero (neg : bool) (y : nat) (ops : list HOp) :
  Forall (λ op, drawn_width neg y op = 0%Q) ops →
  (drawn_widths neg y ops == 0)%Q.
Proof. intros Hall. apply Qsum_zero. by apply Forall_fmap. Qed.

Lemma foldl_Qplus {A} (g : A → Q) (a : Q) (js : list A) :
  (foldl (λ acc j, acc + g j) a js == a + Qsum (g <$> js))%Q.
Proof.
  revert a. induction js as [|j js IH]; intros a.
  - unfold Qsum. cbn [foldl fmap list_fmap foldr]. ring.
  - rewrite fmap_cons. cbn [foldl]. rewrite IH.
    unfold Qsum. cbn [foldr]. ring.
Qed.

Lemma cells_seq_take (row : list Val) (i : nat) :
  (i ≤ length row)%nat →
  (λ j, default nan (row !! j)) <$> seq 0 i = take i row.
Proof.
  intros Hi. apply list_eq. intros k.
  rewrite list_lookup_fmap.
  destruct (decide (k < i)%nat) as [Hk|Hk].
  - rewrite lookup_seq_lt by done. simpl.
    rewrite lookup_take_lt by done.
    destruct (lookup_lt_is_Some_2 row k) as [v ->]; [lia|done].
  - rewrite lookup_seq_ge by lia. by rewrite lookup_take_ge by lia.
Qed.

Lemma cells_seq (row : list Val) :
  (λ j, default nan (row !! j)) <$> seq 0 (length row) = row.
Proof. rewrite cells_seq_take by done. apply firstn_all. Qed.

Lemma column_lookup (np_data : list (list Val)) (i y : nat) (row : list Val) :
  np_data !! y = Some row →
  column np_data i !! y = Some (default nan (row !! i)).
Proof. intros Hy. unfold column. by rewrite list_lookup_fmap, Hy. Qed.

(** The cell drawn: to the right its positive part, to the left the size
    of its negative part; together, the cell. *)
Lemma where_pos_neg (v : Val) :
  (where_pos v - Qabs (where_neg v)
   == match v with Some x => x | None => 0 end)%Q.
Proof.
  destruct v as [x|]; [|by compute].
  cbn [where_pos where_neg]. unfold Qltb.
  destruct (Qle_bool 0 x) eqn:E1, (Qle_bool x 0) eqn:E2; cbn [negb].
  - apply Qle_bool_iff in E1, E2.
    assert (Hx : (x == 0)%Q) by (by apply Qle_antisym).
    change (Qabs 0) with 0%Q. rewrite Hx. ring.
  - change (Qabs 0) with 0%Q. ring.
  - apply Qle_bool_iff in E2. rewrite Qabs_neg by done. ring.
  - exfalso.
    assert (Hx : ¬ (0 <= x)%Q) by (intros ?%Qle_bool_iff; congruence).
    assert (Hx' : ¬ (x <= 0)%Q) by (intros ?%Qle_bool_iff; congruence).
    apply Hx. apply Qnot_le_lt in Hx'. by apply Qlt_le_weak.
Qed.

Lemma Qsub_pairs (a b x s1 s2 s : Q) :
  (a - b == x → s1 - s2 == s → a + s1 - (b + s2) == x + s)%Q.
Proof. intros <- <-. ring. Qed.

Lemma signed_row_sum (row : list Val) :
  (Qsum (where_pos <$> row) - Qsum ((Qabs ∘ where_neg) <$> row)
   == np_nansum row)%Q.
Proof.
  unfold np_nansum. induction row as [|v row IH]; [by compute|].
  rewrite !fmap_cons. unfold Qsum at 1 2. cbn [foldr].
  fold (Qsum (where_pos <$> row)). fold (Qsum ((Qabs ∘ where_neg) <$> row)).
  assert (Hv := where_pos_neg v). unfold compose at 1.
  destruct v as [x|]; cbn [omap list_omap id].
  - unfold Qsum at 3. cbn [foldr]. fold (Qsum (omap id row)).
    by apply Qsub_pairs.
  - transitivity (0 + Qsum (omap id row))%Q; [by apply Qsub_pairs|ring].
Qed.

(** Without a missing cell, [np.sum] is that sum too. *)
Lemma np_sum_nansum (row : list Val) :
  Forall is_Some row → veq (np_sum row) (Some (np_nansum row)).
Proof.
  unfold np_sum, np_nansum. induction 1 as [|v row [x ->] _ IH]; [done|].
  simpl. fold (Qsum (omap id row)).
  destruct (foldr vadd (Some 0%Q) row) as [s|]; [|done].
  simpl in *. by rewrite IH.
Qed.

End sums.

Section passes.
Variables (py : Printer) (cfg : Config) (labels : list Label)
          (np_data : list (list Val)) (vtotals : list Val)
          (bar_value_at_max : Val).

Lemma neg_step_Some (initial_starts : list Q) (ops : list HOp) (l : list Q)
    (i : nat) (colname : string) :
  neg_step py cfg labels np_data vtotals bar_value_at_max initial_starts
    (mkPass ops (Some l)) (i, colname)
  = mkPass (ops ++ turn py cfg labels vtotals bar_value_at_max neg_pass
                     (wcol_neg np_data) (ccol_neg np_data) xc_neg i colname l)
           (Some (zip_with Qplus l (wcol_neg np_data i))).
Proof.
  unfold neg_step, turn, wcol_neg, ccol_neg, xc_neg. simpl.
  f_equal. f_equal. symmetry. apply (zip_with_fmap_r Qplus Qabs).
Qed.

Lemma neg_step_None (initial_starts : list Q) (ops : list HOp)
    (ic : nat * string) :
  neg_step py cfg labels np_data vtotals bar_value_at_max initial_starts
    (mkPass ops None) ic
  = neg_step py cfg labels np_data vtotals bar_value_at_max initial_starts
      (mkPass ops (Some initial_starts)) ic.
Proof. done. Qed.

Lemma pos_step_Some (ops : list HOp) (l : list Q) (i : nat)
    (colname : string) :
  pos_step py cfg labels np_data vtotals bar_value_at_max
    (mkPass ops (Some l)) (i, colname)
  = mkPass (ops ++ turn py cfg labels vtotals bar_value_at_max pos_pass
                     (ccol_pos np_data) (ccol_pos np_data) xc_pos i colname l)
           (Some (zip_with Qplus l (ccol_pos np_data i))).
Proof. done. Qed.

(** A pass in closed form. *)
Section fold.
Variables (step : Pass → nat * string → Pass)
          (site : nat → Site) (wcol ccol : nat → list Q)
          (xc : list Q → list Q → list Q).
Hypothesis step_Some : ∀ ops l i colname,
  step (mkPass ops (Some l)) (i, colname)
  = mkPass (ops ++ turn py cfg labels vtotals bar_value_at_max site wcol ccol
                     xc i colname l)
           (Some (zip_with Qplus l (wcol i))).

Lemma fold_closed (names : list string) (off : nat) (ops : list HOp)
    (l : list Q) :
  foldl step (mkPass ops (Some l)) (imap (λ i nm, ((off + i)%nat, nm)) names)
  = mkPass (ops ++ mjoin (imap (λ i nm,
                             turn py cfg labels vtotals bar_value_at_max site
                               wcol ccol xc (off + i) nm
                               (starts_at wcol l off i)) names))
           (Some (starts_at wcol l off (length names))).
Proof.
  revert off ops l. induction names as [|nm names IH]; intros off ops l.
  - simpl. by rewrite app_nil_r.
  - rewrite !imap_cons. cbn [foldl]. rewrite step_Some.
    rewrite (imap_ext _ (λ i nm, ((S off + i)%nat, nm)))
      by (intros; simpl; f_equal; lia).
    rewrite IH, Nat.add_0_r. f_equal.
    rewrite <- app_assoc. f_equal.
    cbn [mjoin list_join]. change (starts_at wcol l off 0) with l.
    f_equal. f_equal.
    apply imap_ext. intros i x _. simpl.
    replace (off + S i)%nat with (S (off + i)) by lia.
    reflexivity.
Qed.

(** What a pass draws. *)
Variable kind : bool.
Hypothesis site_kind : ∀ i, is_neg (site i) = kind.

Lemma text_segment_in_turn (i : nat) (colname : string) (l : list Q)
    (s : Site) (x : Val) (y : nat) (label : string) :
  text_segment s x y label
    ∈ turn py cfg labels vtotals bar_value_at_max site wcol ccol xc i colname l →
  s = site i ∧ ∃ c, ccol i !! y = Some c ∧ isclose0 c = false.
Proof.
  unfold turn. intros [?|Hin]%elem_of_cons; [done|].
  unfold segment_texts in Hin.
  destruct (is_add_bar_values cfg); [|by apply elem_of_nil in Hin].
  apply list_elem_of_join in Hin as (ops & Hin & Hops).
  apply list_elem_of_lookup in Hops as (y' & Hy').
  apply list_lookup_imap_Some in Hy' as ([x' c] & Hz & ->).
  destruct (isclose0 c) eqn:Ec; simpl in Hin; [by apply elem_of_nil in Hin|].
  apply list_elem_of_singleton in Hin. injection Hin as -> _ -> _.
  split; [done|]. exists c. split; [|done].
  apply lookup_zip_with_Some in Hz as (? & ? & [= <- <-] & _ & ?). done.
Qed.

Lemma barh_in_turn (i : nat) (colname : string) (l : list Q)
    (s : Site) (lbls : list Label) (ws ls : list Q) (nm : string) :
  barh s lbls ws ls nm
    ∈ turn py cfg labels vtotals bar_value_at_max site wcol ccol xc i colname l →
  s = site i ∧ ws = wcol i ∧ ls = l.
Proof.
  unfold turn. intros [[= -> _ -> -> _]|Hin]%elem_of_cons; [done|].
  unfold segment_texts in Hin.
  destruct (is_add_bar_values cfg); [|by apply elem_of_nil in Hin].
  apply list_elem_of_join in Hin as (ops & Hin & Hops).
  apply list_elem_of_lookup in Hops as (y' & Hy').
  apply list_lookup_imap_Some in Hy' as ([x' c] & Hz & ->).
  destruct (negb (isclose0 c)); [|by apply elem_of_nil in Hin].
  by apply list_elem_of_singleton in Hin.
Qed.

Lemma segment_texts_widths (k : bool) (y : nat) (s : Site)
    (xs cs : list Q) :
  Forall (λ op, drawn_width k y op = 0%Q)
    (segment_texts py cfg s vtotals bar_value_at_max xs cs).
Proof.
  unfold segment_texts. destruct (is_add_bar_values cfg); [|constructor].
  apply Forall_forall. intros op Hin.
  apply list_elem_of_join in Hin as (ops & Hin & Hops).
  apply list_elem_of_lookup in Hops as (y' & Hy').
  apply list_lookup_imap_Some in Hy' as ([x' c] & Hz & ->).
  destruct (negb (isclose0 c)); [|by apply elem_of_nil in Hin].
  by apply list_elem_of_singleton in Hin as ->.
Qed.

Lemma drawn_widths_turn (k : bool) (y i : nat) (colname : string)
    (l : list Q) :
  (drawn_widths k y
     (turn py cfg labels vtotals bar_value_at_max site wcol ccol xc i colname l)
   == if Bool.eqb kind k then default 0 (wcol i !! y) else 0)%Q.
Proof.
  unfold turn. rewrite drawn_widths_cons.
  rewrite (drawn_widths_zero k y _ (segment_texts_widths k y _ _ _)).
  cbn [drawn_width]. rewrite site_kind. ring.
Qed.

Lemma drawn_widths_pass (k : bool) (y : nat) (names : list string)
    (off : nat) (st : nat → list Q) :
  (drawn_widths k y
     (mjoin (imap (λ i nm,
                     turn py cfg labels vtotals bar_value_at_max site wcol
                       ccol xc (off + i) nm (st i)) names))
   == if Bool.eqb kind k
      then Qsum ((λ i, default 0 (wcol i !! y)) <$> seq off (length names))
      else 0)%Q.
Proof.
  revert off st. induction names as [|nm names IH]; intros off st.
  - destruct (Bool.eqb kind k); by compute.
  - rewrite imap_cons. cbn [mjoin list_join length seq].
    rewrite drawn_widths_app, drawn_widths_turn, Nat.add_0_r.
    rewrite (imap_ext _ (λ i nm,
               turn py cfg labels vtotals bar_value_at_max site wcol ccol xc
                 (S off + i) nm ((st ∘ S) i)))
      by (intros; simpl; f_equal; lia).
    rewrite IH. rewrite fmap_cons.
    destruct (Bool.eqb kind k); [|ring].
    unfold Qsum at 2. cbn [foldr]. reflexivity.
Qed.

Lemma starts_at_lookup (l : list Q) (off k y : nat) (a : Q) :
  l !! y = Some a → (∀ j, is_Some (wcol j !! y)) →
  starts_at wcol l off k !! y
  = Some (foldl (λ acc j, acc + default 0 (wcol j !! y))%Q a (seq off k)).
Proof.
  intros Hl Hw. revert l off a Hl. induction k as [|k IH]; intros l off a Hl.
  - done.
  - unfold starts_at. cbn [seq foldl]. apply IH.
    rewrite lookup_zip_with, Hl. destruct (Hw off) as [b ->]. done.
Qed.

End fold.
End passes.

Section trace.
Variables (py : Printer) (cfg : Config).

Lemma index_totals_frame (d d' : DataFrame Label) :
  index_totals py cfg d = Ok d' →
  columns d' = columns d ∧ values d' = values d
  ∧ (length (index d) = length (values d) →
     length (index d') = length (values d')).
Proof.
  unfold index_totals.
  destruct (add_total_to_index cfg), (totals cfg) as [ts|];
    try (by intros [= <-]).
  case_decide; [|done]. by intros [= <-].
Qed.

(** The statements after the passes draw no segment and write on none. *)
Lemma finish_other (np_data : list (list Val)) (vtotals : list Val) :
  Forall (λ op, is_stack_call op = false)
    (run_steps (finish py cfg np_data vtotals)).1.
Proof.
  apply Forall_forall. intros op Hin.
  apply PyFacts.run_steps_elem in Hin as (ops & Hs & Hop).
  unfold finish in Hs.
  repeat (apply elem_of_cons in Hs as [Hs|Hs]);
    try (by apply elem_of_nil in Hs).
  - injection Hs as ->. destruct (xmin_shift cfg); [|by apply elem_of_nil in Hop].
    by apply list_elem_of_singleton in Hop as ->.
  - injection Hs as ->. destruct (add_total_bar cfg); [|by apply elem_of_nil in Hop].
    apply list_elem_of_lookup in Hop as (k & Hk).
    by apply list_lookup_imap_Some in Hk as (total & _ & ->).
  - destruct (add_total_to_left cfg).
    2:{ injection Hs as ->. by apply elem_of_nil in Hop. }
    destruct (np_max _) as [e|m]; [done|]. cbn [mbind Err_bind] in Hs.
    injection Hs as ->.
    apply list_elem_of_lookup in Hop as (k & Hk).
    by apply list_lookup_imap_Some in Hk as (total & _ & ->).
  - destruct (call_kw _ _); [done|]. injection Hs as ->.
    by apply list_elem_of_singleton in Hop as ->.
  - injection Hs as ->.
    repeat (apply elem_of_cons in Hop as [->|Hop]); try done.
    by apply elem_of_nil in Hop.
  - destruct (call_kw _ _); [done|]. injection Hs as ->.
    by apply list_elem_of_singleton in Hop as ->.
  - destruct (call_kw _ _); [done|]. injection Hs as ->.
    by apply list_elem_of_singleton in Hop as ->.
  - destruct (x_step cfg).
    2:{ injection Hs as ->. by apply elem_of_nil in Hop. }
    destruct (np_min _) as [e|lo]; [done|]. cbn [mbind Err_bind] in Hs.
    destruct (np_max _) as [e|hi]; [done|]. cbn [mbind Err_bind] in Hs.
    injection Hs as ->. by apply list_elem_of_singleton in Hop as ->.
  - injection Hs as ->. destruct (rows_edge_lines cfg); [|by apply elem_of_nil in Hop].
    by apply list_elem_of_fmap in Hop as (? & -> & _).
Qed.

Lemma np_max_rows {A} (f : list A → list Val) (np_data : list (list A)) :
  (∀ row, row ≠ [] → f row ≠ []) →
  np_data ≠ [] → Forall (λ row, row ≠ []) np_data →
  ∃ m, np_max (mjoin (f <$> np_data)) = Ok m.
Proof.
  intros Hf Hne Hrows. destruct np_data as [|row rest]; [done|].
  inversion Hrows as [|?? Hrow _]; subst.
  rewrite fmap_cons. cbn [mjoin list_join].
  specialize (Hf row Hrow). destruct (f row); [done|]. by eexists.
Qed.

Lemma np_min_rows {A} (f : list A → list Val) (np_data : list (list A)) :
  (∀ row, row ≠ [] → f row ≠ []) →
  np_data ≠ [] → Forall (λ row, row ≠ []) np_data →
  ∃ m, np_min (mjoin (f <$> np_data)) = Ok m.
Proof.
  intros Hf Hne Hrows. destruct np_data as [|row rest]; [done|].
  inversion Hrows as [|?? Hrow _]; subst.
  rewrite fmap_cons. cbn [mjoin list_join].
  specialize (Hf row Hrow). destruct (f row); [done|]. by eexists.
Qed.

Lemma np_cumsum_nonempty (row : list Val) : row ≠ [] → np_cumsum row ≠ [].
Proof. by destruct row. Qed.

Lemma keywords_pass (explicit : list string) :
  Forall (λ k, k ∈ vbars_keywords) explicit →
  Forall (λ k, k ∉ vbars_keywords) (kwargs cfg) →
  call_kw explicit (kwargs cfg) = Ok ().
Proof.
  intros Hsub Hkw. apply PyFacts.call_kw_ok.
  eapply Forall_impl; [exact Hkw|]. intros k Hk Hin.
  rewrite Forall_forall in Hsub. by apply Hk, Hsub.
Qed.

(** With rows and columns, and no keyword given twice, the statements
    after the passes run to the end. *)
Lemma finish_returns (np_data : list (list Val)) (vtotals : list Val) :
  np_data ≠ [] → Forall (λ row, row ≠ []) np_data →
  Forall (λ k, k ∉ vbars_keywords) (kwargs cfg) →
  (run_steps (finish py cfg np_data vtotals)).2 = Ok ().
Proof.
  intros Hne Hrows Hkw. unfold finish.
  rewrite !keywords_pass
    by first [exact Hkw | apply (bool_decide_unpack _); by vm_compute].
  assert (Hmax : ∃ m, np_max (Some <$> ((λ row : list Val,
                                           Qsum (where_pos <$> row)) <$> np_data))
                      = Ok m).
  { destruct np_data as [|row rest]; [done|]. rewrite !fmap_cons.
    cbn. by eexists. }
  destruct Hmax as [m Hmax].
  assert (Hlim : ∃ lim,
            match x_step cfg with
            | None => Ok []
            | Some step =>
                lo ← np_min (mjoin ((λ row : list Val,
                                       np_cumsum ((λ v, Some (where_neg v)) <$> row))
                                    <$> np_data));
                hi ← np_max (mjoin ((λ row : list Val,
                                       np_cumsum ((λ v, Some (where_pos v)) <$> row))
                                    <$> np_data));
                Ok [set_x_limits (floor_to step lo) (ceil_to step hi)]
            end = Ok lim).
  { destruct (x_step cfg) as [step|]; [|by eexists].
    destruct (np_min_rows (λ row : list Val,
                np_cumsum ((λ v, Some (where_neg v)) <$> row)) np_data)
      as [lo ->]; [|done|done|].
    { intros row Hrow. apply np_cumsum_nonempty. by destruct row. }
    destruct (np_max_rows (λ row : list Val,
                np_cumsum ((λ v, Some (where_pos v)) <$> row)) np_data)
      as [hi ->]; [|done|done|].
    { intros row Hrow. apply np_cumsum_nonempty. by destruct row. }
    cbn. by eexists. }
  destruct Hlim as [lim ->]. rewrite Hmax. cbn [mbind Err_bind fmap Err_fmap].
  by destruct (add_total_to_left cfg).
Qed.

(** The colour of a column is found, or the look-up is out of range. *)
Lemma col_colors_cases (colors : list string) (i : nat) :
  (∃ c, col_colors cfg colors i = Ok c
        ∧ (is_category_names_colors cfg = true → (i < length colors)%nat))
  ∨ (col_colors cfg colors i = Raise IndexError
     ∧ is_category_names_colors cfg = true ∧ (length colors ≤ i)%nat).
Proof.
  unfold col_colors. destruct (is_category_names_colors cfg); [|left; by eexists].
  destruct (decide (i < length colors)%nat) as [Hi|Hi].
  - left. destruct (PyFacts.getitem_ok colors (Z.of_nat i)) as [c ->]; [lia|].
    by eexists.
  - right. rewrite PyFacts.getitem_out_of_range by lia. split; [done|].
    split; [done|lia].
Qed.

Section coloured.
Variables (colors : list string) (step : Pass → nat * string → Pass).

Lemma coloured_fold_raised (st : Pass) (e : exn) (l : list (nat * string)) :
  foldl (coloured_step cfg colors step) (st, Raise e) l = (st, Raise e).
Proof. induction l as [|ic l IH]; [done|]. cbn [foldl]. apply IH. Qed.

Lemma coloured_fold_ok (st : Pass) (names : list string) (off : nat) :
  (∀ i, (i < length names)%nat → ∃ c, col_colors cfg colors (off + i) = Ok c) →
  foldl (coloured_step cfg colors step) (st, Ok ())
    (imap (λ i nm, ((off + i)%nat, nm)) names)
  = (foldl step st (imap (λ i nm, ((off + i)%nat, nm)) names), Ok ()).
Proof.
  revert st off. induction names as [|nm names IH]; intros st off Hok; [done|].
  rewrite !imap_cons. cbn [foldl]. unfold coloured_step at 2. cbn [fst snd].
  destruct (Hok 0%nat) as [c ->]; [simpl; lia|].
  rewrite (imap_ext _ (λ i nm, ((S off + i)%nat, nm)))
    by (intros; simpl; f_equal; lia).
  apply IH. intros i Hi. destruct (Hok (S i)) as [c' Hc']; [simpl; lia|].
  exists c'. by replace (S off + i)%nat with (off + S i)%nat by lia.
Qed.

Lemma coloured_fold_stop (st : Pass) (names : list string) (k : nat) (e : exn) :
  (k < length names)%nat →
  (∀ i, (i < k)%nat → ∃ c, col_colors cfg colors i = Ok c) →
  col_colors cfg colors k = Raise e →
  foldl (coloured_step cfg colors step) (st, Ok ()) (imap pair names)
  = (foldl step st (imap pair (take k names)), Raise e).
Proof.
  intros Hk Hok He.
  rewrite <- (take_drop k names) at 1. rewrite imap_app, foldl_app.
  assert (H : foldl (coloured_step cfg colors step) (st, Ok ())
                (imap pair (take k names))
              = (foldl step st (imap pair (take k names)), Ok ())).
  { apply (coloured_fold_ok st (take k names) 0).
    intros i Hi. apply Hok. rewrite length_take in Hi. lia. }
  rewrite H. clear H.
  destruct (drop k names) as [|nm rest] eqn:Ed.
  { apply (f_equal length) in Ed. rewrite length_drop in Ed. simpl in Ed. lia. }
  rewrite imap_cons. cbn [foldl]. unfold coloured_step at 2. cbn [fst snd].
  rewrite length_take, Nat.min_l, Nat.add_0_r, He by lia.
  apply coloured_fold_raised.
Qed.

End coloured.

Lemma neg_fold (labels : list Label) (np_data : list (list Val))
    (vtotals : list Val) (bvm : Val) (initial : list Q) (ops : list HOp)
    (names : list string) :
  names ≠ [] →
  foldl (neg_step py cfg labels np_data vtotals bvm initial)
    (mkPass ops None) (imap pair names)
  = mkPass (ops ++ mjoin (imap (λ i nm,
                            turn py cfg labels vtotals bvm neg_pass
                              (wcol_neg np_data) (ccol_neg np_data) xc_neg
                              i nm (starts_at (wcol_neg np_data) initial 0 i))
                          names))
           (Some (starts_at (wcol_neg np_data) initial 0 (length names))).
Proof.
  intros Hne.
  transitivity
    (foldl (neg_step py cfg labels np_data vtotals bvm initial)
       (mkPass ops (Some initial)) (imap (λ i nm, ((0 + i)%nat, nm)) names)).
  - destruct names as [|nm names]; [done|].
    rewrite !imap_cons. cbn [foldl]. rewrite neg_step_None. reflexivity.
  - exact (fold_closed py cfg labels vtotals bvm
             (neg_step py cfg labels np_data vtotals bvm initial)
             neg_pass (wcol_neg np_data) (ccol_neg np_data) xc_neg
             (neg_step_Some py cfg labels np_data vtotals bvm initial)
             names 0 ops initial).
Qed.

Lemma pos_fold (labels : list Label) (np_data : list (list Val))
    (vtotals : list Val) (bvm : Val) (l : list Q) (ops : list HOp)
    (names : list string) :
  foldl (pos_step py cfg labels np_data vtotals bvm)
    (mkPass ops (Some l)) (imap pair names)
  = mkPass (ops ++ mjoin (imap (λ i nm,
                            turn py cfg labels vtotals bvm pos_pass
                              (ccol_pos np_data) (ccol_pos np_data) xc_pos
                              i nm (starts_at (ccol_pos np_data) l 0 i))
                          names))
           (Some (starts_at (ccol_pos np_data) l 0 (length names))).
Proof.
  exact (fold_closed py cfg labels vtotals bvm
           (pos_step py cfg labels np_data vtotals bvm)
           pos_pass (ccol_pos np_data) (ccol_pos np_data) xc_pos
           (pos_step_Some py cfg labels np_data vtotals bvm)
           names 0 ops l).
Qed.

(** What a pass has drawn after some columns. *)
Lemma neg_fold_ops (labels : list Label) (np_data : list (list Val))
    (vtotals : list Val) (bvm : Val) (initial : list Q) (ops : list HOp)
    (names : list string) :
  pass_ops (foldl (neg_step py cfg labels np_data vtotals bvm initial)
              (mkPass ops None) (imap pair names))
  = ops ++ mjoin (imap (λ i nm,
                    turn py cfg labels vtotals bvm neg_pass
                      (wcol_neg np_data) (ccol_neg np_data) xc_neg
                      i nm (starts_at (wcol_neg np_data) initial 0 i))
                  names).
Proof.
  destruct names as [|nm names]; [by rewrite app_nil_r|].
  by rewrite neg_fold.
Qed.

(** The drawing of [plot_vbars]: nothing, when it raises before the
    passes; the negative pass up to the column for which there is no
    colour, when there is one; otherwise the negative pass, the positive
    pass, and the calls of the statements that follow, as far as they are
    run. *)
Lemma plot_vbars_trace (h : Heap) (df : ref) (ax : option Axes)
    (d d' : DataFrame Label) :
  h !! df = Some (PFrame d) →
  index_totals py cfg d = Ok d' →
  let r := plot_vbars py h df cfg ax in
  let labels := (results_of d').*1 in
  let np_data := (results_of d').*2 in
  let vtotals := np_sum <$> np_data in
  let initial := (λ row : list Val, Qsum (where_neg <$> row)) <$> np_data in
  let zeros :=
    Qmult 0 <$> starts_at (wcol_neg np_data) initial 0 (length (columns d)) in
  let negs bvm names :=
    mjoin (imap (λ i nm,
             turn py cfg labels vtotals bvm neg_pass
               (wcol_neg np_data) (ccol_neg np_data) xc_neg i nm
               (starts_at (wcol_neg np_data) initial 0 i)) names) in
  let poss bvm names :=
    mjoin (imap (λ i nm,
             turn py cfg labels vtotals bvm pos_pass
               (ccol_pos np_data) (ccol_pos np_data) xc_pos i nm
               (starts_at (ccol_pos np_data) zeros 0 i)) names) in
  (hdrawn r = [] ∧ (∃ e, hreturned r = Raise e)
   ∧ (np_data = [] ∨ add_bar_value_at_mid cfg = false
                     ∧ ∃ e, np_max (mjoin (np_cumsum <$> np_data)) = Raise e))
  ∨ ∃ bvm,
      (if add_bar_value_at_mid cfg then Ok nan
       else np_max (mjoin (np_cumsum <$> np_data))) = Ok bvm
      ∧ ((∃ k, (k < length (columns d))%nat
               ∧ is_category_names_colors cfg = true
               ∧ length (vcolors py cfg d') = k
               ∧ hdrawn r = invert_yaxis :: negs bvm (take k (columns d))
               ∧ hreturned r = Raise IndexError)
         ∨ ((is_category_names_colors cfg = true →
             (length (columns d) ≤ length (vcolors py cfg d'))%nat)
            ∧ ∃ tail,
                hdrawn r
                = invert_yaxis :: negs bvm (columns d) ++ poss bvm (columns d)
                  ++ tail
                ∧ Forall (λ op, is_stack_call op = false) tail
                ∧ (columns d ≠ [] →
                   tail = (run_steps (finish py cfg np_data vtotals)).1
                   ∧ hreturned r
                     = ((run_steps (finish py cfg np_data vtotals)).2 ≫= λ _,
                        Ok (match ax with
                            | None => Some NewFigure
                            | Some _ => None
                            end))))).
Proof.
  intros Ht Hd'. cbv zeta.
  destruct (index_totals_frame d d' Hd') as (Hcols & _).
  unfold plot_vbars. rewrite Ht, Hd'. cbv zeta.
  destruct ((results_of d').*2) as [|row0 rest] eqn:Enp.
  { left. split; [done|]. split; [by eexists|by left]. }
  cbv beta iota. rewrite <- Enp. clear row0 rest Enp.
  set (np_data := (results_of d').*2).
  destruct (if add_bar_value_at_mid cfg then Ok nan
            else np_max (mjoin (np_cumsum <$> np_data))) as [e|bvm] eqn:Ebvm.
  { left. split; [done|]. split; [by eexists|]. right.
    destruct (add_bar_value_at_mid cfg); [done|]. split; [done|]. by exists e. }
  right. exists bvm. split; [done|].
  set (colors := vcolors py cfg d').
  destruct (decide (is_category_names_colors cfg = true
                    ∧ (length colors < length (columns d))%nat))
    as [[Hon Hshort]|Hcover].
  - left. exists (length colors). split; [done|]. split; [done|]. split; [done|].
    rewrite (coloured_fold_stop colors _ _ (columns d) (length colors) IndexError);
      [|done| |].
    + cbn [fst snd]. by rewrite neg_fold_ops.
    + intros i Hi. destruct (col_colors_cases colors i) as [(c & Hc & _)|(_ & _ & ?)];
        [by exists c|lia].
    + destruct (col_colors_cases colors (length colors))
        as [(c & _ & Hc)|(Hc & _)]; [specialize (Hc Hon); lia|done].
  - right.
    assert (Hcov : is_category_names_colors cfg = true →
                   (length (columns d) ≤ length colors)%nat).
    { intros Hon. destruct (decide (length (columns d) ≤ length colors)%nat);
        [done|]. destruct Hcover. split; [done|lia]. }
    split; [done|].
    assert (Hok : ∀ i, (i < length (columns d))%nat →
                       ∃ c, col_colors cfg colors (0 + i) = Ok c).
    { intros i Hi. destruct (col_colors_cases colors i)
        as [(c & Hc & _)|(_ & Hon & ?)]; [by exists c|].
      specialize (Hcov Hon). lia. }
    assert (Hfold : ∀ step st,
              foldl (coloured_step cfg colors step) (st, Ok ())
                (imap pair (columns d))
              = (foldl step st (imap pair (columns d)), Ok ()))
      by (intros step st; exact (coloured_fold_ok colors step st (columns d) 0 Hok)).
    rewrite Hfold. cbn [fst snd].
    destruct (columns d) as [|c cs] eqn:Ec.
    { exists []. cbn. split; [done|]. split; [constructor|done]. }
    rewrite <- Ec in *. rewrite neg_fold by (by rewrite Ec).
    cbn [last_starts pass_ops].
    rewrite Hfold. cbn [fst snd]. rewrite pos_fold.
    cbn [last_starts pass_ops hdrawn hreturned].
    eexists. split; [by rewrite <- !app_assoc|].
    split; [apply finish_other|done].
Qed.

(** Every call made belongs to a loop turn of a pass, at a column of the
    table, or draws no segment. *)
Lemma plot_vbars_drawn_elem (h : Heap) (df : ref) (ax : option Axes)
    (d d' : DataFrame Label) (op : HOp) :
  h !! df = Some (PFrame d) →
  index_totals py cfg d = Ok d' →
  let labels := (results_of d').*1 in
  let np_data := (results_of d').*2 in
  let vtotals := np_sum <$> np_data in
  let initial := (λ row : list Val, Qsum (where_neg <$> row)) <$> np_data in
  let zeros :=
    Qmult 0 <$> starts_at (wcol_neg np_data) initial 0 (length (columns d)) in
  op ∈ hdrawn (plot_vbars py h df cfg ax) →
  is_stack_call op = false
  ∨ ∃ bvm i nm,
      (if add_bar_value_at_mid cfg then Ok nan
       else np_max (mjoin (np_cumsum <$> np_data))) = Ok bvm
      ∧ columns d !! i = Some nm
      ∧ (op ∈ turn py cfg labels vtotals bvm neg_pass
                (wcol_neg np_data) (ccol_neg np_data) xc_neg i nm
                (starts_at (wcol_neg np_data) initial 0 i)
         ∨ op ∈ turn py cfg labels vtotals bvm pos_pass
                  (ccol_pos np_data) (ccol_pos np_data) xc_pos i nm
                  (starts_at (ccol_pos np_data) zeros 0 i)).
Proof.
  intros Ht Hd'. cbv zeta.
  destruct (plot_vbars_trace h df ax d d' Ht Hd')
    as [[-> _]|(bvm & Hbvm & [(k & _ & _ & _ & -> & _)
                             |(_ & tail & -> & Htail & _)])].
  - by intros ?%elem_of_nil.
  - intros [->|Hin]%elem_of_cons; [by left|]. right.
    apply list_elem_of_join in Hin as (ops & Hin & Hops).
    apply list_elem_of_lookup in Hops as (i & Hi).
    apply list_lookup_imap_Some in Hi as (nm & Hnm & ->).
    apply lookup_take_Some in Hnm as [Hnm _].
    exists bvm, i, nm. split; [done|]. split; [done|by left].
  - rewrite Forall_forall in Htail.
    intros [->|Hin]%elem_of_cons; [by left|].
    apply elem_of_app in Hin as [Hin|Hin];
      [|apply elem_of_app in Hin as [Hin|Hin]].
    + right. apply list_elem_of_join in Hin as (ops & Hin & Hops).
      apply list_elem_of_lookup in Hops as (i & Hi).
      apply list_lookup_imap_Some in Hi as (nm & Hnm & ->).
      exists bvm, i, nm. split; [done|]. split; [done|by left].
    + right. apply list_elem_of_join in Hin as (ops & Hin & Hops).
      apply list_elem_of_lookup in Hops as (i & Hi).
      apply list_lookup_imap_Some in Hi as (nm & Hnm & ->).
      exists bvm, i, nm. split; [done|]. split; [done|by right].
    + left. by apply Htail.
Qed.

End trace.

Lemma col_cells (g : Val → Q) (np_data : list (list Val)) (y : nat)
    (row : list Val) (k : nat) :
  np_data !! y = Some row → (k ≤ length row)%nat →
  (λ i, default 0%Q ((g <$> column np_data i) !! y)) <$> seq 0 k
  = g <$> take k row.
Proof.
  intros Hy Hk. rewrite <- (cells_seq_take row k Hk), <- list_fmap_compose.
  apply list_fmap_ext. intros _ i _. simpl.
  by rewrite list_lookup_fmap, (column_lookup _ _ _ _ Hy).
Qed.

Lemma isclose0_where (v : Val) :
  visclose0 v = true →
  isclose0 (where_neg v) = true ∧ isclose0 (where_pos v) = true.
Proof.
  destruct v as [x|]; [|done]. simpl. intros Hx.
  destruct (Qltb x 0), (Qltb 0 x); done.
Qed.

Lemma other_call_width (k : bool) (y : nat) (op : HOp) :
  is_stack_call op = false → drawn_width k y op = 0%Q.
Proof. by destruct op. Qed.

(** C4.  Whatever the annotation toggles, a cell that is zero within the
    tolerance of [np.isclose] gets no text in either pass: no call
    [ax.text] is made for row [y] in the loop turn of column [i]. *)
Theorem plot_vbars_zero_segment_not_annotated (py : Printer) (h : Heap)
    (df : ref) (cfg : Config) (ax : option Axes) (d d' : DataFrame Label)
    (y i : nat) (row : list Val) (v : Val) :
  h !! df = Some (PFrame d) →
  index_totals py cfg d = Ok d' →
  (results_of d').*2 !! y = Some row →
  row !! i = Some v →
  visclose0 v = true →
  ∀ x label,
    (text_segment (neg_pass i) x y label
     ∉ hdrawn (plot_vbars py h df cfg ax))
    ∧ (text_segment (pos_pass i) x y label
       ∉ hdrawn (plot_vbars py h df cfg ax)).
Proof.
  intros Ht Hd' Hy Hi Hv x label.
  destruct (isclose0_where v Hv) as [Hneg Hpos].
  assert (Hcell : ∀ g : Val → Q,
            (g <$> column (results_of d').*2 i) !! y = Some (g v)).
  { intros g. by rewrite list_lookup_fmap, (column_lookup _ _ _ _ Hy), Hi. }
  split; intros Hin;
    apply (plot_vbars_drawn_elem py cfg h df ax d d' _ Ht Hd') in Hin
      as [?|(bvm & j & nm & _ & _ & [Hin|Hin])]; try done;
    apply text_segment_in_turn in Hin as (Hs & c & Hc & Hclose);
    try discriminate Hs; injection Hs as <-.
  - unfold ccol_neg in Hc. rewrite Hcell in Hc. injection Hc as <-. congruence.
  - unfold ccol_pos in Hc. rewrite Hcell in Hc. injection Hc as <-. congruence.
Qed.

(** The rows that reach the passes. *)
Lemma np_data_rows (py : Printer) (cfg : Config) (d d' : DataFrame Label) :
  index_totals py cfg d = Ok d' →
  rectangular d → index d ≠ [] →
  (results_of d').*2 ≠ []
  ∧ Forall (λ row, length row = length (columns d)) (results_of d').*2
  ∧ (NoDup (index d') → (results_of d').*2 = values d).
Proof.
  intros Hd' [Hlen Hrows] Hne.
  destruct (index_totals_frame py cfg d d' Hd') as (Hc & Hv & Hl).
  specialize (Hl (eq_sym Hlen)). unfold results_of.
  assert (Hsnd : (zip (index d') (values d')).*2 = values d).
  { rewrite snd_zip by lia. done. }
  assert (Hfst : (zip (index d') (values d')).*1 = index d').
  { rewrite fst_zip by lia. done. }
  split_and!.
  - intros Hnil%fmap_nil_inv. revert Hnil. apply PyFacts.dict_of_nonempty.
    intros Hz. apply (f_equal length) in Hz.
    rewrite length_zip_with, Hl, Hv, Hlen in Hz.
    destruct (index d); [done|]. simpl in Hz. lia.
  - apply PyFacts.dict_of_values. by rewrite Hsnd.
  - intros Hnd. rewrite PyFacts.dict_of_NoDup by (by rewrite Hfst). done.
Qed.




(** The segments of the sample: row [f2 = (7, -3)] is drawn from [-3] to
    [0] in the negative pass and from [0] to [7] in the positive pass. *)
Example sample_segments :
  omap (λ op, match op with
              | barh site _ ws ls _ => Some (site, Qred <$> ws, Qred <$> ls)
              | _ => None
              end)
    (hdrawn (plot_vbars Samples.printer {[ 7%nat := Samples.weights ]} 7%nat
               Samples.vconfig None))
  = [(neg_pass 0, [0; 0; 0], [0; -3; 0]);
     (neg_pass 1, [0; 3; 0], [0; -3; 0]);
     (pos_pass 0, [5; 7; 10], [0; 0; 0]);
     (pos_pass 1, [5; 0; 0], [5; 7; 10])]%Q.
Proof. by vm_compute. Qed.

Lemma plot_vbars_zero_segment_not_annotated_witness :
  (text_segment (neg_pass 1) nan 2 "0"
   ∉ hdrawn (plot_vbars Samples.printer {[ 7%nat := Samples.weights ]} 7%nat
               Samples.vconfig None))
  ∧ (text_segment (pos_pass 1) nan 2 "0"
     ∉ hdrawn (plot_vbars Samples.printer {[ 7%nat := Samples.weights ]} 7%nat
                 Samples.vconfig None)).
Proof.
  apply (plot_vbars_zero_segment_not_annotated Samples.printer
           {[ 7%nat := Samples.weights ]} 7%nat Samples.vconfig None
           Samples.weights_frame Samples.weights_frame 2 1
           [Samples.q 10; Samples.q 0] (Samples.q 0)).
  - by rewrite lookup_singleton_eq.
  - reflexivity.
  - reflexivity.
  - reflexivity.
  - reflexivity.
Defined.

(** The sample with the defaults: the five cells that are not zero are
    annotated, each in the pass of its sign; the cell [(f3, as2) = 0] is
    not. *)
Example sample_annotations :
  omap (λ op, match op with
              | text_segment site _ y label => Some (site, y, label)
              | _ => None
              end)
    (hdrawn (plot_vbars Samples.printer {[ 7%nat := Samples.weights ]} 7%nat
               Samples.vconfig None))
  = [(neg_pass 1, 1%nat, "{:.1%}-3/1");
     (pos_pass 0, 0%nat, "{:.1%}5/1");
     (pos_pass 0, 1%nat, "{:.1%}7/1");
     (pos_pass 0, 2%nat, "{:.1%}10/1");
     (pos_pass 1, 0%nat, "{:.1%}5/1")]%string.
Proof. by vm_compute. Qed.

End PlotVbarsSpec.


(** ** [plot_bars]: what a call returns, and what a second call does *)
Module PlotBarsRunSpec.
Import Bars PlotBarsFrameSpec.

Lemma strftime_index_head (py : Printer) (fmt : string) (idx idx' : list Label) :
  idx ≠ [] → strftime_index py fmt idx = Ok idx' →
  ∃ s rest, idx' = LStr s :: rest.
Proof.
  destruct idx as [|[d|s] rest]; [done| |done]; intros _.
  change (strftime_index py fmt (LTimestamp d :: rest))
    with ((λ r, LStr (strftime py fmt d) :: r) <$> strftime_index py fmt rest).
  destruct (strftime_index py fmt rest) as [e|r]; [done|].
  intros [= <-]. by eexists _, _.
Qed.

Lemma strftime_index_ok (py : Printer) (fmt : string) (idx idx' : list Label) :
  strftime_index py fmt idx = Ok idx' →
  ∃ ts, idx = LTimestamp <$> ts.
Proof.
  revert idx'. induction idx as [|[d|s] rest IH]; intros idx'; simpl.
  - intros _. by exists [].
  - change (strftime_index py fmt (LTimestamp d :: rest))
      with ((λ r, LStr (strftime py fmt d) :: r) <$> strftime_index py fmt rest).
    destruct (strftime_index py fmt rest) as [e|r] eqn:E; [done|]. intros _.
    destruct (IH r) as [ts ->]; [done|]. by exists (d :: ts).
  - done.
Qed.

Lemma table_index_set_index (t : Table) (idx : list Label) :
  table_index (set_index t idx) = idx.
Proof. by destruct t. Qed.

(** The table as [plot_bars] leaves it passes lines 66-67 unchanged:
    its first label is a string. *)
Lemma reformat_index_again (py py' : Printer) (cfg cfg' : Config) (t t' : Table) :
  reformat_index py cfg t = Ok t' → reformat_index py' cfg' t' = Ok t'.
Proof.
  unfold reformat_index at 1.
  destruct (table_index t) as [|[d|s] rest] eqn:E; [done| |].
  - rewrite <- E.
    destruct (strftime_index py (date_format cfg) (table_index t))
      as [e|idx] eqn:Es; [done|].
    intros [= <-].
    destruct (strftime_index_head py (date_format cfg) (table_index t) idx)
      as (s & r & ->); [by rewrite E|done|].
    unfold reformat_index. by rewrite table_index_set_index.
  - intros [= <-]. unfold reformat_index. by rewrite E.
Qed.

Lemma bars_keywords_pass (explicit kwargs : list string) :
  Forall (λ k, k ∈ bars_keywords) explicit →
  Forall (λ k, k ∉ bars_keywords) kwargs →
  call_kw explicit kwargs = Ok ().
Proof.
  intros Hsub Hkw. apply PyFacts.call_kw_ok.
  eapply Forall_impl; [exact Hkw|]. intros k Hk Hin.
  rewrite Forall_forall in Hsub. by apply Hk, Hsub.
Qed.

(** The statements after the bars run to the end exactly when no further
    keyword argument is one that a helper call writes out. *)
Lemma after_bars_ok (py : Printer) (cfg : Config) (t' : Table)
    (lay : BarLayout) :
  (run_steps (after_bars py cfg t' lay)).2 = Ok ()
  ↔ Forall (λ k, k ∉ bars_keywords) (kwargs cfg).
Proof.
  unfold after_bars. split.
  - intros Hok.
    repeat first
      [ rewrite PyFacts.run_steps_cons in Hok; cbn [snd] in Hok
      | match type of Hok with
        | context [call_kw ?a ?b] =>
            let E := fresh "E" in
            destruct (call_kw a b) as [e|[]] eqn:E;
            cbn [fmap Err_fmap] in Hok;
            [by rewrite PyFacts.run_steps_raise in Hok
            |apply PyFacts.call_kw_ok in E]
        end ].
    repeat match goal with
           | H : Forall _ (_ :: _) |- _ => apply Forall_cons in H as [_ H]
           end.
    apply Forall_forall. intros k Hk Hin.
    repeat match goal with
           | H : Forall _ (kwargs cfg) |- _ =>
               rewrite Forall_forall in H; specialize (H k Hk)
           end.
    unfold bars_keywords in Hin.
    repeat (apply elem_of_cons in Hin as [->|Hin]);
      [..|by apply elem_of_nil in Hin];
      match goal with
      | H : _ ∉ _ |- _ =>
          solve [apply H; apply (bool_decide_unpack _); by vm_compute]
      end.
  - intros Hkw.
    assert (Hloc : call_kw ["ax"; "x_rotation"]
                     ("yvar_format" :: "fontsize" :: kwargs cfg) = Ok ()).
    { apply PyFacts.call_kw_ok.
      repeat (apply Forall_cons; split;
              [apply (bool_decide_unpack _); by vm_compute|]).
      eapply Forall_impl; [exact Hkw|]. intros k Hk Hin. apply Hk.
      repeat (apply elem_of_cons in Hin as [->|Hin]);
        [..|by apply elem_of_nil in Hin];
        apply (bool_decide_unpack _); by vm_compute. }
    rewrite Hloc.
    rewrite !bars_keywords_pass
      by first [exact Hkw | apply (bool_decide_unpack _); by vm_compute].
    done.
Qed.

Lemma plot_bars_early_palette (py : Printer) (h : Heap) (df : ref)
    (cfg : Config) (ax : option Axes) (t : Table) :
  h !! df = Some t → colors cfg = None → "n" ∈ kwargs cfg →
  plot_bars py h df cfg ax = mkResult h [] (Raise TypeError).
Proof.
  intros Ht Hc Hn. unfold plot_bars.
  by rewrite Ht, (palette_of_raise cfg t Hc Hn).
Qed.

Lemma plot_bars_early_index (py : Printer) (h : Heap) (df : ref)
    (cfg : Config) (ax : option Axes) (t : Table) (e : exn) :
  h !! df = Some t → (colors cfg = None → "n" ∉ kwargs cfg) →
  reformat_index py cfg t = Raise e →
  plot_bars py h df cfg ax = mkResult h [] (Raise e).
Proof.
  intros Ht Hn Hre. unfold plot_bars. rewrite Ht.
  destruct (palette_of_ok cfg t Hn) as [p ->]. by rewrite Hre.
Qed.

Lemma plot_bars_melted (py : Printer) (h : Heap) (df : ref)
    (cfg : Config) (ax : option Axes) (t t' : Table) :
  h !! df = Some t → (colors cfg = None → "n" ∉ kwargs cfg) →
  reformat_index py cfg t = Ok t' →
  melted_index (var_name cfg) (value_name cfg) t' = true →
  plot_bars py h df cfg ax = mkResult (<[df := t']> h) [] (Raise ValueError).
Proof.
  intros Ht Hn Hre Hme. unfold plot_bars. rewrite Ht.
  destruct (palette_of_ok cfg t Hn) as [p ->]. by rewrite Hre, Hme.
Qed.

(** A call that draws the bars. *)
Lemma plot_bars_late (py : Printer) (h : Heap) (df : ref)
    (cfg : Config) (ax : option Axes) (t t' : Table) :
  h !! df = Some t → (colors cfg = None → "n" ∉ kwargs cfg) →
  reformat_index py cfg t = Ok t' →
  melted_index (var_name cfg) (value_name cfg) t' = false →
  let r := plot_bars py h df cfg ax in
  let fig := match ax with None => Some NewFigure | Some _ => None end in
  heap r = <[df := t']> h
  ∧ (∃ p ops, drawn r = barplot p :: ops)
  ∧ (Forall (λ k, k ∉ bars_keywords) (kwargs cfg) → returned r = Ok fig)
  ∧ (¬ Forall (λ k, k ∉ bars_keywords) (kwargs cfg) →
     returned r = Raise TypeError).
Proof.
  intros Ht Hn Hre Hme r fig. subst r fig.
  destruct (palette_of_ok cfg t Hn) as [p Hp].
  destruct (PlotBarsTotalsSpec.plot_bars_run py h df cfg ax t t' p Ht Hp Hre Hme)
    as (rest & Hdrawn & _ & Hret).
  rewrite (plot_bars_heap py h df cfg ax t Ht), Hp, Hre, Hdrawn, Hret.
  split_and!; [done|by eexists _, _| |].
  - intros Hkw. by rewrite (proj2 (after_bars_ok py cfg t' _) Hkw).
  - intros Hkw.
    destruct (PlotBarsTotalsSpec.after_bars_returns py cfg t'
                (foldl (patch_step py cfg) ([], mkLayout [] [] [])
                   (default [] ax ++ sns_barplot t')).2) as [Hok|Hraise].
    + by apply after_bars_ok in Hok.
    + by rewrite Hraise.
Qed.

(** When a call returns. *)
Lemma plot_bars_returned_iff (py : Printer) (h : Heap) (df : ref)
    (cfg : Config) (ax : option Axes) (t : Table) (f : option Figure) :
  h !! df = Some t →
  returned (plot_bars py h df cfg ax) = Ok f ↔
    f = match ax with None => Some NewFigure | Some _ => None end
    ∧ (colors cfg = None → "n" ∉ kwargs cfg)
    ∧ ∃ t', reformat_index py cfg t = Ok t'
        ∧ melted_index (var_name cfg) (value_name cfg) t' = false
        ∧ Forall (λ k, k ∉ bars_keywords) (kwargs cfg).
Proof.
  intros Ht. split.
  - intros Hret.
    destruct (palette_of_cases cfg t) as [(p & Hp & Hn)|(Hp & Hc & Hk)].
    2:{ by rewrite (plot_bars_early_palette py h df cfg ax t Ht Hc Hk) in Hret. }
    destruct (reformat_index py cfg t) as [e|t'] eqn:Hre.
    { by rewrite (plot_bars_early_index py h df cfg ax t e Ht Hn Hre) in Hret. }
    destruct (melted_index (var_name cfg) (value_name cfg) t') eqn:Hme.
    { by rewrite (plot_bars_melted py h df cfg ax t t' Ht Hn Hre Hme) in Hret. }
    destruct (plot_bars_late py h df cfg ax t t' Ht Hn Hre Hme)
      as (_ & _ & Hok & Hraise).
    destruct (decide (Forall (λ k, k ∉ bars_keywords) (kwargs cfg)))
      as [Hkw|Hkw].
    + rewrite (Hok Hkw) in Hret. injection Hret as <-.
      split_and!; [done|done|]. by exists t'.
    + by rewrite (Hraise Hkw) in Hret.
  - intros (-> & Hn & t' & Hre & Hme & Hkw).
    by apply (plot_bars_late py h df cfg ax t t' Ht Hn Hre Hme).
Qed.

(** X1.  What a call of [plot_bars] gives, statement by statement.
    Fetching the colours with [n] among the further keyword arguments
    raises [TypeError]; a table without rows raises [IndexError]
    ([df.index[0]]); an index that starts with a timestamp and holds a
    label that is none raises [AttributeError]: these calls have drawn
    nothing and have left the caller's table alone.  Past lines 66-67 the
    caller's table has the formatted index, whatever follows.  A bar plot
    that finds the labels of the index among the columns of the melted
    frame raises [ValueError], with nothing drawn.  Once the bars are
    drawn, the call returns exactly when no further keyword argument is
    one that a helper call writes out ([labels], [skip_y_axis], ...), and
    raises [TypeError] otherwise.  A call that returns has drawn the bars
    and gives back the figure exactly when it made the drawing surface
    itself. *)
Theorem plot_bars_returns_or_raises (py : Printer) (h : Heap) (df : ref)
    (cfg : Config) (ax : option Axes) (t : Table) :
  h !! df = Some t →
  let r := plot_bars py h df cfg ax in
  let fig := match ax with None => Some NewFigure | Some _ => None end in
  (colors cfg = None → "n" ∈ kwargs cfg →
     returned r = Raise TypeError ∧ drawn r = [] ∧ heap r = h)
  ∧ ((colors cfg = None → "n" ∉ kwargs cfg) →
       (table_index t = [] →
          returned r = Raise IndexError ∧ drawn r = [] ∧ heap r = h)
       ∧ (∀ d rest s, table_index t = LTimestamp d :: rest → LStr s ∈ rest →
            returned r = Raise AttributeError ∧ drawn r = [] ∧ heap r = h)
       ∧ (∀ t', reformat_index py cfg t = Ok t' →
            heap r = <[df := t']> h
            ∧ (melted_index (var_name cfg) (value_name cfg) t' = true →
                 returned r = Raise ValueError ∧ drawn r = [])
            ∧ (melted_index (var_name cfg) (value_name cfg) t' = false →
                 (∃ p ops, drawn r = barplot p :: ops)
                 ∧ (Forall (λ k, k ∉ bars_keywords) (kwargs cfg) →
                      returned r = Ok fig)
                 ∧ (∀ k, k ∈ kwargs cfg → k ∈ bars_keywords →
                      returned r = Raise TypeError))))
  ∧ (∀ s rest, table_index t = LStr s :: rest →
       reformat_index py cfg t = Ok t)
  ∧ (∀ ts, ts ≠ [] → table_index t = LTimestamp <$> ts →
       reformat_index py cfg t
       = Ok (set_index t ((λ d, LStr (strftime py (date_format cfg) d)) <$> ts)))
  ∧ (∀ f, returned r = Ok f →
       f = fig
       ∧ Forall (λ k, k ∉ bars_keywords) (kwargs cfg)
       ∧ ∃ p ops, drawn r = barplot p :: ops).
Proof.
  intros Ht r fig. subst r fig. split_and!.
  - intros Hc Hn. by rewrite (plot_bars_early_palette py h df cfg ax t Ht Hc Hn).
  - intros Hn. split_and!.
    + intros Hnil.
      rewrite (plot_bars_early_index py h df cfg ax t IndexError Ht Hn); [done|].
      unfold reformat_index. by rewrite Hnil.
    + intros d rest s Hidx Hs.
      rewrite (plot_bars_early_index py h df cfg ax t AttributeError Ht Hn);
        [done|].
      unfold reformat_index. rewrite Hidx, <- Hidx.
      rewrite (strftime_index_str py (date_format cfg) (table_index t) s); [done|].
      rewrite Hidx. by right.
    + intros t' Hre. split_and!.
      * rewrite (plot_bars_heap py h df cfg ax t Ht), Hre.
        by destruct (palette_of_ok cfg t Hn) as [p ->].
      * intros Hme. by rewrite (plot_bars_melted py h df cfg ax t t' Ht Hn Hre Hme).
      * intros Hme.
        destruct (plot_bars_late py h df cfg ax t t' Ht Hn Hre Hme)
          as (_ & Hdrawn & Hok & Hraise).
        split_and!; [done|done|].
        intros k Hk Hin. apply Hraise. intros Hall.
        rewrite Forall_forall in Hall. by apply (Hall k Hk).
  - intros s rest Hidx. unfold reformat_index. by rewrite Hidx.
  - intros [|d ts] Hne Hidx; [done|].
    pose proof (strftime_index_timestamps py (date_format cfg) (d :: ts)) as Hs.
    rewrite <- Hidx in Hs. unfold reformat_index. by rewrite Hs, Hidx.
  - intros f Hf.
    apply (plot_bars_returned_iff py h df cfg ax t f Ht) in Hf
      as (-> & Hn & t' & Hre & Hme & Hkw).
    split_and!; [done|done|].
    by apply (plot_bars_late py h df cfg ax t t' Ht Hn Hre Hme).
Qed.

Lemma plot_bars_returns_or_raises_witness :
  returned (plot_bars Samples.printer {[ 7%nat := Samples.monthly ]} 7%nat
              (MultiPortfolioData.grouped Samples.config) (Some []))
  = Raise TypeError
  ∧ heap (plot_bars Samples.printer {[ 7%nat := Samples.monthly ]} 7%nat
            (MultiPortfolioData.grouped Samples.config) (Some []))
    = <[7%nat := PFrame (mkFrame [LStr "%d-%b-%y0"; LStr "%d-%b-%y31"]
                           ["a"%string] [[Samples.q 1]; [Samples.q 2]])]>
        {[ 7%nat := Samples.monthly ]}.
Proof.
  destruct (plot_bars_returns_or_raises Samples.printer
              {[ 7%nat := Samples.monthly ]} 7%nat
              (MultiPortfolioData.grouped Samples.config) (Some [])
              Samples.monthly) as (_ & H & _).
  - by rewrite lookup_singleton_eq.
  - destruct H as (_ & _ & H).
    + intros _. apply (bool_decide_unpack _). by vm_compute.
    + destruct (H (PFrame (mkFrame [LStr "%d-%b-%y0"; LStr "%d-%b-%y31"]
                             ["a"%string] [[Samples.q 1]; [Samples.q 2]])))
        as (Hheap & _ & Hlate).
      * reflexivity.
      * split; [|exact Hheap].
        destruct Hlate as (_ & _ & Hraise); [reflexivity|].
        apply (Hraise "skip_y_axis"); apply (bool_decide_unpack _);
          by vm_compute.
Defined.

(** X2.  A second call on the same table.  After a call that got past
    lines 66-67, whether it then returned or raised, the first label of
    the index is a string: a second call, with any arguments, leaves the
    caller's table as the first call left it.  The second call returns
    exactly when its own colours are given or fetched without a clash of
    keywords, its bar plot takes the index as the vector of categories,
    and none of its further keyword arguments is one that a helper call
    writes out; so the call that returned returns again when it is
    repeated. *)
Theorem plot_bars_second_call (py py' : Printer) (h : Heap) (df : ref)
    (cfg cfg' : Config) (ax ax' : option Axes) (t t' : Table) :
  h !! df = Some t →
  (colors cfg = None → "n" ∉ kwargs cfg) →
  reformat_index py cfg t = Ok t' →
  let r := plot_bars py h df cfg ax in
  let r' := plot_bars py' (heap r) df cfg' ax' in
  let fig' := match ax' with None => Some NewFigure | Some _ => None end in
  heap r !! df = Some t'
  ∧ heap r' = heap r
  ∧ (returned r' = Ok fig'
     ↔ (colors cfg' = None → "n" ∉ kwargs cfg')
       ∧ melted_index (var_name cfg') (value_name cfg') t' = false
       ∧ Forall (λ k, k ∉ bars_keywords) (kwargs cfg'))
  ∧ (∀ f, returned r = Ok f → cfg' = cfg → returned r' = Ok fig').
Proof.
  intros Ht Hn Hre r r' fig'. subst r r' fig'.
  assert (Hheap : heap (plot_bars py h df cfg ax) = <[df := t']> h).
  { rewrite (plot_bars_heap py h df cfg ax t Ht), Hre.
    by destruct (palette_of_ok cfg t Hn) as [p ->]. }
  rewrite Hheap.
  assert (Ht' : <[df := t']> h !! df = Some t') by apply lookup_insert_eq.
  pose proof (reformat_index_again py py' cfg cfg' t t' Hre) as Hagain.
  assert (Hiff : returned (plot_bars py' (<[df := t']> h) df cfg' ax')
                 = Ok (match ax' with None => Some NewFigure | Some _ => None end)
                 ↔ (colors cfg' = None → "n" ∉ kwargs cfg')
                   ∧ melted_index (var_name cfg') (value_name cfg') t' = false
                   ∧ Forall (λ k, k ∉ bars_keywords) (kwargs cfg')).
  { rewrite (plot_bars_returned_iff py' _ df cfg' ax' t' _ Ht'). split.
    - intros (_ & Hn' & t'' & Hre' & Hme' & Hkw').
      rewrite Hagain in Hre'. injection Hre' as <-. done.
    - intros (Hn' & Hme' & Hkw'). split_and!; [done|done|]. by exists t'. }
  split_and!.
  - done.
  - rewrite (plot_bars_heap py' _ df cfg' ax' t' Ht'), Hagain.
    destruct (palette_of cfg' t'); apply insert_insert_eq.
  - exact Hiff.
  - intros f Hf ->. apply Hiff.
    apply (plot_bars_returned_iff py h df cfg ax t f Ht) in Hf
      as (_ & _ & t'' & Hre' & Hme' & Hkw').
    rewrite Hre in Hre'. injection Hre' as <-. done.
Qed.

Lemma plot_bars_second_call_witness :
  heap (plot_bars Samples.printer
          (heap (plot_bars Samples.printer {[ 7%nat := Samples.monthly ]}
                   7%nat (MultiPortfolioData.grouped Samples.config) None))
          7%nat Samples.config None)
  = heap (plot_bars Samples.printer {[ 7%nat := Samples.monthly ]} 7%nat
            (MultiPortfolioData.grouped Samples.config) None)
  ∧ returned (plot_bars Samples.printer
                (heap (plot_bars Samples.printer {[ 7%nat := Samples.monthly ]}
                         7%nat (MultiPortfolioData.grouped Samples.config) None))
                7%nat Samples.config None)
    = Ok (Some NewFigure).
Proof.
  destruct (plot_bars_second_call Samples.printer Samples.printer
              {[ 7%nat := Samples.monthly ]} 7%nat
              (MultiPortfolioData.grouped Samples.config) Samples.config
              None None Samples.monthly
              (PFrame (mkFrame [LStr "%d-%b-%y0"; LStr "%d-%b-%y31"]
                         ["a"%string] [[Samples.q 1]; [Samples.q 2]])))
    as (_ & Hheap & Hret & _).
  - by rewrite lookup_singleton_eq.
  - intros _. apply (bool_decide_unpack _). by vm_compute.
  - reflexivity.
  - split; [exact Hheap|]. apply Hret. split_and!.
    + intros _. apply (bool_decide_unpack _). by vm_compute.
    + reflexivity.
    + constructor.
Defined.

Section annotations.
Variables (py : Printer) (cfg : Config).

(** What one turn of [for p in ax.patches] writes for the bar [p]. *)
Lemma annotate_in_patch_step (lay : BarLayout) (p : Patch) (text : string)
    (x : Q) (y : YLoc) :
  annotate text x y ∈ (patch_step py cfg ([], lay) p).1 ↔
    (is_add_bar_values cfg = true ∨ is_add_top_bar_values cfg = true)
    ∧ veq0 (p_height p) = false
    ∧ match min_max_for_bars_values cfg, p_height p with
      | Some m, Some hq => Qle_bool (Qabs hq) m = false
      | _, _ => True
      end
    ∧ text = format py (var_format cfg) (p_height p)
    ∧ x = (p_x p + (2 # 10) * p_width p)%Q
    ∧ y = if is_add_bar_values cfg
          then YData (if vgt0 (p_height p)
                      then vadd (Some (p_y p)) (vscale (3 # 10) (p_height p))
                      else vadd (Some (p_y p)) (vscale (8 # 10) (p_height p)))
          else YOfYmax (95 # 100).
Proof.
  unfold patch_step. cbn [fst].
  destruct (is_add_bar_values cfg), (is_add_top_bar_values cfg),
    (min_max_for_bars_values cfg) as [m|], (p_height p) as [hq|];
    cbn [negb andb app];
    repeat match goal with
           | |- context [Qle_bool ?a ?b] => destruct (Qle_bool a b)
           | |- context [veq0 ?a] => destruct (veq0 a)
           end;
    cbn [negb andb app];
    rewrite ?list_elem_of_singleton, ?elem_of_nil; intuition congruence.
Qed.

Lemma patch_step_ops (ops : list Op) (lay : BarLayout) (p : Patch) :
  patch_step py cfg (ops, lay) p
  = (ops ++ (patch_step py cfg ([], mkLayout [] [] []) p).1, layout_step lay p).
Proof.
  unfold patch_step. cbn [fst].
  repeat case_match; by rewrite ?app_nil_r.
Qed.

Lemma foldl_patch_step_annotations (ps : list Patch) (ops : list Op)
    (lay : BarLayout) :
  (foldl (patch_step py cfg) (ops, lay) ps).1
  = ops ++ mjoin ((λ p, (patch_step py cfg ([], mkLayout [] [] []) p).1) <$> ps).
Proof.
  revert ops lay. induction ps as [|p ps IH]; intros ops lay.
  - simpl. by rewrite app_nil_r.
  - cbn [foldl]. rewrite patch_step_ops, IH.
    by rewrite fmap_cons, <- app_assoc.
Qed.

Lemma annotate_not_total_marker (lay : BarLayout) (text : string) (x : Q)
    (y : YLoc) :
  annotate text x y ∉ total_markers py cfg lay.
Proof.
  unfold total_markers. destruct (totals cfg) as [ts|]; [|apply not_elem_of_nil].
  intros [Hin|Hin]%elem_of_app.
  - destruct (is_top_totals cfg); [|by apply elem_of_nil in Hin].
    by apply list_elem_of_singleton in Hin.
  - apply list_elem_of_join in Hin as (l & Hin & Hl).
    apply list_elem_of_lookup in Hl as (k & Hk).
    apply lookup_zip_with_Some in Hk as (tx & mm & -> & _ & _).
    unfold total_marker in Hin. destruct (is_top_totals cfg).
    + by apply list_elem_of_singleton in Hin.
    + apply elem_of_cons in Hin as [?|Hin]; [done|].
      by apply list_elem_of_singleton in Hin.
Qed.

End annotations.

(** X3.  The values written on the bars, in a call that gets to the bars
    (the colours are given or fetched without a clash of keywords, and
    the bar plot takes the index as the vector of categories; a call that
    stops before has written nothing).  A value is written for a bar
    of the surface (the bars drawn before the call included) exactly when
    [is_add_bar_values] or [is_add_top_bar_values] is set, the bar's
    height is not zero, and its size is above [min_max_for_bars_values]
    when that is given; a bar of height NaN passes both tests.  The text
    is the formatted height, a fifth of the bar's width from its left
    edge; with [is_add_bar_values] it sits at [0.3] (a positive height) or
    [0.8] of the height, otherwise at [0.95] of the top of the y-axis:
    [is_add_bar_values] wins over [is_add_top_bar_values]. *)
Theorem plot_bars_bar_value_annotations (py : Printer) (h : Heap) (df : ref)
    (cfg : Config) (ax : option Axes) (t t' : Table) :
  h !! df = Some t →
  reformat_index py cfg t = Ok t' →
  ∀ text x y,
    annotate text x y ∈ drawn (plot_bars py h df cfg ax) ↔
    (colors cfg = None → "n" ∉ kwargs cfg)
    ∧ melted_index (var_name cfg) (value_name cfg) t' = false
    ∧ ∃ p, p ∈ default [] ax ++ sns_barplot t'
      ∧ (is_add_bar_values cfg = true ∨ is_add_top_bar_values cfg = true)
      ∧ veq0 (p_height p) = false
      ∧ match min_max_for_bars_values cfg, p_height p with
        | Some m, Some hq => Qle_bool (Qabs hq) m = false
        | _, _ => True
        end
      ∧ text = format py (var_format cfg) (p_height p)
      ∧ x = (p_x p + (2 # 10) * p_width p)%Q
      ∧ y = if is_add_bar_values cfg
            then YData (if vgt0 (p_height p)
                        then vadd (Some (p_y p)) (vscale (3 # 10) (p_height p))
                        else vadd (Some (p_y p)) (vscale (8 # 10) (p_height p)))
            else YOfYmax (95 # 100).
Proof.
  intros Ht Hre text x y.
  destruct (palette_of_cases cfg t) as [(pal & Hpal & Hn)|(Hpal & Hc & Hk)].
  2:{ rewrite (plot_bars_early_palette py h df cfg ax t Ht Hc Hk). cbn [drawn].
      split; [by intros ?%elem_of_nil|]. intros (Hno & _). by destruct (Hno Hc). }
  destruct (melted_index (var_name cfg) (value_name cfg) t') eqn:Hme.
  { rewrite (plot_bars_melted py h df cfg ax t t' Ht Hn Hre Hme). cbn [drawn].
    split; [by intros ?%elem_of_nil|]. by intros (_ & ? & _). }
  destruct (PlotBarsTotalsSpec.plot_bars_run py h df cfg ax t t' pal Ht Hpal
              Hre Hme) as (rest & -> & Hrest & _).
  rewrite foldl_patch_step_annotations. cbn [app].
  transitivity
    (annotate text x y
     ∈ mjoin ((λ p, (patch_step py cfg ([], mkLayout [] [] []) p).1)
              <$> (default [] ax ++ sns_barplot t'))).
  - rewrite elem_of_cons, !elem_of_app. split; [|tauto].
    intros [?|[Hin|[Hm|Hr]]]; [done|done| |].
    + by apply annotate_not_total_marker in Hm.
    + rewrite Forall_forall in Hrest. by specialize (Hrest _ Hr).
  - split.
    + intros Hin. split_and!; [done|done|].
      apply list_elem_of_join in Hin as (l & Hin & Hl).
      apply list_elem_of_fmap in Hl as (p & -> & Hp).
      exists p. split; [done|]. by apply (annotate_in_patch_step py cfg) in Hin.
    + intros (_ & _ & p & Hp & Hcond).
      apply list_elem_of_join. eexists. split.
      * by apply (annotate_in_patch_step py cfg (mkLayout [] [] []) p).
      * apply list_elem_of_fmap. by exists p.
Qed.

Lemma plot_bars_bar_value_annotations_witness :
  annotate "{:.1%}5/1" (bar_x 2 0 0 + (2 # 10) * bar_width 2)%Q
    (YData (vadd (Some 0%Q) (vscale (3 # 10) (np_nanmean [Samples.q 5]))))
  ∈ drawn (plot_bars Samples.printer {[ 7%nat := Samples.weights ]} 7%nat
             Samples.vconfig None).
Proof.
  apply (plot_bars_bar_value_annotations Samples.printer
           {[ 7%nat := Samples.weights ]} 7%nat Samples.vconfig None
           Samples.weights Samples.weights).
  - by rewrite lookup_singleton_eq.
  - reflexivity.
  - split_and!.
    + intros _. apply (bool_decide_unpack _). by vm_compute.
    + reflexivity.
    + exists (bar Samples.weights 2 0 "as1" 0 (LStr "f1")).
      split; [apply list_elem_of_here|].
      split_and!; try done. by left.
Defined.

Lemma length_total_markers (py : Printer) (cfg : Config) (a b : nat → Q)
    (ts : list Val) :
  length (mjoin (imap (λ k total, total_marker py cfg total (a k) (b k)) ts))
  = ((if is_top_totals cfg then 1 else 2) * length ts)%nat.
Proof.
  revert a b. induction ts as [|total ts IH]; intros a b.
  - simpl. lia.
  - rewrite imap_cons. cbn [mjoin list_join]. rewrite length_app.
    transitivity (length (total_marker py cfg total (a 0%nat) (b 0%nat))
                  + (if is_top_totals cfg then 1 else 2) * length ts)%nat.
    + f_equal. exact (IH (a ∘ S) (b ∘ S)).
    + unfold total_marker. destruct (is_top_totals cfg); simpl; lia.
Qed.

(** X4.  Fewer totals than categories.  On a surface without earlier
    bars, in a call that gets to the bars, a list of totals shorter than
    the list of categories is taken as it is: [zip] stops at the shorter
    list.  The markers drawn are, in order, those of the first
    categories, category [k] having the tick [hlines] over its bar of the
    first series at the [k]-th total and the formatted total at the right
    end of the tick (or, with [is_top_totals], the formatted total
    written a fifth of the width into the bar): one or two calls per
    total.  Every category has its bar, and no marker is drawn at the bar
    of a category past the last total.  The markers are drawn also when a
    later statement of the call raises. *)
Theorem plot_bars_fewer_totals (py : Printer) (h : Heap) (df : ref)
    (cfg : Config) (ax : option Axes) (t t' : Table) (ts : list Val) :
  h !! df = Some t →
  (colors cfg = None → "n" ∉ kwargs cfg) →
  reformat_index py cfg t = Ok t' →
  melted_index (var_name cfg) (value_name cfg) t' = false →
  totals cfg = Some ts →
  default [] ax = [] →
  table_columns t' ≠ [] →
  (length ts ≤ length (unique (table_index t')))%nat →
  let markers :=
    filter (λ op, is_total_marker op = true) (drawn (plot_bars py h df cfg ax)) in
  let m := length (unique (table_columns t')) in
  markers
  = mjoin (imap (λ k total,
                   let x_min := bar_x m k 0 in
                   let x_max := (bar_x m k 0 + bar_width m)%Q in
                   let label := format py (var_format cfg) total in
                   if is_top_totals cfg
                   then [text_top (x_min + (2 # 10) * (x_max - x_min))%Q
                           (975 # 1000) label]
                   else [hlines x_min x_max total;
                         annotate_total label x_max total]) ts)
  ∧ length markers = ((if is_top_totals cfg then 1 else 2) * length ts)%nat
  ∧ (∀ k cat, unique (table_index t') !! k = Some cat →
       ∃ p, p ∈ sns_barplot t' ∧ p_x p = bar_x m k 0 ∧ p_width p = bar_width m)
  ∧ (∀ k op, (length ts ≤ k)%nat → op ∈ markers →
       match op with
       | hlines x_min _ _ => ¬ (x_min == bar_x m k 0)%Q
       | annotate_total _ x_max _ => ¬ (x_max == bar_x m k 0 + bar_width m)%Q
       | text_top x _ _ => ¬ (x == bar_x m k 0 + (2 # 10) * bar_width m)%Q
       | _ => True
       end).
Proof.
  intros Ht Hn Hre Hme Hts Hax Hcols Hlen markers m.
  assert (Hmark :
    markers
    = mjoin (imap (λ k total,
                     total_marker py cfg total (bar_x m k 0)
                       (bar_x m k 0 + bar_width m)%Q) ts))
    by exact (PlotBarsTotalsSpec.plot_bars_markers py h df cfg ax t t' ts Ht Hn
                Hre Hme Hts Hax Hcols Hlen).
  split_and!.
  - exact Hmark.
  - rewrite Hmark. apply length_total_markers.
  - intros k cat Hk.
    destruct (unique (table_columns t')) as [|name rest] eqn:Hu.
    { destruct (table_columns t'); [done|discriminate]. }
    destruct (PlotBarsTotalsSpec.sns_barplot_first_series t' name rest Hu)
      as [more Hsns].
    exists (bar t' m 0 name k cat). split; [|done].
    rewrite Hsns. apply elem_of_app. left.
    apply list_elem_of_lookup. exists k.
    subst m. by rewrite list_lookup_imap, Hk.
  - intros k op Hk Hop. rewrite Hmark in Hop.
    apply list_elem_of_join in Hop as (l & Hop & Hl).
    apply list_elem_of_lookup in Hl as (j & Hj).
    apply list_lookup_imap_Some in Hj as (total & Htot & ->).
    apply lookup_lt_Some in Htot.
    assert (Hd : ¬ (bar_x m j 0 == bar_x m k 0)%Q).
    { apply Qeq_bool_neq, PlotBarsTotalsSpec.bar_x_distinct. lia. }
    revert Hd Hop. unfold total_marker.
    generalize (bar_x m j 0) (bar_x m k 0) (bar_width m). intros a b w Hd.
    destruct (is_top_totals cfg).
    + intros ->%list_elem_of_singleton. intros Heq. apply Hd. lra.
    + intros [->| ->%list_elem_of_singleton]%elem_of_cons.
      * done.
      * intros Heq. apply Hd. lra.
Qed.

Lemma plot_bars_fewer_totals_witness :
  length (filter (λ op, is_total_marker op = true)
            (drawn (plot_bars Samples.printer {[ 7%nat := Samples.weights ]}
                      7%nat (Samples.config_totals [Samples.q 10; Samples.q 4])
                      None)))
  = 4%nat.
Proof.
  destruct (plot_bars_fewer_totals Samples.printer
              {[ 7%nat := Samples.weights ]} 7%nat
              (Samples.config_totals [Samples.q 10; Samples.q 4]) None
              Samples.weights Samples.weights [Samples.q 10; Samples.q 4])
    as (_ & H & _).
  - by rewrite lookup_singleton_eq.
  - intros _. apply (bool_decide_unpack _). by vm_compute.
  - reflexivity.
  - reflexivity.
  - reflexivity.
  - reflexivity.
  - done.
  - vm_compute. lia.
  - exact H.
Defined.

End PlotBarsRunSpec.


(** ** [plot_vbars]: the caller's table, the labels, the geometry *)
Module PlotVbarsRunSpec.
Import Bars PyFacts PdFacts PlotVbarsSpec.

Lemma plot_vbars_heap (py : Printer) (h : Heap) (df : ref) (cfg : Config)
    (ax : option Axes) (d : DataFrame Label) :
  h !! df = Some (PFrame d) →
  hheap (plot_vbars py h df cfg ax)
  = match index_totals py cfg d with
    | Ok d' => <[df := PFrame d']> h
    | Raise _ => h
    end.
Proof.
  intros Ht. unfold plot_vbars. rewrite Ht.
  destruct (index_totals py cfg d) as [e|d']; [done|]. cbv zeta.
  destruct ((results_of d').*2) as [|row0 rest]; [done|].
  destruct (if add_bar_value_at_mid cfg then _ else _) as [e|bvm]; [done|].
  repeat case_match; done.
Qed.

Lemma length_index_with_totals (py : Printer) (cfg : Config)
    (idx : list Label) (ts : list Val) :
  length (index_with_totals py cfg idx ts) = (length idx `min` length ts)%nat.
Proof. unfold index_with_totals. apply length_zip_with. Qed.

(** X5.  What [plot_vbars] does to the caller's table.  Without
    [add_total_to_index], or without [totals], the table is left as it
    was.  With both, lines 213-214 give the caller's table itself the
    index of labels with totals, and leave its columns and values; totals
    in excess of the rows are ignored, and with fewer totals than rows
    pandas refuses the shorter index: [ValueError], nothing drawn, the
    table as it was.  A table without rows raises [AxisError] at
    [np.sum(np_data, axis=1)], before anything is drawn. *)
Theorem plot_vbars_frame_effect (py : Printer) (h : Heap) (df : ref)
    (cfg : Config) (ax : option Axes) (d : DataFrame Label) :
  h !! df = Some (PFrame d) →
  length (index d) = length (values d) →
  let r := plot_vbars py h df cfg ax in
  (add_total_to_index cfg = false ∨ totals cfg = None → hheap r = h)
  ∧ (∀ ts, add_total_to_index cfg = true → totals cfg = Some ts →
       ((length (index d) ≤ length ts)%nat →
        hheap r
        = <[df := PFrame (mkFrame (index_with_totals py cfg (index d) ts)
                            (columns d) (values d))]> h)
       ∧ ((length ts < length (index d))%nat →
          hreturned r = Raise ValueError ∧ hdrawn r = [] ∧ hheap r = h))
  ∧ (index d = [] → hreturned r = Raise AxisError ∧ hdrawn r = []).
Proof.
  intros Ht Hlen r. subst r.
  rewrite (plot_vbars_heap py h df cfg ax d Ht).
  split_and!.
  - intros Hoff. unfold index_totals.
    destruct Hoff as [-> | ->]; [|destruct (add_total_to_index cfg)];
      by apply insert_id.
  - intros ts Hon Hts. unfold plot_vbars, index_totals.
    rewrite Ht, Hon, Hts. split; intros Hcmp.
    + rewrite decide_True; [done|].
      rewrite length_index_with_totals. lia.
    + rewrite decide_False; [done|].
      rewrite length_index_with_totals. lia.
  - intros Hnil. rewrite Hnil in Hlen.
    destruct (values d) as [|row rest] eqn:Hv; [|done].
    assert (Hd' : ∃ d', index_totals py cfg d = Ok d' ∧ results_of d' = []).
    { unfold index_totals, results_of.
      destruct (add_total_to_index cfg), (totals cfg) as [ts|];
        rewrite ?Hnil, ?Hv; try (by eexists; rewrite ?Hnil, ?Hv).
      rewrite decide_True by done. by eexists. }
    destruct Hd' as (d' & Hd' & Hres).
    unfold plot_vbars. rewrite Ht, Hd'. cbv zeta. by rewrite Hres.
Qed.

Lemma plot_vbars_frame_effect_witness :
  hheap (plot_vbars Samples.printer {[ 7%nat := Samples.weights ]} 7%nat
           Samples.vconfig None)
  = {[ 7%nat := Samples.weights ]}.
Proof.
  destruct (plot_vbars_frame_effect Samples.printer
              {[ 7%nat := Samples.weights ]} 7%nat Samples.vconfig None
              Samples.weights_frame) as (H & _).
  - by rewrite lookup_singleton_eq.
  - reflexivity.
  - apply H. by left.
Defined.

(** X6.  The totals handed to [plot_vbars] are never drawn.  Line 220
    replaces them by the sums of the rows, so unless they are written into
    the index ([add_total_to_index]) the call does the same whatever
    [totals] holds: the same table, the same drawing, the same result. *)
Theorem plot_vbars_supplied_totals_unused (py : Printer) (h : Heap) (df : ref)
    (cfg : Config) (ax : option Axes) (ts : option (list Val)) :
  add_total_to_index cfg = false →
  plot_vbars py h df (with_totals ts cfg) ax = plot_vbars py h df cfg ax.
Proof.
  destruct cfg. cbn [add_total_to_index with_totals]. intros ->.
  reflexivity.
Qed.

Lemma plot_vbars_supplied_totals_unused_witness :
  plot_vbars Samples.printer {[ 7%nat := Samples.weights ]} 7%nat
    (with_totals (Some [Samples.q 1]) Samples.vconfig) None
  = plot_vbars Samples.printer {[ 7%nat := Samples.weights ]} 7%nat
      Samples.vconfig None.
Proof.
  apply (plot_vbars_supplied_totals_unused Samples.printer
           {[ 7%nat := Samples.weights ]} 7%nat Samples.vconfig None
           (Some [Samples.q 1])).
  reflexivity.
Defined.

Section dict_keys.
Context {K V : Type} `{EqDecision K}.

Lemma dict_set_keys (k : K) (v : V) (d : list (K * V)) :
  (dict_set k v d).*1 = if decide (k ∈ d.*1) then d.*1 else d.*1 ++ [k].
Proof.
  induction d as [|[k' v'] d IH]; [done|].
  cbn [dict_set]. rewrite fmap_cons. cbn [fst].
  destruct (decide (k = k')) as [->|Hne].
  - rewrite decide_True by left. done.
  - rewrite fmap_cons, IH. cbn [fst].
    destruct (decide (k ∈ d.*1)) as [Hin|Hin].
    + rewrite decide_True; [done|by right].
    + rewrite decide_False; [done|].
      by intros [?|?]%elem_of_cons.
Qed.

Lemma unique_snoc (l : list K) (k : K) :
  unique (l ++ [k]) = if decide (k ∈ l) then unique l else unique l ++ [k].
Proof.
  induction l as [|x l IH]; [done|].
  rewrite <- app_comm_cons. cbn [unique]. rewrite IH.
  destruct (decide (k ∈ l)) as [Hin|Hin].
  - rewrite decide_True; [done|by right].
  - rewrite filter_app. destruct (decide (k = x)) as [->|Hne].
    + rewrite decide_True by left.
      rewrite (filter_cons_False _ x) by (by intros ?).
      by rewrite filter_nil, app_nil_r.
    + rewrite decide_False by (by intros [?|?]%elem_of_cons).
      by rewrite (filter_cons_True _ k) by done.
Qed.

(** The keys of a dict: the distinct keys, in the order of their first
    insertion. *)
Lemma dict_of_keys (kvs : list (K * V)) : (dict_of kvs).*1 = unique kvs.*1.
Proof.
  induction kvs as [|[k v] kvs IH] using rev_ind; [done|].
  rewrite dict_of_snoc, dict_set_keys, fmap_app, IH.
  change ([(k, v)].*1) with [k]. rewrite unique_snoc.
  destruct (decide (k ∈ kvs.*1)) as [Hin|Hin].
  - rewrite decide_True; [done|]. by apply PdFacts.elem_of_unique.
  - rewrite decide_False; [done|]. by rewrite PdFacts.elem_of_unique.
Qed.

Lemma elem_of_dict_set (k k' : K) (v v' : V) (d : list (K * V)) :
  NoDup d.*1 →
  (k', v') ∈ dict_set k v d ↔ (k' = k ∧ v' = v) ∨ (k' ≠ k ∧ (k', v') ∈ d).
Proof.
  induction d as [|[k0 v0] d IH]; intros Hnd.
  - cbn [dict_set]. rewrite list_elem_of_singleton, elem_of_nil.
    split; [intros [= -> ->]; by left|intros [[-> ->]|[_ []]]; done].
  - rewrite fmap_cons in Hnd. apply NoDup_cons in Hnd as [Hk0 Hnd].
    cbn [dict_set fst] in *.
    destruct (decide (k = k0)) as [->|Hne].
    + rewrite !elem_of_cons. split.
      * intros [[= -> ->]|Hin]; [by left|]. right. split; [|by right].
        intros ->. apply Hk0. apply list_elem_of_fmap. by exists (k0, v').
      * intros [[-> ->]|[Hne [[= -> ->]|Hin]]]; [by left|done|by right].
    + rewrite !elem_of_cons, IH by done. split.
      * intros [[= -> ->]|[[-> ->]|[Hne' Hin]]].
        -- right. split; [congruence|by left].
        -- by left.
        -- right. split; [done|by right].
      * intros [[-> ->]|[Hne' [[= -> ->]|Hin]]].
        -- by right; left.
        -- by left.
        -- right. right. done.
Qed.

(** The value of a key: the one of its last insertion. *)
Lemma elem_of_dict_of (kvs : list (K * V)) (k : K) (v : V) :
  (k, v) ∈ dict_of kvs ↔
  last (filter (λ kv : K * V, kv.1 = k) kvs) = Some (k, v).
Proof.
  induction kvs as [|[k0 v0] kvs IH] using rev_ind.
  - cbn. rewrite elem_of_nil. done.
  - rewrite dict_of_snoc, elem_of_dict_set, filter_app.
    2:{ rewrite dict_of_keys. apply PdFacts.NoDup_unique. }
    destruct (decide (k0 = k)) as [->|Hne].
    + rewrite (filter_cons_True _ (k, v0)) by done. rewrite filter_nil, last_snoc.
      split; [intros [[_ ->]|[? _]]; done|intros [= ->]; by left].
    + rewrite (filter_cons_False _ (k0, v0)) by done.
      rewrite filter_nil, app_nil_r, <- IH.
      split; [intros [[-> _]|[_ ?]]; done|intros ?; right; split; congruence].
Qed.
End dict_keys.

Section signs.

Lemma Qltb_true (a b : Q) : Qltb a b = true ↔ (a < b)%Q.
Proof.
  unfold Qltb. rewrite negb_true_iff, <- not_true_iff_false, Qle_bool_iff.
  split; [apply Qnot_le_lt|apply Qlt_not_le].
Qed.

Lemma where_neg_nonpos (v : Val) : (where_neg v <= 0)%Q.
Proof.
  destruct v as [x|]; simpl; [|lra].
  destruct (Qltb x 0) eqn:E; [|lra]. apply Qltb_true in E. lra.
Qed.

Lemma where_pos_nonneg (v : Val) : (0 <= where_pos v)%Q.
Proof.
  destruct v as [x|]; simpl; [|lra].
  destruct (Qltb 0 x) eqn:E; [|lra]. apply Qltb_true in E. lra.
Qed.

Lemma Qabs_where_neg (v : Val) : (Qabs (where_neg v) == - where_neg v)%Q.
Proof. apply Qabs_neg, where_neg_nonpos. Qed.

Lemma Qsum_cons (x : Q) (l : list Q) : Qsum (x :: l) = (x + Qsum l)%Q.
Proof. done. Qed.

Lemma Qsum_nonneg (l : list Q) : Forall (λ x, 0 <= x)%Q l → (0 <= Qsum l)%Q.
Proof.
  induction 1 as [|x l Hx _ IH]; [by compute|]. rewrite Qsum_cons. lra.
Qed.

Lemma Qsum_take_le (l : list Q) (i : nat) :
  Forall (λ x, 0 <= x)%Q l → (Qsum (take i l) <= Qsum l)%Q.
Proof.
  intros Hl. rewrite <- (take_drop i l) at 2. rewrite Qsum_app.
  assert (0 <= Qsum (drop i l))%Q by (by apply Qsum_nonneg, Forall_drop).
  lra.
Qed.

Lemma Qsum_snoc (l : list Q) (x : Q) : (Qsum (l ++ [x]) == Qsum l + x)%Q.
Proof. rewrite Qsum_app, Qsum_cons. change (Qsum []) with 0%Q. lra. Qed.

Lemma Qsum_abs_where_neg (row : list Val) :
  (Qsum (where_neg <$> row) == - Qsum ((Qabs ∘ where_neg) <$> row))%Q.
Proof.
  induction row as [|v row IH]; [by compute|].
  rewrite !fmap_cons, !Qsum_cons, IH. unfold compose at 2.
  rewrite Qabs_where_neg. lra.
Qed.

(** The starts of row [y] at column [i] in the two passes. *)
Lemma neg_start (np_data : list (list Val)) (y i : nat) (row : list Val) :
  np_data !! y = Some row → (i ≤ length row)%nat →
  ∃ left,
    starts_at (wcol_neg np_data)
      ((λ row : list Val, Qsum (where_neg <$> row)) <$> np_data) 0 i !! y
    = Some left
    ∧ (left == Qsum (where_neg <$> row)
               + Qsum ((Qabs ∘ where_neg) <$> take i row))%Q.
Proof.
  intros Hy Hi.
  assert (Hw : ∀ j, wcol_neg np_data j !! y
                    = Some (Qabs (where_neg (default nan (row !! j))))).
  { intros j. unfold wcol_neg.
    by rewrite !list_lookup_fmap, (column_lookup _ _ _ _ Hy). }
  rewrite (starts_at_lookup _ _ 0 i y (Qsum (where_neg <$> row))).
  - eexists. split; [done|].
    assert (Hsum : (λ i, default 0%Q (wcol_neg np_data i !! y)) <$> seq 0 i
                   = (Qabs ∘ where_neg) <$> take i row).
    { rewrite <- (col_cells (Qabs ∘ where_neg) np_data y row i Hy Hi).
      apply list_fmap_ext. intros _ j _. unfold wcol_neg.
      by rewrite <- list_fmap_compose. }
    by rewrite foldl_Qplus, Hsum.
  - by rewrite list_lookup_fmap, Hy.
  - intros j. by rewrite Hw.
Qed.

Lemma pos_start (np_data : list (list Val)) (n y i : nat) (row : list Val) :
  np_data !! y = Some row → (i ≤ length row)%nat → (n ≤ length row)%nat →
  ∃ left,
    starts_at (ccol_pos np_data)
      (Qmult 0 <$> starts_at (wcol_neg np_data)
                     ((λ row : list Val, Qsum (where_neg <$> row)) <$> np_data)
                     0 n) 0 i !! y
    = Some left
    ∧ (left == Qsum (where_pos <$> take i row))%Q.
Proof.
  intros Hy Hi Hn.
  destruct (neg_start np_data y n row Hy Hn) as (l0 & Hl0 & _).
  assert (Hw : ∀ j, ccol_pos np_data j !! y
                    = Some (where_pos (default nan (row !! j)))).
  { intros j. unfold ccol_pos.
    by rewrite !list_lookup_fmap, (column_lookup _ _ _ _ Hy). }
  rewrite (starts_at_lookup _ _ 0 i y (0 * l0)%Q).
  - eexists. split; [done|].
    assert (Hsum : (λ i, default 0%Q (ccol_pos np_data i !! y)) <$> seq 0 i
                   = where_pos <$> take i row)
      by (by rewrite <- (col_cells where_pos np_data y row i Hy Hi)).
    rewrite foldl_Qplus, Hsum. lra.
  - by rewrite list_lookup_fmap, Hl0.
  - intros j. by rewrite Hw.
Qed.

Lemma Qsum_take_S (g : Val → Q) (row : list Val) (i : nat) (v : Val) :
  row !! i = Some v →
  (Qsum (g <$> take (S i) row) == Qsum (g <$> take i row) + g v)%Q.
Proof.
  intros Hi. rewrite (take_S_r _ _ _ Hi), fmap_app.
  change (g <$> [v]) with [g v]. apply Qsum_snoc.
Qed.

(** The cumulative sums of a row of numbers: numbers, the last of them
    the sum of the row. *)
Lemma cumsum_from_Some (g : Val → Q) (acc : Q) (row : list Val) :
  ∃ cs, cumsum_from (Some acc) ((λ v, Some (g v)) <$> row) = Some <$> cs
    ∧ (row ≠ [] → ∃ s, last cs = Some s ∧ (s == acc + Qsum (g <$> row))%Q).
Proof.
  revert acc. induction row as [|v row IH]; intros acc.
  - by exists [].
  - destruct (IH (acc + g v)%Q) as (cs & Hcs & Hlast).
    exists ((acc + g v)%Q :: cs). split.
    + rewrite fmap_cons. cbn [cumsum_from vadd]. by rewrite Hcs.
    + intros _. rewrite last_cons. destruct row as [|v' row'].
      * destruct cs; [|done]. eexists. split; [done|].
        rewrite fmap_cons, Qsum_cons. change (Qsum (g <$> [])) with 0%Q. lra.
      * destruct Hlast as (s & -> & Hs); [done|]. exists s. split; [done|].
        rewrite Hs, (fmap_cons g v), (Qsum_cons (g v)). lra.
Qed.

Lemma cumsums_Some (g : Val → Q) (np_data : list (list Val)) :
  ∃ qs,
    mjoin ((λ row : list Val, np_cumsum ((λ v, Some (g v)) <$> row)) <$> np_data)
    = Some <$> qs
    ∧ ∀ y row, np_data !! y = Some row → row ≠ [] →
        ∃ s, s ∈ qs ∧ (s == Qsum (g <$> row))%Q.
Proof.
  induction np_data as [|row0 np_data IH].
  - exists []. split; [done|]. by intros ??.
  - destruct IH as (qs & Hqs & Hin).
    destruct (cumsum_from_Some g 0 row0) as (cs & Hcs & Hlast).
    exists (cs ++ qs). split.
    + rewrite fmap_cons.
      change (mjoin (?a :: ?l)) with (a ++ mjoin l).
      unfold np_cumsum at 1. rewrite Hcs, fmap_app. f_equal. exact Hqs.
    + intros [|y] row Hy Hne.
      * injection Hy as ->. destruct (Hlast Hne) as (s & Hs & Heq).
        exists s. split; [|rewrite Heq; lra].
        apply last_Some in Hs as [l' ->]. apply elem_of_app. left.
        apply elem_of_app. right. left.
      * destruct (Hin y row Hy Hne) as (s & Hs & Heq).
        exists s. split; [|done]. apply elem_of_app. by right.
Qed.

Lemma foldl_vmin_le (qs : list Q) (a : Q) :
  ∃ m, foldl vmin (Some a) (Some <$> qs) = Some m
    ∧ (m <= a)%Q ∧ Forall (λ q, m <= q)%Q qs.
Proof.
  revert a. induction qs as [|q qs IH]; intros a.
  - exists a. split; [done|]. split; [lra|constructor].
  - rewrite fmap_cons. cbn [foldl vmin].
    destruct (IH (if Qle_bool a q then a else q)) as (m & -> & Hle & Hall).
    exists m. split; [done|].
    destruct (Qle_bool a q) eqn:E.
    + apply Qle_bool_iff in E. split; [done|]. constructor; [lra|done].
    + apply not_true_iff_false in E. rewrite Qle_bool_iff in E.
      split; [lra|]. by constructor.
Qed.

Lemma foldl_vmax_ge (qs : list Q) (a : Q) :
  ∃ m, foldl vmax (Some a) (Some <$> qs) = Some m
    ∧ (a <= m)%Q ∧ Forall (λ q, q <= m)%Q qs.
Proof.
  revert a. induction qs as [|q qs IH]; intros a.
  - exists a. split; [done|]. split; [lra|constructor].
  - rewrite fmap_cons. cbn [foldl vmax].
    destruct (IH (if Qle_bool a q then q else a)) as (m & -> & Hle & Hall).
    exists m. split; [done|].
    destruct (Qle_bool a q) eqn:E.
    + apply Qle_bool_iff in E. split; [lra|]. by constructor.
    + apply not_true_iff_false in E. rewrite Qle_bool_iff in E.
      split; [done|]. constructor; [lra|done].
Qed.

Lemma np_min_le (qs : list Q) (lo : Val) :
  np_min (Some <$> qs) = Ok lo →
  ∃ m, lo = Some m ∧ Forall (λ q, m <= q)%Q qs.
Proof.
  destruct qs as [|q qs]; [done|]. rewrite fmap_cons. cbn [np_min].
  destruct (foldl_vmin_le qs q) as (m & -> & Hle & Hall).
  intros [= <-]. exists m. split; [done|]. by constructor.
Qed.

Lemma np_max_ge (qs : list Q) (hi : Val) :
  np_max (Some <$> qs) = Ok hi →
  ∃ m, hi = Some m ∧ Forall (λ q, q <= m)%Q qs.
Proof.
  destruct qs as [|q qs]; [done|]. rewrite fmap_cons. cbn [np_max].
  destruct (foldl_vmax_ge qs q) as (m & -> & Hle & Hall).
  intros [= <-]. exists m. split; [done|]. by constructor.
Qed.

(** [x_step * floor(v / x_step)] and [x_step * ceil(v / x_step)] for a
    positive step: the multiples of the step next to [v]. *)
Lemma floor_to_le (step v : Q) :
  (0 < step)%Q →
  ∃ k : Z, floor_to step (Some v) = Some (step * inject_Z k)%Q
    ∧ (step * inject_Z k <= v)%Q ∧ (v < step * inject_Z k + step)%Q.
Proof.
  intros Hstep. unfold floor_to.
  destruct (Qeq_bool step 0) eqn:E.
  { apply Qeq_bool_iff in E. lra. }
  exists (Qfloor (v / step)). split; [done|].
  pose proof (Qfloor_le (v / step)) as H1.
  pose proof (Qlt_floor (v / step)) as H2.
  rewrite inject_Z_plus in H2.
  assert (Hv : (v == step * (v / step))%Q) by (field; lra).
  assert (A : (step * inject_Z (Qfloor (v / step)) <= step * (v / step))%Q)
    by (by apply Qmult_le_l).
  assert (B : (step * (v / step)
               < step * (inject_Z (Qfloor (v / step)) + inject_Z 1))%Q)
    by (by apply Qmult_lt_l).
  assert (C : (step * (inject_Z (Qfloor (v / step)) + inject_Z 1)
               == step * inject_Z (Qfloor (v / step)) + step)%Q) by ring.
  rewrite C in B. rewrite <- Hv in A, B. done.
Qed.

Lemma ceil_to_ge (step v : Q) :
  (0 < step)%Q →
  ∃ k : Z, ceil_to step (Some v) = Some (step * inject_Z k)%Q
    ∧ (v <= step * inject_Z k)%Q ∧ (step * inject_Z k - step < v)%Q.
Proof.
  intros Hstep. unfold ceil_to.
  destruct (Qeq_bool step 0) eqn:E.
  { apply Qeq_bool_iff in E. lra. }
  exists (Qceiling (v / step)). split; [done|].
  pose proof (Qle_ceiling (v / step)) as H1.
  pose proof (Qceiling_lt (v / step)) as H2.
  unfold Z.sub in H2. rewrite inject_Z_plus, inject_Z_opp in H2.
  assert (Hv : (v == step * (v / step))%Q) by (field; lra).
  assert (A : (step * (v / step) <= step * inject_Z (Qceiling (v / step)))%Q)
    by (by apply Qmult_le_l).
  assert (B : (step * (inject_Z (Qceiling (v / step)) - inject_Z 1)
               < step * (v / step))%Q)
    by (by apply Qmult_lt_l).
  assert (C : (step * (inject_Z (Qceiling (v / step)) - inject_Z 1)
               == step * inject_Z (Qceiling (v / step)) - step)%Q) by ring.
  rewrite C in B. rewrite <- Hv in A, B. done.
Qed.

End signs.

Section run.
Variables (py : Printer) (cfg : Config).

(** The drawing of a call that finds a colour for every column: the two
    passes, then what the statements after the passes have done. *)
Lemma plot_vbars_run (h : Heap) (df : ref) (ax : option Axes)
    (d d' : DataFrame Label) :
  h !! df = Some (PFrame d) →
  index_totals py cfg d = Ok d' →
  rectangular d → index d ≠ [] → columns d ≠ [] →
  (is_category_names_colors cfg = true →
   (length (columns d) ≤ length (vcolors py cfg d'))%nat) →
  let r := plot_vbars py h df cfg ax in
  let labels := (results_of d').*1 in
  let np_data := (results_of d').*2 in
  let vtotals := np_sum <$> np_data in
  let initial := (λ row : list Val, Qsum (where_neg <$> row)) <$> np_data in
  let zeros :=
    Qmult 0 <$> starts_at (wcol_neg np_data) initial 0 (length (columns d)) in
  ∃ bvm,
    (if add_bar_value_at_mid cfg then Ok nan
     else np_max (mjoin (np_cumsum <$> np_data))) = Ok bvm
    ∧ hdrawn r
      = invert_yaxis
        :: mjoin (imap (λ i nm,
                    turn py cfg labels vtotals bvm neg_pass
                      (wcol_neg np_data) (ccol_neg np_data) xc_neg i nm
                      (starts_at (wcol_neg np_data) initial 0 i)) (columns d))
        ++ mjoin (imap (λ i nm,
                    turn py cfg labels vtotals bvm pos_pass
                      (ccol_pos np_data) (ccol_pos np_data) xc_pos i nm
                      (starts_at (ccol_pos np_data) zeros 0 i)) (columns d))
        ++ (run_steps (finish py cfg np_data vtotals)).1
    ∧ hreturned r
      = ((run_steps (finish py cfg np_data vtotals)).2 ≫= λ _,
         Ok (match ax with None => Some NewFigure | Some _ => None end)).
Proof.
  intros Ht Hd' Hrect Hidx Hcols Hcover. cbv zeta.
  destruct (np_data_rows py cfg d d' Hd' Hrect Hidx) as (Hne & Hrows & _).
  assert (Hrows' : Forall (λ row : list Val, row ≠ []) (results_of d').*2).
  { eapply Forall_impl; [exact Hrows|]. intros row Hlen ->.
    destruct (columns d); [done|discriminate]. }
  destruct (plot_vbars_trace py cfg h df ax d d' Ht Hd')
    as [(_ & _ & [?|[_ [e He]]])
       |(bvm & Hbvm & [(k & Hk & Hon & Hlen & _)
                      |(_ & tail & Hdrawn & _ & Hret)])].
  { done. }
  { destruct (np_max_rows np_cumsum (results_of d').*2) as [m Hm]; try done.
    - apply np_cumsum_nonempty.
    - congruence. }
  { specialize (Hcover Hon). lia. }
  destruct (Hret Hcols) as [-> Hreturned].
  exists bvm. by split_and!.
Qed.

Lemma elem_of_segment_texts (site : Site) (vt : list Val) (bvm : Val)
    (xs cs : list Q) (op : HOp) :
  op ∈ segment_texts py cfg site vt bvm xs cs ↔
  is_add_bar_values cfg = true
  ∧ ∃ y x c, xs !! y = Some x ∧ cs !! y = Some c ∧ isclose0 c = false
      ∧ op = text_segment site
               (if add_bar_value_at_mid cfg then Some x else bvm) y
               (segment_label py cfg vt y c).
Proof.
  unfold segment_texts. destruct (is_add_bar_values cfg).
  2:{ rewrite elem_of_nil. split; [done|by intros [? _]]. }
  rewrite list_elem_of_join. split.
  - intros (ops & Hin & Hops).
    apply list_elem_of_lookup in Hops as (y & Hy).
    apply list_lookup_imap_Some in Hy as ([x c] & Hz & ->).
    destruct (isclose0 c) eqn:Ec; simpl in Hin; [by apply elem_of_nil in Hin|].
    apply list_elem_of_singleton in Hin as ->.
    apply lookup_zip_with_Some in Hz as (? & ? & [= <- <-] & ? & ?).
    split; [done|]. by exists y, x, c.
  - intros (_ & y & x & c & Hx & Hc & Ec & ->).
    eexists. split; [apply list_elem_of_singleton; reflexivity|].
    apply list_elem_of_lookup. exists y.
    rewrite list_lookup_imap, lookup_zip_with, Hx, Hc. simpl. by rewrite Ec.
Qed.

Lemma elem_of_passes (labels : list Label) (vt : list Val) (bvm : Val)
    (site : nat → Site) (wcol ccol : nat → list Q)
    (xc : list Q → list Q → list Q) (st : nat → list Q)
    (names : list string) (op : HOp) :
  op ∈ mjoin (imap (λ i nm, turn py cfg labels vt bvm site wcol ccol xc i nm
                              (st i)) names) ↔
  ∃ i nm, names !! i = Some nm
    ∧ (op = barh (site i) labels (wcol i) (st i) nm
       ∨ op ∈ segment_texts py cfg (site i) vt bvm (xc (st i) (ccol i)) (ccol i)).
Proof.
  rewrite list_elem_of_join. split.
  - intros (ops & Hin & Hops). apply list_elem_of_lookup in Hops as (i & Hi).
    apply list_lookup_imap_Some in Hi as (nm & Hnm & ->).
    exists i, nm. split; [done|]. by apply elem_of_cons in Hin.
  - intros (i & nm & Hnm & Hop). eexists. split; [by apply elem_of_cons|].
    apply list_elem_of_lookup. exists i. by rewrite list_lookup_imap, Hnm.
Qed.

Lemma length_starts_at (wcol : nat → list Q) (l : list Q) (off k : nat) :
  (∀ j, length (wcol j) = length l) →
  length (starts_at wcol l off k) = length l.
Proof.
  unfold starts_at. revert l off. induction k as [|k IH]; intros l off Hw; [done|].
  cbn [seq foldl]. rewrite IH.
  - rewrite length_zip_with, Hw. lia.
  - intros j. rewrite length_zip_with, !Hw. lia.
Qed.

(** The segments drawn, whether the call returns or raises: each call
    [ax.barh] belongs to a column and a pass, and holds the labels, the
    widths of the pass at that column and the starts reached there. *)
Lemma barh_in_drawn (h : Heap) (df : ref) (ax : option Axes)
    (d d' : DataFrame Label) (s : Site) (lbls : list Label) (ws ls : list Q)
    (nm : string) :
  h !! df = Some (PFrame d) →
  index_totals py cfg d = Ok d' →
  let np_data := (results_of d').*2 in
  let initial := (λ row : list Val, Qsum (where_neg <$> row)) <$> np_data in
  let zeros :=
    Qmult 0 <$> starts_at (wcol_neg np_data) initial 0 (length (columns d)) in
  barh s lbls ws ls nm ∈ hdrawn (plot_vbars py h df cfg ax) →
  ∃ i, columns d !! i = Some nm ∧ lbls = (results_of d').*1
    ∧ ((s = neg_pass i ∧ ws = wcol_neg np_data i
        ∧ ls = starts_at (wcol_neg np_data) initial 0 i)
       ∨ (s = pos_pass i ∧ ws = ccol_pos np_data i
          ∧ ls = starts_at (ccol_pos np_data) zeros 0 i)).
Proof.
  intros Ht Hd'. cbv zeta. intros Hin.
  destruct (plot_vbars_drawn_elem py cfg h df ax d d' _ Ht Hd' Hin)
    as [?|(bvm & i & nm' & _ & Hnm & [Hop|Hop])]; [done| |].
  - apply elem_of_cons in Hop as [Heq|Hop].
    + injection Heq as -> -> -> -> ->. exists i. split_and!; try done. by left.
    + by apply elem_of_segment_texts in Hop as (_ & ? & ? & ? & _ & _ & _ & ?).
  - apply elem_of_cons in Hop as [Heq|Hop].
    + injection Heq as -> -> -> -> ->. exists i. split_and!; try done. by right.
    + by apply elem_of_segment_texts in Hop as (_ & ? & ? & ? & _ & _ & _ & ?).
Qed.

(** X24.  When the colours run out.  Under [is_category_names_colors]
    (the default) the colour of column [i] is [colors[i]]; without
    colours of the caller's, and with more than one column, the colours
    are those [put.compute_heatmap_colors] gives for the sums of the rows.
    For a table with rows and fewer colours than columns, the look-up of
    the first column without a colour raises [IndexError] in the negative
    pass: the segments of the negative pass of the columns before it have
    been drawn, and nothing of the positive pass; the caller's table is as
    lines 213-214 left it. *)
Theorem plot_vbars_colours_run_out (h : Heap) (df : ref) (ax : option Axes)
    (d d' : DataFrame Label) :
  h !! df = Some (PFrame d) →
  index_totals py cfg d = Ok d' →
  rectangular d → index d ≠ [] →
  is_category_names_colors cfg = true →
  (length (vcolors py cfg d') < length (columns d))%nat →
  let r := plot_vbars py h df cfg ax in
  let n := length (vcolors py cfg d') in
  hreturned r = Raise IndexError
  ∧ hheap r = <[df := PFrame d']> h
  ∧ (∀ s lbls ws ls nm, barh s lbls ws ls nm ∈ hdrawn r →
       ∃ i, s = neg_pass i ∧ (i < n)%nat ∧ columns d !! i = Some nm)
  ∧ (∀ i nm, (i < n)%nat → columns d !! i = Some nm →
       ∃ lbls ws ls, barh (neg_pass i) lbls ws ls nm ∈ hdrawn r)
  ∧ (colors cfg = None → length (columns d) ≠ 1%nat →
     vcolors py cfg d' = compute_heatmap_colors py (np_sum <$> values d)).
Proof.
  intros Ht Hd' Hrect Hidx Hon Hshort. cbv zeta.
  destruct (np_data_rows py cfg d d' Hd' Hrect Hidx) as (Hne & Hrows & _).
  assert (Hcols : columns d ≠ []).
  { intros Hc. rewrite Hc in Hshort. simpl in Hshort. lia. }
  assert (Hrows' : Forall (λ row : list Val, row ≠ []) (results_of d').*2).
  { eapply Forall_impl; [exact Hrows|]. intros row Hlen ->.
    destruct (columns d); [done|discriminate]. }
  destruct (index_totals_frame py cfg d d' Hd') as (Hc & Hv & _).
  split_and!.
  5:{ intros Hnone Hone. unfold vcolors.
      rewrite Hnone, Hon, Hc, Hv. by rewrite decide_False. }
  2:{ by rewrite (plot_vbars_heap py h df cfg ax d Ht), Hd'. }
  all: destruct (plot_vbars_trace py cfg h df ax d d' Ht Hd')
         as [(_ & _ & [?|[_ [e He]]])
            |(bvm & Hbvm & [(k & Hk & _ & Hlen & Hdrawn & Hret)
                           |(Hcover & _)])];
    [done
    |destruct (np_max_rows np_cumsum (results_of d').*2) as [m Hm];
       [apply np_cumsum_nonempty|done|done|congruence]
    |
    |specialize (Hcover Hon); lia].
  - done.
  - intros s lbls ws ls nm Hin. rewrite Hdrawn in Hin.
    apply elem_of_cons in Hin as [?|Hin]; [done|].
    apply elem_of_passes in Hin as (i & nm' & Hnm & [Heq|Hin]).
    + injection Heq as -> -> -> -> ->.
      apply lookup_take_Some in Hnm as [Hnm Hi].
      exists i. split; [done|]. split; [lia|done].
    + by apply elem_of_segment_texts in Hin as (_ & ? & ? & ? & _ & _ & _ & ?).
  - intros i nm Hi Hnm. rewrite Hdrawn. eexists _, _, _.
    right. apply elem_of_passes. exists i, nm. split; [|by left].
    apply lookup_take_Some. split; [done|lia].
Qed.

(** Where the segments of a row lie. *)
Lemma barh_row_bounds (h : Heap) (df : ref) (ax : option Axes)
    (d d' : DataFrame Label) (y : nat) (row : list Val) :
  h !! df = Some (PFrame d) →
  index_totals py cfg d = Ok d' →
  rectangular d → index d ≠ [] → columns d ≠ [] →
  (results_of d').*2 !! y = Some row →
  ∀ s lbls ws ls nm,
    barh s lbls ws ls nm ∈ hdrawn (plot_vbars py h df cfg ax) →
    ∃ left w, ls !! y = Some left ∧ ws !! y = Some w ∧ (0 <= w)%Q
      ∧ match s with
        | neg_pass _ =>
            (Qsum (where_neg <$> row) <= left ∧ left + w <= 0)%Q
        | pos_pass _ =>
            (0 <= left ∧ left + w <= Qsum (where_pos <$> row))%Q
        end.
Proof.
  intros Ht Hd' Hrect Hidx Hcols Hy.
  destruct (np_data_rows py cfg d d' Hd' Hrect Hidx) as (_ & Hrows & _).
  assert (Hlen : length row = length (columns d)).
  { rewrite Forall_forall in Hrows. by eapply Hrows, list_elem_of_lookup_2. }
  assert (Hwn : ∀ j v, row !! j = Some v →
            wcol_neg (results_of d').*2 j !! y = Some (Qabs (where_neg v))).
  { intros j v Hj. unfold wcol_neg.
    by rewrite !list_lookup_fmap, (column_lookup _ _ _ _ Hy), Hj. }
  assert (Hwp : ∀ j v, row !! j = Some v →
            ccol_pos (results_of d').*2 j !! y = Some (where_pos v)).
  { intros j v Hj. unfold ccol_pos.
    by rewrite !list_lookup_fmap, (column_lookup _ _ _ _ Hy), Hj. }
  assert (Hcell : ∀ j nm, columns d !! j = Some nm →
            (j < length row)%nat ∧ ∃ v, row !! j = Some v).
  { intros j nm Hj. apply lookup_lt_Some in Hj. rewrite <- Hlen in Hj.
    split; [done|]. by apply lookup_lt_is_Some. }
  assert (Habs : Forall (λ x, 0 <= x)%Q ((Qabs ∘ where_neg) <$> row)).
  { apply Forall_fmap, Forall_forall. intros v _. apply Qabs_nonneg. }
  assert (Hpos : Forall (λ x, 0 <= x)%Q (where_pos <$> row)).
  { apply Forall_fmap, Forall_forall. intros v _. apply where_pos_nonneg. }
  intros s lbls ws ls nm Hin.
    apply (barh_in_drawn h df ax d d' _ _ _ _ _ Ht Hd') in Hin.
    destruct Hin as (i & Hnm & _ & [(-> & -> & ->)|(-> & -> & ->)]);
      destruct (Hcell i nm Hnm) as (Hi & v & Hv).
    + destruct (neg_start (results_of d').*2 y i row Hy) as (left & -> & Hl);
        [lia|].
      exists left, (Qabs (where_neg v)). split; [done|]. split; [by apply Hwn|].
      split; [apply Qabs_nonneg|].
      pose proof (Qsum_abs_where_neg row) as HN.
      assert (HS : (Qsum ((Qabs ∘ where_neg) <$> take (S i) row)
                    == Qsum ((Qabs ∘ where_neg) <$> take i row)
                       + Qabs (where_neg v))%Q)
        by exact (Qsum_take_S (Qabs ∘ where_neg) row i v Hv).
      pose proof (Qsum_take_le ((Qabs ∘ where_neg) <$> row) (S i) Habs) as Hle.
      pose proof (Qsum_nonneg (take i ((Qabs ∘ where_neg) <$> row))
                    (Forall_take _ _ _ Habs)) as H0.
      rewrite <- !fmap_take in *. lra.
    + destruct (pos_start (results_of d').*2 (length (columns d)) y i row Hy)
        as (left & -> & Hl); [lia|lia|].
      exists left, (where_pos v). split; [done|]. split; [by apply Hwp|].
      split; [apply where_pos_nonneg|].
      pose proof (Qsum_take_S where_pos row i v Hv) as HS.
      pose proof (Qsum_take_le (where_pos <$> row) (S i) Hpos) as Hle.
      pose proof (Qsum_nonneg (take i (where_pos <$> row))
                    (Forall_take _ _ _ Hpos)) as H0.
      rewrite <- !fmap_take in *. lra.
Qed.

(** X8.  The chart diverges from zero.  In every row, each segment of
    the negative pass lies between the sum of the row's negative values
    and zero, and each segment of the positive pass between zero and the
    sum of the row's positive values; widths are never negative; and
    within a pass the segment of the next column starts where the segment
    of this column ends. *)
Theorem plot_vbars_segments_diverge (h : Heap) (df : ref) (ax : option Axes)
    (d d' : DataFrame Label) :
  h !! df = Some (PFrame d) →
  index_totals py cfg d = Ok d' →
  rectangular d → index d ≠ [] → columns d ≠ [] →
  let r := plot_vbars py h df cfg ax in
  ∀ y row, (results_of d').*2 !! y = Some row →
    (∀ s lbls ws ls nm, barh s lbls ws ls nm ∈ hdrawn r →
       ∃ left w, ls !! y = Some left ∧ ws !! y = Some w ∧ (0 <= w)%Q
         ∧ match s with
           | neg_pass _ =>
               (Qsum (where_neg <$> row) <= left ∧ left + w <= 0)%Q
           | pos_pass _ =>
               (0 <= left ∧ left + w <= Qsum (where_pos <$> row))%Q
           end)
    ∧ (∀ site i lbls ws ls nm lbls' ws' ls' nm',
         site = neg_pass ∨ site = pos_pass →
         barh (site i) lbls ws ls nm ∈ hdrawn r →
         barh (site (S i)) lbls' ws' ls' nm' ∈ hdrawn r →
         ∃ left w left', ls !! y = Some left ∧ ws !! y = Some w
           ∧ ls' !! y = Some left' ∧ (left' == left + w)%Q).
Proof.
  intros Ht Hd' Hrect Hidx Hcols r y row Hy. subst r.
  destruct (np_data_rows py cfg d d' Hd' Hrect Hidx) as (_ & Hrows & _).
  assert (Hlen : length row = length (columns d)).
  { rewrite Forall_forall in Hrows. by eapply Hrows, list_elem_of_lookup_2. }
  assert (Hwn : ∀ j v, row !! j = Some v →
            wcol_neg (results_of d').*2 j !! y = Some (Qabs (where_neg v))).
  { intros j v Hj. unfold wcol_neg.
    by rewrite !list_lookup_fmap, (column_lookup _ _ _ _ Hy), Hj. }
  assert (Hwp : ∀ j v, row !! j = Some v →
            ccol_pos (results_of d').*2 j !! y = Some (where_pos v)).
  { intros j v Hj. unfold ccol_pos.
    by rewrite !list_lookup_fmap, (column_lookup _ _ _ _ Hy), Hj. }
  assert (Hcell : ∀ j nm, columns d !! j = Some nm →
            (j < length row)%nat ∧ ∃ v, row !! j = Some v).
  { intros j nm Hj. apply lookup_lt_Some in Hj. rewrite <- Hlen in Hj.
    split; [done|]. by apply lookup_lt_is_Some. }
  assert (Habs : Forall (λ x, 0 <= x)%Q ((Qabs ∘ where_neg) <$> row)).
  { apply Forall_fmap, Forall_forall. intros v _. apply Qabs_nonneg. }
  assert (Hpos : Forall (λ x, 0 <= x)%Q (where_pos <$> row)).
  { apply Forall_fmap, Forall_forall. intros v _. apply where_pos_nonneg. }
  split; [by apply (barh_row_bounds h df ax d d')|].
  - intros site i lbls ws ls nm lbls' ws' ls' nm' Hsite Hin Hin'.
    apply (barh_in_drawn h df ax d d' _ _ _ _ _ Ht Hd') in Hin.
    apply (barh_in_drawn h df ax d d' _ _ _ _ _ Ht Hd') in Hin'.
    destruct Hin as (i0 & Hnm & _ & Hcase).
    destruct Hin' as (i1 & Hnm' & _ & Hcase').
    destruct Hsite as [-> | ->].
    + destruct Hcase as [([= <-] & -> & ->)|([=] & _)].
      destruct Hcase' as [([= <-] & -> & ->)|([=] & _)].
      destruct (Hcell i nm Hnm) as (Hi & v & Hv).
      destruct (Hcell (S i) nm' Hnm') as (Hi' & _).
      destruct (neg_start (results_of d').*2 y i row Hy) as (left & -> & Hl);
        [lia|].
      destruct (neg_start (results_of d').*2 y (S i) row Hy)
        as (left' & -> & Hl'); [lia|].
      exists left, (Qabs (where_neg v)), left'.
      split; [done|]. split; [by apply Hwn|]. split; [done|].
      assert (HS : (Qsum ((Qabs ∘ where_neg) <$> take (S i) row)
                    == Qsum ((Qabs ∘ where_neg) <$> take i row)
                       + Qabs (where_neg v))%Q)
        by exact (Qsum_take_S (Qabs ∘ where_neg) row i v Hv).
      lra.
    + destruct Hcase as [([=] & _)|([= <-] & -> & ->)].
      destruct Hcase' as [([=] & _)|([= <-] & -> & ->)].
      destruct (Hcell i nm Hnm) as (Hi & v & Hv).
      destruct (Hcell (S i) nm' Hnm') as (Hi' & _).
      destruct (pos_start (results_of d').*2 (length (columns d)) y i row Hy)
        as (left & -> & Hl); [lia|lia|].
      destruct (pos_start (results_of d').*2 (length (columns d)) y (S i) row Hy)
        as (left' & -> & Hl'); [lia|lia|].
      exists left, (where_pos v), left'.
      split; [done|]. split; [by apply Hwp|]. split; [done|].
      pose proof (Qsum_take_S where_pos row i v Hv) as HS. lra.
Qed.

Lemma isclose0_one_sign (v : Val) :
  ¬ (isclose0 (where_neg v) = false ∧ isclose0 (where_pos v) = false).
Proof.
  intros [Hn Hp]. destruct v as [x|]; [|done]. simpl in *.
  destruct (Qltb x 0) eqn:En; [|done].
  destruct (Qltb 0 x) eqn:Ep; [|done].
  apply Qltb_true in En, Ep. lra.
Qed.

(** X9.  The values written on the segments, for a table with rows and
    columns for which a colour is found for every column
    ([is_category_names_colors] is off, or there are at least as many
    colours as columns), so that both passes are drawn.  With
    [is_add_bar_values],
    the cell of row [y] and column [i] gets its text in the negative pass
    exactly when its negative part is not close to zero, and in the
    positive pass exactly when its positive part is not; never in both.
    The text is the formatted part (with its share of the row's sum when
    [add_bar_perc_values] is set); it sits at the middle of the segment,
    or, without [add_bar_value_at_mid], at the largest cumulative sum of
    the table.  Without [is_add_bar_values] no text is written. *)
Theorem plot_vbars_segment_texts (h : Heap) (df : ref) (ax : option Axes)
    (d d' : DataFrame Label) :
  h !! df = Some (PFrame d) →
  index_totals py cfg d = Ok d' →
  rectangular d → index d ≠ [] → columns d ≠ [] →
  (is_category_names_colors cfg = true →
   (length (columns d) ≤ length (vcolors py cfg d'))%nat) →
  let r := plot_vbars py h df cfg ax in
  let np_data := (results_of d').*2 in
  let vtotals := np_sum <$> np_data in
  ∀ y row i nm v,
    np_data !! y = Some row → columns d !! i = Some nm → row !! i = Some v →
    ∃ bvm lneg lpos,
      (if add_bar_value_at_mid cfg then Ok nan
       else np_max (mjoin (np_cumsum <$> np_data))) = Ok bvm
      ∧ (lneg == Qsum (where_neg <$> row)
                 + Qsum ((Qabs ∘ where_neg) <$> take i row))%Q
      ∧ (lpos == Qsum (where_pos <$> take i row))%Q
      ∧ (∀ x label,
           text_segment (neg_pass i) x y label ∈ hdrawn r ↔
           is_add_bar_values cfg = true ∧ isclose0 (where_neg v) = false
           ∧ label = segment_label py cfg vtotals y (where_neg v)
           ∧ x = if add_bar_value_at_mid cfg
                 then Some (lneg + Qabs (where_neg v) / 2)%Q else bvm)
      ∧ (∀ x label,
           text_segment (pos_pass i) x y label ∈ hdrawn r ↔
           is_add_bar_values cfg = true ∧ isclose0 (where_pos v) = false
           ∧ label = segment_label py cfg vtotals y (where_pos v)
           ∧ x = if add_bar_value_at_mid cfg
                 then Some (lpos + where_pos v / 2)%Q else bvm)
      ∧ ¬ (isclose0 (where_neg v) = false ∧ isclose0 (where_pos v) = false).
Proof.
  intros Ht Hd' Hrect Hidx Hcols Hcover r np_data vtotals y row i nm v Hy Hnm Hv.
  subst r np_data vtotals.
  destruct (np_data_rows py cfg d d' Hd' Hrect Hidx) as (_ & Hrows & _).
  assert (Hlen : length row = length (columns d)).
  { rewrite Forall_forall in Hrows. by eapply Hrows, list_elem_of_lookup_2. }
  assert (Hi : (i < length row)%nat) by (by eapply lookup_lt_Some).
  destruct (plot_vbars_run h df ax d d' Ht Hd' Hrect Hidx Hcols Hcover)
    as (bvm & Hbvm & -> & _).
  pose proof (finish_other py cfg (results_of d').*2
                (np_sum <$> (results_of d').*2)) as Hother.
  rewrite Forall_forall in Hother.
  destruct (neg_start (results_of d').*2 y i row Hy) as (lneg & Hlneg & Hln);
    [lia|].
  destruct (pos_start (results_of d').*2 (length (columns d)) y i row Hy)
    as (lpos & Hlpos & Hlp); [lia|lia|].
  assert (Hcn : ccol_neg (results_of d').*2 i !! y = Some (where_neg v)).
  { unfold ccol_neg. by rewrite list_lookup_fmap, (column_lookup _ _ _ _ Hy), Hv. }
  assert (Hcp : ccol_pos (results_of d').*2 i !! y = Some (where_pos v)).
  { unfold ccol_pos. by rewrite list_lookup_fmap, (column_lookup _ _ _ _ Hy), Hv. }
  exists bvm, lneg, lpos. split; [done|]. split; [done|]. split; [done|].
  split; [|split; [|apply isclose0_one_sign]].
  - intros x label. rewrite elem_of_cons, !elem_of_app, !elem_of_passes. split.
    + intros [?|[(i' & nm' & _ & [?|Hin])|[(i' & nm' & _ & [?|Hin])|Hin]]];
        try done.
      * apply elem_of_segment_texts in Hin
          as (Hadd & y' & xq & c & Hx & Hc & Ec & [= <- -> <- ->]).
        rewrite Hcn in Hc. injection Hc as <-.
        unfold xc_neg in Hx.
        apply lookup_zip_with_Some in Hx as (l0 & c0 & -> & Hl0 & Hc0).
        rewrite Hlneg in Hl0. rewrite Hcn in Hc0.
        injection Hl0 as <-. injection Hc0 as <-. done.
      * by apply elem_of_segment_texts in Hin
          as (_ & ? & ? & ? & _ & _ & _ & [=]).
      * by apply Hother in Hin.
    + intros (Hadd & Ec & -> & ->). right. left. exists i, nm.
      split; [done|]. right. apply elem_of_segment_texts. split; [done|].
      exists y, (lneg + Qabs (where_neg v) / 2)%Q, (where_neg v).
      split; [|done]. unfold xc_neg. by rewrite lookup_zip_with, Hlneg, Hcn.
  - intros x label. rewrite elem_of_cons, !elem_of_app, !elem_of_passes. split.
    + intros [?|[(i' & nm' & _ & [?|Hin])|[(i' & nm' & _ & [?|Hin])|Hin]]];
        try done.
      * by apply elem_of_segment_texts in Hin
          as (_ & ? & ? & ? & _ & _ & _ & [=]).
      * apply elem_of_segment_texts in Hin
          as (Hadd & y' & xq & c & Hx & Hc & Ec & [= <- -> <- ->]).
        rewrite Hcp in Hc. injection Hc as <-.
        unfold xc_pos in Hx.
        apply lookup_zip_with_Some in Hx as (l0 & c0 & -> & Hl0 & Hc0).
        rewrite Hlpos in Hl0. rewrite Hcp in Hc0.
        injection Hl0 as <-. injection Hc0 as <-. done.
      * by apply Hother in Hin.
    + intros (Hadd & Ec & -> & ->). right. right. left. exists i, nm.
      split; [done|]. right. apply elem_of_segment_texts. split; [done|].
      exists y, (lpos + where_pos v / 2)%Q, (where_pos v).
      split; [|done]. unfold xc_pos. by rewrite lookup_zip_with, Hlpos, Hcp.
Qed.

(** The statements after the passes, for a table with rows: the marks
    of the totals come first and are drawn whatever raises later; the
    other calls mark no total. *)
Lemma finish_totals (np_data : list (list Val)) (vtotals : list Val) :
  np_data ≠ [] →
  ∃ tl rest,
    (if add_total_to_left cfg then
       m ← np_max (Some <$> ((λ row : list Val, Qsum (where_pos <$> row))
                             <$> np_data));
       Ok (imap (λ idx (total : Val),
                   text_total
                     (default 0%Q (((λ row : list Val, Qsum (where_pos <$> row))
                                    <$> np_data) !! idx)
                      + match m with
                        | Some mq => if Qle_bool ((2 # 10) * mq) (2 # 10)
                                     then (2 # 10)%Q else ((2 # 10) * mq)%Q
                        | None => (2 # 10)%Q
                        end)%Q idx
                     ("total: " +:+ format py (var_format cfg) total))
             vtotals)
     else Ok []) = Ok tl
    ∧ (run_steps (finish py cfg np_data vtotals)).1
      = match xmin_shift cfg with
        | None => []
        | Some d => [shift_xmin d]
        end
        ++ (if add_total_bar cfg
            then imap (λ idx total, vlines_total total idx) vtotals
            else [])
        ++ tl ++ rest
    ∧ ∀ op, op ∈ rest →
        match op with
        | vlines_total _ _ | text_total _ _ _ => False
        | _ => True
        end.
Proof.
  intros Hne. unfold finish.
  assert (Hmax : ∃ m, np_max (Some <$> ((λ row : list Val,
                                           Qsum (where_pos <$> row)) <$> np_data))
                      = Ok m).
  { destruct np_data as [|row rest]; [done|]. rewrite !fmap_cons.
    cbn. by eexists. }
  destruct Hmax as [m Hmax].
  rewrite 2!PyFacts.run_steps_cons. cbn [fst].
  destruct (if add_total_to_left cfg then _ else _) as [e|tl] eqn:Etl.
  { destruct (add_total_to_left cfg); [|done]. by rewrite Hmax in Etl. }
  rewrite PyFacts.run_steps_cons. cbn [fst].
  exists tl. eexists. split; [reflexivity|]. split; [reflexivity|].
  clear Hmax Etl. intros op Hin.
  apply PyFacts.run_steps_elem in Hin as (ops & Hs & Hop).
  repeat (apply elem_of_cons in Hs as [Hs|Hs]);
    try (by apply elem_of_nil in Hs).
  - destruct (call_kw _ _); [done|]. cbn [fmap Err_fmap] in Hs.
    injection Hs as ->. by apply list_elem_of_singleton in Hop as ->.
  - injection Hs as ->.
    repeat (apply elem_of_cons in Hop as [->|Hop]); try done.
    by apply elem_of_nil in Hop.
  - destruct (call_kw _ _); [done|]. cbn [fmap Err_fmap] in Hs.
    injection Hs as ->. by apply list_elem_of_singleton in Hop as ->.
  - destruct (call_kw _ _); [done|]. cbn [fmap Err_fmap] in Hs.
    injection Hs as ->. by apply list_elem_of_singleton in Hop as ->.
  - destruct (x_step cfg).
    2:{ injection Hs as ->. by apply elem_of_nil in Hop. }
    destruct (np_min _) as [e|lo]; [done|]. cbn [mbind Err_bind] in Hs.
    destruct (np_max _) as [e|hi]; [done|]. cbn [mbind Err_bind] in Hs.
    injection Hs as ->. by apply list_elem_of_singleton in Hop as ->.
  - injection Hs as ->. destruct (rows_edge_lines cfg); [|by apply elem_of_nil in Hop].
    by apply list_elem_of_fmap in Hop as (? & -> & _).
Qed.

(** The limits set by lines 372-376, in a call whose statements after the
    passes all run. *)
Lemma finish_limits (np_data : list (list Val)) (vtotals : list Val)
    (step : Q) :
  x_step cfg = Some step →
  (run_steps (finish py cfg np_data vtotals)).2 = Ok () →
  ∃ lo hi,
    np_min (mjoin ((λ row : list Val,
                      np_cumsum ((λ v, Some (where_neg v)) <$> row))
                   <$> np_data)) = Ok lo
    ∧ np_max (mjoin ((λ row : list Val,
                        np_cumsum ((λ v, Some (where_pos v)) <$> row))
                     <$> np_data)) = Ok hi
    ∧ set_x_limits (floor_to step lo) (ceil_to step hi)
      ∈ (run_steps (finish py cfg np_data vtotals)).1.
Proof.
  intros Hstep Hok.
  assert (Hin : (lo ← np_min (mjoin ((λ row : list Val,
                                        np_cumsum ((λ v, Some (where_neg v)) <$> row))
                                     <$> np_data));
                 hi ← np_max (mjoin ((λ row : list Val,
                                        np_cumsum ((λ v, Some (where_pos v)) <$> row))
                                     <$> np_data));
                 Ok [set_x_limits (floor_to step lo) (ceil_to step hi)])
                ∈ finish py cfg np_data vtotals).
  { unfold finish. rewrite Hstep. do 7 right. left. }
  destruct (PyFacts.run_steps_all_ok _ _ Hok Hin) as [ops Hops].
  rewrite Hops in Hin.
  destruct (np_min _) as [e|lo]; [done|]. cbn [mbind Err_bind] in Hops.
  destruct (np_max _) as [e|hi]; [done|]. cbn [mbind Err_bind] in Hops.
  injection Hops as <-. exists lo, hi. split; [done|]. split; [done|].
  apply (PyFacts.run_steps_elem_ok _ _ _ Hok Hin). by left.
Qed.

(** X10.  The marks of the totals, for a table with rows and columns for
    which a colour is found for every column, so that both passes are
    drawn; the marks are drawn also when a later statement of the call
    raises.  With [add_total_bar], every row gets
    one tick, at the sum of the row as [np.sum] gives it (NaN as soon as a
    cell of the row is missing), whatever totals the caller supplied; and
    no tick is drawn otherwise.  With [add_total_to_left], the text of a
    row's total is that same sum, placed at least [0.2] to the right of
    the sum of the row's positive values. *)
Theorem plot_vbars_total_marks (h : Heap) (df : ref) (ax : option Axes)
    (d d' : DataFrame Label) :
  h !! df = Some (PFrame d) →
  index_totals py cfg d = Ok d' →
  rectangular d → index d ≠ [] → columns d ≠ [] →
  (is_category_names_colors cfg = true →
   (length (columns d) ≤ length (vcolors py cfg d'))%nat) →
  let r := plot_vbars py h df cfg ax in
  let np_data := (results_of d').*2 in
  (∀ x idx,
     vlines_total x idx ∈ hdrawn r ↔
     add_total_bar cfg = true
     ∧ ∃ row, np_data !! idx = Some row ∧ x = np_sum row)
  ∧ (∀ x idx label,
       text_total x idx label ∈ hdrawn r →
       add_total_to_left cfg = true
       ∧ ∃ row, np_data !! idx = Some row
           ∧ label = "total: " +:+ format py (var_format cfg) (np_sum row)
           ∧ (Qsum (where_pos <$> row) + (2 # 10) <= x)%Q)
  ∧ (add_total_to_left cfg = true →
     ∀ idx row, np_data !! idx = Some row →
       ∃ x, text_total x idx
              ("total: " +:+ format py (var_format cfg) (np_sum row))
            ∈ hdrawn r).
Proof.
  intros Ht Hd' Hrect Hidx Hcols Hcover r np_data. subst r np_data.
  destruct (plot_vbars_run h df ax d d' Ht Hd' Hrect Hidx Hcols Hcover)
    as (bvm & _ & -> & _).
  destruct (np_data_rows py cfg d d' Hd' Hrect Hidx) as (Hne & _ & _).
  destruct (finish_totals (results_of d').*2 (np_sum <$> (results_of d').*2) Hne)
    as (tl & rest & Htl & Hopseq & Hrest).
  assert (Htexts : ∀ op, op ∈ tl →
            add_total_to_left cfg = true
            ∧ ∃ idx row shift, (results_of d').*2 !! idx = Some row
                ∧ (2 # 10 <= shift)%Q
                ∧ op = text_total (Qsum (where_pos <$> row) + shift)%Q idx
                         ("total: " +:+ format py (var_format cfg) (np_sum row))).
  { intros op Hop. destruct (add_total_to_left cfg);
      [|injection Htl as <-; by apply elem_of_nil in Hop].
    destruct (np_max (Some <$> _)) as [e|m]; [done|].
    cbn [mbind Err_bind] in Htl.
    injection Htl as <-. split; [done|].
    apply list_elem_of_lookup in Hop as (idx & Hidx').
    apply list_lookup_imap_Some in Hidx' as (total & Htot & ->).
    apply list_lookup_fmap_Some in Htot as (row & -> & Hrow).
    exists idx, row. eexists. split; [done|].
    rewrite (list_lookup_fmap _ (results_of d').*2 idx), Hrow. split; [|done].
    destruct m as [mq|]; [|lra].
    destruct (Qle_bool _ _) eqn:E; [lra|].
    apply not_true_iff_false in E. rewrite Qle_bool_iff in E. lra. }
  split_and!.
  - intros x idx.
    rewrite elem_of_cons, !elem_of_app, !elem_of_passes. split.
    + intros [?|[(i' & nm' & _ & [?|Hin])|[(i' & nm' & _ & [?|Hin])|Hin]]];
        try done.
      * by apply elem_of_segment_texts in Hin
          as (_ & ? & ? & ? & _ & _ & _ & ?).
      * by apply elem_of_segment_texts in Hin
          as (_ & ? & ? & ? & _ & _ & _ & ?).
      * rewrite Hopseq, !elem_of_app in Hin.
        destruct Hin as [Hin|[Hin|[Hin|Hin]]].
        -- destruct (xmin_shift cfg); [|by apply elem_of_nil in Hin].
           by apply list_elem_of_singleton in Hin.
        -- destruct (add_total_bar cfg); [|by apply elem_of_nil in Hin].
           split; [done|].
           apply list_elem_of_lookup in Hin as (k & Hk).
           apply list_lookup_imap_Some in Hk as (total & Htot & [= -> ->]).
           apply list_lookup_fmap_Some in Htot as (row & -> & Hrow).
           by exists row.
        -- by apply Htexts in Hin as (_ & ? & ? & ? & _ & _ & ?).
        -- by apply Hrest in Hin.
    + intros (Hbar & row & Hrow & ->). right. right. right.
      rewrite Hopseq, !elem_of_app. right. left. rewrite Hbar.
      apply list_elem_of_lookup. exists idx.
      by rewrite list_lookup_imap,
        (list_lookup_fmap np_sum (results_of d').*2 idx), Hrow.
  - intros x idx label.
    rewrite elem_of_cons, !elem_of_app, !elem_of_passes.
    intros [?|[(i' & nm' & _ & [?|Hin])|[(i' & nm' & _ & [?|Hin])|Hin]]];
      try done.
    + by apply elem_of_segment_texts in Hin
        as (_ & ? & ? & ? & _ & _ & _ & ?).
    + by apply elem_of_segment_texts in Hin
        as (_ & ? & ? & ? & _ & _ & _ & ?).
    + rewrite Hopseq, !elem_of_app in Hin.
      destruct Hin as [Hin|[Hin|[Hin|Hin]]].
      * destruct (xmin_shift cfg); [|by apply elem_of_nil in Hin].
        by apply list_elem_of_singleton in Hin.
      * destruct (add_total_bar cfg); [|by apply elem_of_nil in Hin].
        apply list_elem_of_lookup in Hin as (k & Hk).
        by apply list_lookup_imap_Some in Hk as (total & _ & ?).
      * apply Htexts in Hin
          as (Hleft & idx' & row & shift & Hrow & Hshift & [= -> -> ->]).
        split; [done|]. exists row. split; [done|]. split; [done|]. lra.
      * by apply Hrest in Hin.
  - intros Hleft idx row Hrow. rewrite Hleft in Htl.
    destruct (np_max (Some <$> _)) as [e|m]; [done|].
    cbn [mbind Err_bind] in Htl.
    injection Htl as <-. eexists.
    rewrite elem_of_cons, !elem_of_app. right. right. right.
    rewrite Hopseq, !elem_of_app. right. right. left.
    apply list_elem_of_lookup. exists idx.
    by rewrite list_lookup_imap, (list_lookup_fmap np_sum (results_of d').*2 idx),
      Hrow.
Qed.

(** X11.  The limits of the x-axis under [x_step], for a table with rows
    and columns for which a colour is found for every column, in a call
    that gives no keyword twice (no further keyword argument is one that
    a helper call writes out), so that the statements before lines
    372-376 all run.  For a positive
    step, lines 372-376 set the limits to two multiples of the step that
    enclose every segment of the chart: the lower limit is at most the
    left edge, and the upper limit at least the right edge, of each
    segment of each row. *)
Theorem plot_vbars_x_limits (h : Heap) (df : ref) (ax : option Axes)
    (d d' : DataFrame Label) (step : Q) :
  h !! df = Some (PFrame d) →
  index_totals py cfg d = Ok d' →
  rectangular d → index d ≠ [] → columns d ≠ [] →
  (is_category_names_colors cfg = true →
   (length (columns d) ≤ length (vcolors py cfg d'))%nat) →
  Forall (λ k, k ∉ vbars_keywords) (kwargs cfg) →
  x_step cfg = Some step → (0 < step)%Q →
  let r := plot_vbars py h df cfg ax in
  ∃ klo khi : Z,
    set_x_limits (Some (step * inject_Z klo)%Q) (Some (step * inject_Z khi)%Q)
    ∈ hdrawn r
    ∧ ∀ y s lbls ws ls nm left w,
        barh s lbls ws ls nm ∈ hdrawn r →
        ls !! y = Some left → ws !! y = Some w →
        (step * inject_Z klo <= left ∧ left + w <= step * inject_Z khi)%Q.
Proof.
  intros Ht Hd' Hrect Hidx Hcols Hcover Hkw Hstep Hpos r. subst r.
  destruct (np_data_rows py cfg d d' Hd' Hrect Hidx) as (Hne & Hrows & _).
  assert (Hrows' : Forall (λ row : list Val, row ≠ []) (results_of d').*2).
  { eapply Forall_impl; [exact Hrows|]. intros row Hlen ->.
    destruct (columns d); [done|discriminate]. }
  destruct (plot_vbars_run h df ax d d' Ht Hd' Hrect Hidx Hcols Hcover)
    as (bvm & _ & Hdrawn & _).
  pose proof (finish_returns py cfg (results_of d').*2
                (np_sum <$> (results_of d').*2) Hne Hrows' Hkw) as Hfin.
  destruct (finish_limits (results_of d').*2 (np_sum <$> (results_of d').*2)
              step Hstep Hfin) as (lo & hi & Emin & Emax & Hlim).
  destruct (cumsums_Some where_neg (results_of d').*2) as (qsn & Hqn & Hinn).
  destruct (cumsums_Some where_pos (results_of d').*2) as (qsp & Hqp & Hinp).
  assert (Emin' : np_min (Some <$> qsn) = Ok lo)
    by (rewrite <- Hqn; exact Emin).
  assert (Emax' : np_max (Some <$> qsp) = Ok hi)
    by (rewrite <- Hqp; exact Emax).
  clear Emin Emax.
  apply np_min_le in Emin' as (mn & -> & Hmn).
  apply np_max_ge in Emax' as (mx & -> & Hmx).
  destruct (floor_to_le step mn Hpos) as (klo & Hfloor & Hlo & _).
  destruct (ceil_to_ge step mx Hpos) as (khi & Hceil & Hhi & _).
  rewrite Hfloor, Hceil in Hlim.
  exists klo, khi. split.
  - rewrite Hdrawn, elem_of_cons, !elem_of_app. by do 3 right.
  - intros y s lbls ws ls nm left w Hin Hleft Hw.
    assert (Hrow : ∃ row, (results_of d').*2 !! y = Some row).
    { apply lookup_lt_is_Some.
      apply (barh_in_drawn h df ax d d' _ _ _ _ _ Ht Hd') in Hin.
      apply lookup_lt_Some in Hw.
      destruct Hin as (i & _ & _ & [(_ & -> & _)|(_ & -> & _)]).
      - unfold wcol_neg, column in Hw. rewrite !length_fmap in Hw.
        by rewrite length_fmap.
      - unfold ccol_pos, column in Hw. rewrite !length_fmap in Hw.
        by rewrite length_fmap. }
    destruct Hrow as [row Hrow].
    assert (Hnerow : row ≠ []).
    { rewrite Forall_forall in Hrows.
      pose proof (Hrows row (list_elem_of_lookup_2 _ _ _ Hrow)) as Hlen.
      intros ->. destruct (columns d); [done|discriminate]. }
    destruct (barh_row_bounds h df ax d d' y row Ht Hd' Hrect Hidx Hcols Hrow
                s lbls ws ls nm Hin) as (left' & w' & Hl' & Hw' & Hw0 & Hb).
    rewrite Hleft in Hl'. rewrite Hw in Hw'.
    injection Hl' as <-. injection Hw' as <-.
    destruct (Hinn y row Hrow Hnerow) as (sn & Hsn & Hsneq).
    destruct (Hinp y row Hrow Hnerow) as (sp & Hsp & Hspeq).
    rewrite Forall_forall in Hmn. rewrite Forall_forall in Hmx.
    pose proof (Hmn sn Hsn) as Hmn'. pose proof (Hmx sp Hsp) as Hmx'.
    assert (Hneg0 : (Qsum (where_neg <$> row) <= 0)%Q).
    { rewrite Qsum_abs_where_neg.
      assert (0 <= Qsum ((Qabs ∘ where_neg) <$> row))%Q; [|lra].
      apply Qsum_nonneg, Forall_fmap, Forall_forall.
      intros v _. apply Qabs_nonneg. }
    assert (Hpos0 : (0 <= Qsum (where_pos <$> row))%Q).
    { apply Qsum_nonneg, Forall_fmap, Forall_forall.
      intros v _. apply where_pos_nonneg. }
    destruct s; lra.
Qed.

(** X7.  Rows with the same label.  [plot_vbars] reads the table into a
    dict keyed by the row labels (line 216), so a label that comes more
    than once keeps the place of its first row and the values of its last
    row: the chart has one bar per distinct label, drawn from the last row
    that carries the label. *)
Theorem plot_vbars_repeated_labels (h : Heap) (df : ref) (ax : option Axes)
    (d d' : DataFrame Label) :
  h !! df = Some (PFrame d) →
  index_totals py cfg d = Ok d' →
  rectangular d → index d ≠ [] → columns d ≠ [] →
  let r := plot_vbars py h df cfg ax in
  (results_of d').*1 = unique (index d')
  ∧ length (results_of d').*2 = length (unique (index d'))
  ∧ (∀ l row, (l, row) ∈ results_of d' ↔
       last (filter (λ kv : Label * list Val, kv.1 = l)
               (zip (index d') (values d'))) = Some (l, row))
  ∧ (∀ s lbls ws ls nm, barh s lbls ws ls nm ∈ hdrawn r →
       lbls = unique (index d')
       ∧ length ws = length (unique (index d'))
       ∧ length ls = length (unique (index d'))).
Proof.
  intros Ht Hd' Hrect Hidx Hcols r. subst r.
  destruct (index_totals_frame py cfg d d' Hd') as (_ & _ & Hlen).
  specialize (Hlen (eq_sym (proj1 Hrect))).
  assert (Hkeys : (results_of d').*1 = unique (index d')).
  { unfold results_of. rewrite dict_of_keys, fst_zip; [done|lia]. }
  assert (Hn : length (results_of d').*2 = length (unique (index d'))).
  { by rewrite <- Hkeys, !length_fmap. }
  split; [done|]. split; [done|]. split.
  - intros l row. apply elem_of_dict_of.
  - intros s lbls ws ls nm Hin.
    apply (barh_in_drawn h df ax d d' _ _ _ _ _ Ht Hd') in Hin.
    assert (Hwn : ∀ j, length (wcol_neg (results_of d').*2 j)
                       = length (unique (index d'))).
    { intros j. rewrite <- Hn. unfold wcol_neg, column.
      by rewrite !length_fmap. }
    assert (Hwp : ∀ j, length (ccol_pos (results_of d').*2 j)
                       = length (unique (index d'))).
    { intros j. rewrite <- Hn. unfold ccol_pos, column.
      by rewrite !length_fmap. }
    assert (Hinit : length ((λ row : list Val, Qsum (where_neg <$> row))
                            <$> (results_of d').*2)
                    = length (unique (index d'))).
    { rewrite <- Hn. by rewrite !length_fmap. }
    destruct Hin as (i & _ & -> & [(_ & -> & ->)|(_ & -> & ->)]).
    + split; [done|]. split; [done|].
      rewrite length_starts_at; [done|]. intros j. by rewrite Hwn, Hinit.
    + split; [done|]. split; [done|].
      rewrite length_starts_at.
      * rewrite length_fmap, length_starts_at; [done|].
        intros j. by rewrite Hwn, Hinit.
      * intros j. rewrite length_fmap, length_starts_at; [by rewrite Hwp|].
        intros j'. by rewrite Hwn, Hinit.
Qed.

End run.

Lemma plot_vbars_segments_diverge_witness :
  rectangular Samples.weights_frame
  ∧ ∀ s lbls ws ls nm,
    barh s lbls ws ls nm
    ∈ hdrawn (plot_vbars Samples.printer {[ 7%nat := Samples.weights ]} 7%nat
                Samples.vconfig None) →
    ∃ left w, ls !! 1%nat = Some left ∧ ws !! 1%nat = Some w ∧ (0 <= w)%Q
      ∧ match s with
        | neg_pass _ =>
            (Qsum (where_neg <$> [Samples.q 7; Samples.q (-3)]) <= left
             ∧ left + w <= 0)%Q
        | pos_pass _ =>
            (0 <= left
             ∧ left + w <= Qsum (where_pos <$> [Samples.q 7; Samples.q (-3)]))%Q
        end.
Proof.
  split; [split; [reflexivity|by repeat constructor]|].
  refine (proj1 (plot_vbars_segments_diverge Samples.printer Samples.vconfig
                   {[ 7%nat := Samples.weights ]} 7%nat None
                   Samples.weights_frame Samples.weights_frame _ _ _ _ _
                   1%nat [Samples.q 7; Samples.q (-3)] _)).
  - by rewrite lookup_singleton_eq.
  - reflexivity.
  - split; [reflexivity|]. by repeat constructor.
  - done.
  - done.
  - reflexivity.
Defined.

Lemma plot_vbars_segment_texts_witness :
  ∃ x, text_segment (neg_pass 1) x 1 "{:.1%}-3/1"
       ∈ hdrawn (plot_vbars Samples.printer {[ 7%nat := Samples.weights ]}
                   7%nat Samples.vconfig None).
Proof.
  destruct (plot_vbars_segment_texts Samples.printer Samples.vconfig
              {[ 7%nat := Samples.weights ]} 7%nat None
              Samples.weights_frame Samples.weights_frame)
    with (y := 1%nat) (row := [Samples.q 7; Samples.q (-3)]) (i := 1%nat)
         (nm := "as2"%string) (v := Samples.q (-3))
    as (bvm & lneg & lpos & _ & _ & _ & Hneg & _).
  - by rewrite lookup_singleton_eq.
  - reflexivity.
  - split; [reflexivity|]. by repeat constructor.
  - done.
  - done.
  - intros _. vm_compute. lia.
  - reflexivity.
  - reflexivity.
  - reflexivity.
  - eexists. apply Hneg. split_and!; reflexivity.
Defined.

Lemma plot_vbars_total_marks_witness :
  vlines_total (np_sum [Samples.q 7; Samples.q (-3)]) 1
  ∈ hdrawn (plot_vbars Samples.printer {[ 7%nat := Samples.weights ]} 7%nat
              Samples.vconfig None).
Proof.
  destruct (plot_vbars_total_marks Samples.printer Samples.vconfig
              {[ 7%nat := Samples.weights ]} 7%nat None
              Samples.weights_frame Samples.weights_frame) as (H & _).
  - by rewrite lookup_singleton_eq.
  - reflexivity.
  - split; [reflexivity|]. by repeat constructor.
  - done.
  - done.
  - intros _. vm_compute. lia.
  - apply H. split; [reflexivity|]. by eexists.
Defined.

Lemma plot_vbars_x_limits_witness :
  ∃ klo khi : Z,
    set_x_limits (Some (2 * inject_Z klo)%Q) (Some (2 * inject_Z khi)%Q)
    ∈ hdrawn (plot_vbars Samples.printer {[ 7%nat := Samples.weights ]} 7%nat
                Samples.vconfig_step None)
    ∧ ∀ y s lbls ws ls nm left w,
        barh s lbls ws ls nm
        ∈ hdrawn (plot_vbars Samples.printer {[ 7%nat := Samples.weights ]}
                    7%nat Samples.vconfig_step None) →
        ls !! y = Some left → ws !! y = Some w →
        (2 * inject_Z klo <= left ∧ left + w <= 2 * inject_Z khi)%Q.
Proof.
  apply (plot_vbars_x_limits Samples.printer Samples.vconfig_step
           {[ 7%nat := Samples.weights ]} 7%nat None
           Samples.weights_frame Samples.weights_frame 2%Q).
  - by rewrite lookup_singleton_eq.
  - reflexivity.
  - split; [reflexivity|]. by repeat constructor.
  - done.
  - done.
  - intros _. vm_compute. lia.
  - constructor.
  - reflexivity.
  - reflexivity.
Defined.

(** The limits of the sample: from [-4] to [10]. *)
Example sample_x_limits :
  omap (λ op, match op with
              | set_x_limits (Some lo) (Some hi) => Some (Qred lo, Qred hi)
              | _ => None
              end)
    (hdrawn (plot_vbars Samples.printer {[ 7%nat := Samples.weights ]} 7%nat
               Samples.vconfig_step None))
  = [((-4)%Q, 10%Q)].
Proof. by vm_compute. Qed.

Lemma plot_vbars_colours_run_out_witness :
  hreturned (plot_vbars Samples.printer {[ 7%nat := PFrame Samples.wide ]}
               7%nat Samples.vconfig None) = Raise IndexError
  ∧ ∃ lbls ws ls,
      barh (neg_pass 0) lbls ws ls "as1"
      ∈ hdrawn (plot_vbars Samples.printer {[ 7%nat := PFrame Samples.wide ]}
                  7%nat Samples.vconfig None).
Proof.
  destruct (plot_vbars_colours_run_out Samples.printer Samples.vconfig
              {[ 7%nat := PFrame Samples.wide ]} 7%nat None
              Samples.wide Samples.wide) as (Hret & _ & _ & Hdrawn & _).
  - by rewrite lookup_singleton_eq.
  - reflexivity.
  - split; [reflexivity|]. by repeat constructor.
  - done.
  - reflexivity.
  - vm_compute. lia.
  - split; [exact Hret|]. apply (Hdrawn 0%nat "as1"%string).
    + vm_compute. lia.
    + reflexivity.
Defined.

Lemma plot_vbars_repeated_labels_witness :
  (results_of Samples.repeated).*1 = [LStr "f1"; LStr "f2"]
  ∧ ((LStr "f1", [Samples.q 5; Samples.q 6]) ∈ results_of Samples.repeated ↔
     last (filter (λ kv : Label * list Val, kv.1 = LStr "f1")
             (zip (index Samples.repeated) (values Samples.repeated)))
     = Some (LStr "f1", [Samples.q 5; Samples.q 6])).
Proof.
  destruct (plot_vbars_repeated_labels Samples.printer Samples.vconfig
              {[ 7%nat := PFrame Samples.repeated ]} 7%nat None
              Samples.repeated Samples.repeated) as (H1 & _ & H2 & _).
  - by rewrite lookup_singleton_eq.
  - reflexivity.
  - split; [reflexivity|]. by repeat constructor.
  - done.
  - done.
  - split; [exact H1|apply H2].
Defined.

(** The sample with a repeated label: two bars, the first from the third
    row. *)
Example sample_repeated_labels :
  results_of Samples.repeated
  = [(LStr "f1", [Samples.q 5; Samples.q 6]);
     (LStr "f2", [Samples.q 3; Samples.q 4])].
Proof. by vm_compute. Qed.

End PlotVbarsRunSpec.


(** ** [MultiPortfolioData]: construction, and the tables it hands out *)
Module AggregatorSpec.
Import PortfolioData MultiPortfolioData PdFacts NavsSpec.

Lemma sorted_lookup_lt (l : list Z) (i j : nat) (x y : Z) :
  StronglySorted Z.lt l → (i < j)%nat →
  l !! i = Some x → l !! j = Some y → x < y.
Proof.
  intros Hs. revert i j. induction Hs as [|a l Hs IH Ha]; intros i j Hij Hi Hj.
  - done.
  - destruct j as [|j]; [lia|]. destruct i as [|i].
    + injection Hi as <-. rewrite Forall_forall in Ha.
      by eapply Ha, list_elem_of_lookup_2.
    + apply (IH i j); [lia|done|done].
Qed.

(** In an increasing index, a date is padded to its own place. *)
Lemma pad_loc_self (I : list Z) (i : nat) (t : Z) :
  increasing I = true → I !! i = Some t → pad_loc I t = Some i.
Proof.
  intros Hinc Hi. pose proof (pad_loc_spec I t Hinc) as Hspec.
  destruct (pad_loc I t) as [k|]; simpl in Hspec.
  - destruct Hspec as (s & Hk & Hle & Hmax).
    pose proof (Hmax i t Hi ltac:(lia)) as Hik.
    destruct (decide (i = k)) as [->|Hne]; [done|].
    apply increasing_Z in Hinc.
    pose proof (sorted_lookup_lt I i k t s Hinc ltac:(lia) Hi Hk). lia.
  - pose proof (Hspec t (list_elem_of_lookup_2 _ _ _ Hi)). lia.
Qed.

(** A table that was padded onto an increasing index is left as it is
    when it is padded onto that index again. *)
Lemma reindex_ffill_again (b : DataFrame Z) (I : list Z) (b' : DataFrame Z) :
  increasing I = true →
  reindex_ffill b I = Ok b' → reindex_ffill b' I = Ok b'.
Proof.
  intros HI. unfold reindex_ffill at 1.
  destruct (increasing (index b)); [|done]. intros [= <-].
  rewrite reindex_ffill_increasing by done. cbn [index columns values].
  f_equal. f_equal. apply list_eq. intros i.
  rewrite !list_lookup_fmap. destruct (I !! i) as [t|] eqn:Hi; [|done].
  cbn [fmap option_fmap option_map].
  rewrite (pad_loc_self I i t HI Hi).
  by rewrite list_lookup_fmap, Hi.
Qed.

(** What [set_navs] leaves behind, for portfolios of the data model. *)
Lemma set_navs_run (self : MultiPortfolioData.t) (freq : option Freq) :
  portfolio_datas self ≠ [] →
  Forall series_ok (nav_series self) →
  (∀ b, benchmark_prices self = Some b → increasing (index b) = true) →
  ∃ navs0 navs1 b1,
    concat_axis1 (to_frame <$> nav_series self) = Ok navs0
    ∧ (match freq with None => Ok navs0 | Some f => asfreq navs0 f end)
      = Ok navs1
    ∧ increasing (index navs1) = true
    ∧ columns navs1 = s_name <$> nav_series self
    ∧ match benchmark_prices self with
      | Some b => ∃ b', reindex_ffill b (index navs1) = Ok b' ∧ b1 = Some b'
      | None => b1 = None
      end
    ∧ set_navs freq self
      = mkRun (mk (portfolio_datas self) b1 (Some navs1)) (Ok ()).
Proof.
  intros Hne Hok Hbench.
  destruct (concat_series (nav_series self)) as
    (navs0 & Hcat & Hcols & Hinc & _); [|done|].
  { unfold nav_series. by destruct (portfolio_datas self). }
  assert (Hfreq : ∃ navs1,
             (match freq with None => Ok navs0 | Some f => asfreq navs0 f end)
             = Ok navs1
             ∧ columns navs1 = columns navs0
             ∧ increasing (index navs1) = true).
  { destruct freq as [f|]; [|by exists navs0].
    unfold asfreq. destruct (index navs0) as [|t0 ts] eqn:E.
    - exists navs0. by rewrite E.
    - rewrite <- E in *. rewrite reindex_ffill_increasing by done.
      eexists. split; [done|]. split; [done|]. apply increasing_date_range. }
  destruct Hfreq as (navs1 & Hf & Hcols1 & Hinc1).
  unfold set_navs. rewrite Hcat, Hf.
  destruct (benchmark_prices self) as [b|] eqn:Eb.
  - rewrite reindex_ffill_increasing by (by apply Hbench).
    eexists navs0, navs1, _. split_and!; try done; [congruence|].
    eexists. split; [|done]. by rewrite reindex_ffill_increasing by (by apply Hbench).
  - exists navs0, navs1, None. split_and!; try done. congruence.
Qed.

(** X12.  [set_navs] can be run again.  For portfolios of the data model
    (and a benchmark table with increasing dates, if one is attached), a
    second [set_navs] with the same frequency meets the object as the
    first call left it and leaves it so: the NAV table is built from the
    portfolios alone, and the benchmark, already on the dates of the NAV
    table, is padded onto itself. *)
Theorem set_navs_idempotent (self : MultiPortfolioData.t)
    (freq : option Freq) :
  portfolio_datas self ≠ [] →
  Forall series_ok (nav_series self) →
  (∀ b, benchmark_prices self = Some b → increasing (index b) = true) →
  outcome (set_navs freq self) = Ok ()
  ∧ set_navs freq (self_after (set_navs freq self)) = set_navs freq self.
Proof.
  intros Hne Hok Hbench.
  destruct (set_navs_run self freq Hne Hok Hbench)
    as (navs0 & navs1 & b1 & Hcat & Hf & Hinc & _ & Hb1 & Hrun).
  rewrite Hrun. split; [done|]. cbn [self_after].
  unfold set_navs.
  change (nav_series (mk (portfolio_datas self) b1 (Some navs1)))
    with (nav_series self).
  rewrite Hcat, Hf. cbn [benchmark_prices portfolio_datas].
  destruct (benchmark_prices self) as [b|].
  - destruct Hb1 as (b' & Hb' & ->).
    by rewrite (reindex_ffill_again b (index navs1) b' Hinc Hb').
  - by subst b1.
Qed.

Lemma set_navs_idempotent_witness :
  set_navs None (self_after (set_navs None Samples.multi))
  = set_navs None Samples.multi.
Proof.
  apply (set_navs_idempotent Samples.multi None).
  - done.
  - repeat constructor.
  - intros b [= <-]. reflexivity.
Defined.

(** X13.  Construction.  [__post_init__] runs [set_navs]: without
    portfolios [pd.concat] has nothing to join and the construction fails
    with [ValueError]; with portfolios of the data model it succeeds, the
    NAV table has one column per portfolio, and a benchmark table given to
    the constructor is stored on the dates of the NAV table, with its own
    columns.  The same holds after [set_navs] with a frequency. *)
Theorem post_init_aligns_tables (pds : list PortfolioData.t)
    (b : option (DataFrame Z)) (freq : option Freq) :
  Forall series_ok ((λ p, PortfolioData.get_portfolio_nav p None) <$> pds) →
  (∀ b0, b = Some b0 → increasing (index b0) = true) →
  (pds = [] → post_init pds b = mkRun (mk [] b None) (Raise ValueError))
  ∧ (pds ≠ [] →
     ∃ navs1 b1,
       post_init pds b = mkRun (mk pds b1 (Some navs1)) (Ok ())
       ∧ columns navs1 = (λ p, s_name (PortfolioData.get_portfolio_nav p None))
                         <$> pds
       ∧ match b with
         | None => b1 = None
         | Some b0 => ∃ b', b1 = Some b' ∧ index b' = index navs1
                            ∧ columns b' = columns b0
                            ∧ length (values b') = length (index navs1)
         end)
  ∧ (pds ≠ [] →
     ∃ navs1 b1,
       set_navs freq (mk pds b None) = mkRun (mk pds b1 (Some navs1)) (Ok ())
       ∧ match b with
         | None => b1 = None
         | Some b0 => ∃ b', b1 = Some b' ∧ index b' = index navs1
                            ∧ columns b' = columns b0
         end).
Proof.
  intros Hok Hb.
  assert (Hrun : ∀ f, pds ≠ [] →
            ∃ navs1 b1,
              set_navs f (mk pds b None) = mkRun (mk pds b1 (Some navs1)) (Ok ())
              ∧ columns navs1
                = (λ p, s_name (PortfolioData.get_portfolio_nav p None)) <$> pds
              ∧ match b with
                | None => b1 = None
                | Some b0 => ∃ b', b1 = Some b' ∧ index b' = index navs1
                                   ∧ columns b' = columns b0
                                   ∧ length (values b') = length (index navs1)
                end).
  { intros f Hne.
    destruct (set_navs_run (mk pds b None) f Hne Hok Hb)
      as (navs0 & navs1 & b1 & _ & _ & Hinc & Hcols & Hb1 & Hrun).
    exists navs1, b1. split; [done|]. split.
    { rewrite Hcols. unfold nav_series. cbn [portfolio_datas].
      by rewrite <- list_fmap_compose. }
    cbn [benchmark_prices] in Hb1. destruct b as [b0|]; [|done].
    destruct Hb1 as (b' & Hb' & ->). exists b'. split; [done|].
    rewrite reindex_ffill_increasing in Hb' by (by apply Hb).
    injection Hb' as <-. cbn [index columns values].
    by rewrite length_fmap. }
  split_and!.
  - by intros ->.
  - intros Hne. apply (Hrun None Hne).
  - intros Hne. destruct (Hrun freq Hne) as (navs1 & b1 & Hr & _ & Hb1).
    exists navs1, b1. split; [done|]. destruct b as [b0|]; [|done].
    destruct Hb1 as (b' & ? & ? & ? & _). by exists b'.
Qed.

Lemma post_init_aligns_tables_witness :
  ∃ navs1 b1,
    post_init [Samples.portfolio_a; Samples.portfolio_b] (Some Samples.benchmark)
    = mkRun (mk [Samples.portfolio_a; Samples.portfolio_b] b1 (Some navs1))
        (Ok ())
    ∧ columns navs1 = ["A"; "B"]%string
    ∧ ∃ b', b1 = Some b' ∧ index b' = index navs1
            ∧ columns b' = columns Samples.benchmark
            ∧ length (values b') = length (index navs1).
Proof.
  destruct (post_init_aligns_tables [Samples.portfolio_a; Samples.portfolio_b]
              (Some Samples.benchmark) None) as (_ & H & _).
  - repeat constructor.
  - intros b0 [= <-]. reflexivity.
  - apply H. done.
Defined.

Section construction.

Lemma window_columns (tp : option TimePeriod) (df : DataFrame Z) :
  columns (window tp df) = columns df.
Proof. by destruct tp. Qed.

(** The object a successful construction gives. *)
Lemma post_init_run (pds : list PortfolioData.t) (b : option (DataFrame Z)) :
  pds ≠ [] →
  Forall series_ok ((λ p, PortfolioData.get_portfolio_nav p None) <$> pds) →
  (∀ b0, b = Some b0 → increasing (index b0) = true) →
  ∃ navs1 b1,
    post_init pds b = mkRun (mk pds b1 (Some navs1)) (Ok ())
    ∧ increasing (index navs1) = true
    ∧ columns navs1
      = (λ p, s_name (PortfolioData.get_portfolio_nav p None)) <$> pds
    ∧ length (values navs1) = length (index navs1)
    ∧ Forall (λ row, length row = length (columns navs1)) (values navs1)
    ∧ match b with
      | None => b1 = None
      | Some b0 =>
          ∃ b', b1 = Some b' ∧ index b' = index navs1
                ∧ columns b' = columns b0
                ∧ length (values b') = length (index navs1)
      end.
Proof.
  intros Hne Hok Hb.
  destruct (concat_series ((λ p, PortfolioData.get_portfolio_nav p None) <$> pds))
    as (navs0 & Hcat & Hcols & Hinc & Hlen & _ & Hrows); [|done|].
  { by destruct pds. }
  assert (Hwidth : Forall (λ row, length row = length (columns navs0))
                     (values navs0)).
  { apply Forall_lookup. intros i row Hi.
    destruct (lookup_lt_is_Some_2 (index navs0) i) as [t Ht].
    { rewrite <- Hlen. by eapply lookup_lt_Some. }
    rewrite (Hrows i t Ht) in Hi. injection Hi as <-.
    by rewrite Hcols, !length_fmap. }
  unfold post_init, set_navs, nav_series. cbn [portfolio_datas benchmark_prices].
  rewrite Hcat.
  destruct b as [b0|].
  - rewrite reindex_ffill_increasing by (by apply Hb).
    eexists navs0, _. split; [done|]. split_and!; try done.
    + by rewrite Hcols, <- list_fmap_compose.
    + eexists. split; [done|]. cbn [index columns values].
      by rewrite length_fmap.
  - exists navs0, None. split; [done|]. split_and!; try done.
    by rewrite Hcols, <- list_fmap_compose.
Qed.

(** X19.  A correlation table needs two portfolios.  For an aggregator
    built from portfolios of the data model, [plot_corr_table] hands the
    NAV table of the period to the correlation plot when there are at
    least two portfolios, and with a single portfolio it returns without
    drawing anything. *)
Theorem plot_corr_table_needs_two (pds : list PortfolioData.t)
    (b : option (DataFrame Z)) (time_period : option TimePeriod)
    (freq : string) :
  pds ≠ [] →
  Forall series_ok ((λ p, PortfolioData.get_portfolio_nav p None) <$> pds) →
  (∀ b0, b = Some b0 → increasing (index b0) = true) →
  ∃ self navs1,
    post_init pds b = mkRun self (Ok ())
    ∧ navs self = Some navs1
    ∧ plot_corr_table self time_period freq
      = Ok (if decide (1 < length pds)%nat
            then [pco_plot_returns_corr_table (window time_period navs1) freq
                    ("Correlation of " +:+ freq +:+ " returns")]
            else []).
Proof.
  intros Hne Hok Hb.
  destruct (post_init_run pds b Hne Hok Hb)
    as (navs1 & b1 & Hrun & _ & Hcols & _).
  eexists _, navs1. split; [exact Hrun|]. split; [done|].
  unfold plot_corr_table, get_navs. cbn [navs mbind Err_bind].
  rewrite window_columns, Hcols, length_fmap.
  by destruct (decide (1 < length pds)%nat).
Qed.

Lemma plot_corr_table_needs_two_witness :
  ∃ self navs1,
    post_init [Samples.portfolio_a] None = mkRun self (Ok ())
    ∧ navs self = Some navs1
    ∧ plot_corr_table self None "W-WED" = Ok [].
Proof.
  destruct (plot_corr_table_needs_two [Samples.portfolio_a] None None "W-WED")
    as (self & navs1 & H1 & H2 & H3).
  - done.
  - repeat constructor.
  - done.
  - by exists self, navs1.
Defined.

End construction.

Section asset_classes.
Variable time_period : option TimePeriod.

(** The number of asset-class columns of a portfolio: the columns of its
    asset-class NAVs other than its own. *)
Let ac_count (p : PortfolioData.t) : Z :=
  Z.of_nat (length (filter (λ x, x ≠ s_name (nav p))
                      (columns (PortfolioData.get_ac_navs p time_period)))).

Lemma ac_fold_raise (e : exn) (ps : list PortfolioData.t) :
  foldl (λ acc portfolio, acc ← acc; ac_step time_period acc portfolio)
    (Raise e) ps = Raise e.
Proof. by induction ps. Qed.

Lemma ac_step_edges (acc tabs : AcTables) (p : PortfolioData.t) :
  ac_step time_period acc p = Ok tabs →
  rows_edge_lines tabs
  = rows_edge_lines acc ++ [py_sum (rows_edge_lines acc) + ac_count p].
Proof.
  unfold ac_step.
  destruct (select _ _) as [e|strategy]; [done|]. cbn [mbind Err_bind].
  unfold drop_column. case_decide; [|done]. cbn [mbind Err_bind].
  intros [= <-]. cbn [rows_edge_lines prefixed columns].
  by rewrite length_fmap.
Qed.

Lemma ac_fold_edges (ps : list PortfolioData.t) (acc tabs : AcTables) :
  foldl (λ acc portfolio, acc ← acc; ac_step time_period acc portfolio)
    (Ok acc) ps = Ok tabs →
  rows_edge_lines tabs
  = foldl (λ es p, es ++ [py_sum es + ac_count p]) (rows_edge_lines acc) ps.
Proof.
  revert acc. induction ps as [|p ps IH]; intros acc.
  - by intros [= <-].
  - cbn [foldl mbind Err_bind].
    destruct (ac_step time_period acc p) as [e|acc'] eqn:E.
    + by rewrite ac_fold_raise.
    + intros Hf. rewrite (IH acc' Hf). by rewrite (ac_step_edges acc acc' p E).
Qed.

Lemma edges_prefix (ps : list PortfolioData.t) (es : list Z) :
  ∃ rest,
    foldl (λ es p, es ++ [py_sum es + ac_count p]) es ps = es ++ rest
    ∧ length rest = length ps.
Proof.
  revert es. induction ps as [|p ps IH]; intros es.
  - exists []. by rewrite app_nil_r.
  - cbn [foldl]. destruct (IH (es ++ [py_sum es + ac_count p])) as (rest & -> & Hl).
    eexists. rewrite <- app_assoc. split; [done|]. simpl. by rewrite Hl.
Qed.

Lemma edges_lookup (ps : list PortfolioData.t) (es : list Z) (m : nat)
    (p : PortfolioData.t) :
  ps !! m = Some p →
  let all := foldl (λ es p, es ++ [py_sum es + ac_count p]) es ps in
  all !! (length es + m)%nat
  = Some (py_sum (take (length es + m) all) + ac_count p).
Proof.
  intros Hm. cbv zeta.
  rewrite <- (take_drop_middle ps m p Hm), foldl_app. cbn [foldl].
  destruct (edges_prefix (take m ps) es) as (r1 & -> & Hr1).
  rewrite length_take_le in Hr1 by (apply lookup_lt_Some in Hm; lia).
  destruct (edges_prefix (drop (S m) ps)
              ((es ++ r1) ++ [py_sum (es ++ r1) + ac_count p]))
    as (r2 & -> & _).
  assert (Hlen : length (es ++ r1) = (length es + m)%nat)
    by (by rewrite length_app, Hr1).
  rewrite <- Hlen, <- !app_assoc.
  rewrite (app_assoc es r1), take_app_length.
  cbn [app]. by apply list_lookup_middle.
Qed.

(** X20.  The row edges of the table by asset group.  The list starts
    with the number of portfolios, and each portfolio appends the sum of
    all the edges so far plus the number of its asset-class columns (line
    251 adds [sum(rows_edge_lines)], not the last edge).  So the second
    entry is the number of portfolios plus the asset classes of the first
    portfolio, and the third is twice the number of portfolios plus the
    asset classes of the first two portfolios. *)
Theorem ac_rows_edge_lines (self : MultiPortfolioData.t) (tabs : AcTables) :
  ac_tables self time_period = Ok tabs →
  let n := Z.of_nat (length (portfolio_datas self)) in
  let edges := rows_edge_lines tabs in
  length edges = S (length (portfolio_datas self))
  ∧ edges !! 0%nat = Some n
  ∧ (∀ m p, portfolio_datas self !! m = Some p →
       edges !! S m = Some (py_sum (take (S m) edges) + ac_count p))
  ∧ (∀ p0, portfolio_datas self !! 0%nat = Some p0 →
       edges !! 1%nat = Some (n + ac_count p0))
  ∧ (∀ p0 p1, portfolio_datas self !! 0%nat = Some p0 →
       portfolio_datas self !! 1%nat = Some p1 →
       edges !! 2%nat = Some (2 * n + ac_count p0 + ac_count p1))
  ∧ (∀ benchmark_price charts,
       plot_ac_ra_perf_table self benchmark_price time_period = Ok charts →
       ∃ prices, charts = [ppt_plot_ra_perf_table_benchmark prices
                             (s_name benchmark_price) (Some edges)]).
Proof.
  intros Htabs n edges. subst edges.
  pose proof (ac_fold_edges _ _ _ Htabs) as Hedges.
  cbn [rows_edge_lines] in Hedges. fold n in Hedges.
  destruct (edges_prefix (portfolio_datas self) [n]) as (rest & Hpre & Hrest).
  assert (Hrec : ∀ m p, portfolio_datas self !! m = Some p →
            rows_edge_lines tabs !! S m
            = Some (py_sum (take (S m) (rows_edge_lines tabs)) + ac_count p)).
  { intros m p Hm. rewrite Hedges.
    exact (edges_lookup (portfolio_datas self) [n] m p Hm). }
  assert (H0 : rows_edge_lines tabs !! 0%nat = Some n)
    by (by rewrite Hedges, Hpre).
  assert (H1 : ∀ p0, portfolio_datas self !! 0%nat = Some p0 →
            rows_edge_lines tabs !! 1%nat = Some (n + ac_count p0)).
  { intros p0 Hp0. rewrite (Hrec 0%nat p0 Hp0).
    rewrite (take_S_r _ 0 n H0), take_0. unfold py_sum. cbn [app foldl].
    by f_equal. }
  split_and!.
  - by rewrite Hedges, Hpre, length_app, Hrest.
  - done.
  - done.
  - done.
  - intros p0 p1 Hp0 Hp1. rewrite (Hrec 1%nat p1 Hp1).
    rewrite (take_S_r _ 1 _ (H1 p0 Hp0)), (take_S_r _ 0 n H0).
    rewrite take_0. unfold py_sum. cbn [app foldl]. f_equal. lia.
  - intros bp charts. unfold plot_ac_ra_perf_table. rewrite Htabs.
    cbn [mbind Err_bind].
    destruct (concat_axis1 (strategy_prices tabs)) as [e|st]; [done|].
    cbn [mbind Err_bind].
    destruct (concat_axis1 (ac_prices tabs)) as [e|ac]; [done|].
    cbn [mbind Err_bind].
    destruct (reindex_ffill _ _) as [e|bench]; [done|].
    cbn [mbind Err_bind].
    destruct (concat_axis1 [bench; st; ac]) as [e|prices]; [done|].
    cbn [mbind Err_bind]. intros [= <-]. by exists prices.
Qed.

End asset_classes.

Lemma ac_rows_edge_lines_witness :
  match ac_tables Samples.multi_ac None with
  | Ok tabs => rows_edge_lines tabs = [2; 4; 9]
  | Raise _ => False
  end.
Proof.
  destruct (ac_tables Samples.multi_ac None) as [e|tabs] eqn:E;
    [by vm_compute in E|].
  destruct (ac_rows_edge_lines None Samples.multi_ac tabs E)
    as (Hlen & H0 & _ & H1 & H2 & _).
  specialize (H1 _ eq_refl). specialize (H2 _ _ eq_refl eq_refl).
  destruct (rows_edge_lines tabs) as [|e0 [|e1 [|e2 [|]]]]; try done.
  cbn in H0, H1, H2. by injection H0 as ->; injection H1 as ->; injection H2 as ->.
Defined.

(** The table of the sample has 2 + 2 + 3 rows; the last edge is beyond
    them. *)
Example sample_rows_edge_lines :
  rows_edge_lines <$> ac_tables Samples.multi_ac None = Ok [2; 4; 9].
Proof. by vm_compute. Qed.

Section benchmark.

Lemma select_absent (b : DataFrame Z) (name : string) :
  name ∉ columns b → select b name = Raise KeyError.
Proof.
  intros Hname. unfold select, positions.
  assert (H : filter (λ p : nat * string, p.2 = name) (imap pair (columns b))
              = []) by exact (AcNavsSpec.positions_absent name _ (λ i, i) Hname).
  by rewrite H.
Qed.

(** X21.  Without a benchmark table.  Every method that looks a
    benchmark up by name fails with [TypeError] ([None[benchmark]]), the
    plots after their prices are drawn; the two methods that read the
    first column of the table fail with [AttributeError]
    ([None.columns]); and the methods that are not given a benchmark
    work on the NAV table of the period. *)
Theorem without_benchmark_table (self : MultiPortfolioData.t)
    (navs1 : DataFrame Z) (name freq : string)
    (time_period : option TimePeriod) (idx : option (list Z)) :
  navs self = Some navs1 →
  benchmark_prices self = None →
  get_benchmark_price self name time_period = Raise TypeError
  ∧ get_navs self (Some name) time_period = Raise TypeError
  ∧ add_regime_shadows self name idx = Raise TypeError
  ∧ plot_returns_scatter self name time_period freq = Raise TypeError
  ∧ plot_nav self time_period (Some name) = Raise TypeError
  ∧ plot_drawdowns self time_period (Some name) = Raise TypeError
  ∧ plot_rolling_time_under_water self time_period (Some name)
    = Raise TypeError
  ∧ plot_ra_perf_table self time_period = Raise AttributeError
  ∧ (∀ i p, getitem (portfolio_datas self) i = Ok p →
       get_ac_navs self i (Some name) time_period = Raise AttributeError)
  ∧ get_navs self None time_period = Ok (window time_period navs1)
  ∧ plot_nav self time_period None
    = Ok [ppd_plot_prices (window time_period navs1)]
  ∧ plot_drawdowns self time_period None
    = Ok [cdr_plot_rolling_drawdowns (window time_period navs1)]
  ∧ plot_nav_with_dd self time_period
    = Ok [ppd_plot_prices_with_dd (window time_period navs1) None]
  ∧ plot_periodic_returns self time_period freq
    = Ok [rhe_plot_periodic_returns_table (window time_period navs1) freq]
  ∧ plot_performance_bars self time_period
    = Ok [ppt_plot_ra_perf_bars (window time_period navs1)].
Proof.
  intros Hnavs Hb.
  assert (Hg : get_navs self (Some name) time_period = Raise TypeError)
    by (unfold get_navs; by rewrite Hnavs, Hb).
  assert (Hg0 : get_navs self None time_period = Ok (window time_period navs1))
    by (unfold get_navs; by rewrite Hnavs).
  assert (Hs : ∀ i, add_regime_shadows self name i = Raise TypeError)
    by (intros i; unfold add_regime_shadows; by rewrite Hb).
  split_and!; try done.
  - unfold get_benchmark_price. by rewrite Hb.
  - unfold plot_returns_scatter. by rewrite Hg.
  - unfold plot_nav, shadows_on. rewrite Hg0. cbn [mbind Err_bind].
    by rewrite Hs.
  - unfold plot_drawdowns, drawdown_prices, shadows_on.
    case_decide; rewrite ?Hg, ?Hg0; [done|]. cbn [mbind Err_bind].
    by rewrite Hs.
  - unfold plot_rolling_time_under_water, drawdown_prices, shadows_on.
    case_decide; rewrite ?Hg, ?Hg0; [done|]. cbn [mbind Err_bind].
    by rewrite Hs.
  - unfold plot_ra_perf_table. by rewrite Hb.
  - intros i p Hp. unfold get_ac_navs. rewrite Hp. cbn [mbind Err_bind].
    by rewrite Hb.
  - unfold plot_nav, shadows_on. by rewrite Hg0.
  - unfold plot_drawdowns, drawdown_prices, shadows_on. by rewrite Hg0.
  - unfold plot_nav_with_dd. rewrite Hg0, Hb. done.
  - unfold plot_periodic_returns. by rewrite Hg0.
  - unfold plot_performance_bars. by rewrite Hg0.
Qed.

Lemma without_benchmark_table_witness :
  plot_ra_perf_table (self_after (set_navs None Samples.multi_b)) None
  = Raise AttributeError.
Proof.
  destruct (without_benchmark_table
              (self_after (set_navs None Samples.multi_b))
              (mkFrame [2; 3] ["B"]%string [[Samples.q 50]; [Samples.q 51]])
              "SPY" "Q" None None)
    as (_ & _ & _ & _ & _ & _ & _ & H & _); [reflexivity|reflexivity|].
  exact H.
Defined.

(** X22.  An unknown benchmark.  With a benchmark table attached, a name
    that is none of its columns gives [KeyError] in every method that
    looks the benchmark up by name, also where the name was only meant for
    the regime shadows of a plot of the NAVs. *)
Theorem unknown_benchmark_name (self : MultiPortfolioData.t)
    (navs1 b : DataFrame Z) (name freq : string)
    (time_period : option TimePeriod) (idx : option (list Z)) :
  navs self = Some navs1 →
  benchmark_prices self = Some b →
  name ∉ columns b →
  get_benchmark_price self name time_period = Raise KeyError
  ∧ get_navs self (Some name) time_period = Raise KeyError
  ∧ add_regime_shadows self name idx = Raise KeyError
  ∧ plot_returns_scatter self name time_period freq = Raise KeyError
  ∧ plot_nav self time_period (Some name) = Raise KeyError
  ∧ plot_drawdowns self time_period (Some name) = Raise KeyError
  ∧ plot_rolling_time_under_water self time_period (Some name)
    = Raise KeyError.
Proof.
  intros Hnavs Hb Hname. pose proof (select_absent b name Hname) as Hsel.
  assert (Hg : get_navs self (Some name) time_period = Raise KeyError).
  { unfold get_navs. rewrite Hnavs, Hb. cbn [mbind Err_bind].
    by rewrite Hsel. }
  assert (Hg0 : get_navs self None time_period = Ok (window time_period navs1))
    by (unfold get_navs; by rewrite Hnavs).
  assert (Hs : ∀ i, add_regime_shadows self name i = Raise KeyError).
  { intros i. unfold add_regime_shadows. rewrite Hb. cbn [mbind Err_bind].
    by rewrite Hsel. }
  split_and!; try done.
  - unfold get_benchmark_price. rewrite Hb. cbn [mbind Err_bind].
    by rewrite Hsel.
  - unfold plot_returns_scatter. by rewrite Hg.
  - unfold plot_nav, shadows_on. rewrite Hg0. cbn [mbind Err_bind].
    by rewrite Hs.
  - unfold plot_drawdowns, drawdown_prices, shadows_on.
    case_decide; rewrite ?Hg, ?Hg0; [done|]. cbn [mbind Err_bind].
    by rewrite Hs.
  - unfold plot_rolling_time_under_water, drawdown_prices, shadows_on.
    case_decide; rewrite ?Hg, ?Hg0; [done|]. cbn [mbind Err_bind].
    by rewrite Hs.
Qed.

Lemma unknown_benchmark_name_witness :
  plot_drawdowns (self_after (set_navs None Samples.multi)) None (Some "GLD")
  = Raise KeyError.
Proof.
  destruct (unknown_benchmark_name
              (self_after (set_navs None Samples.multi))
              (mkFrame [1; 2; 3; 4] ["A"; "B"]%string
                 [[Samples.q 100; nan];
                  [Samples.q 101; Samples.q 50];
                  [nan; Samples.q 51];
                  [Samples.q 103; nan]])
              (mkFrame [1; 2; 3; 4] ["SPY"; "TLT"]%string
                 [[Samples.q 10; Samples.q 20];
                  [Samples.q 10; Samples.q 20];
                  [Samples.q 11; Samples.q 21];
                  [Samples.q 11; Samples.q 21]])
              "GLD" "Q" None None)
    as (_ & _ & _ & _ & _ & H & _); [reflexivity|reflexivity| |exact H].
  apply (bool_decide_unpack _). by vm_compute.
Defined.

End benchmark.

Section joined.

Lemma positions_unique (name : string) (cols : list string) (f : nat → nat) :
  name ∈ cols → NoDup cols →
  ∃ j, filter (λ p : nat * string, p.2 = name) (imap (λ i c, (f i, c)) cols)
       = [(f j, name)]
       ∧ cols !! j = Some name.
Proof.
  revert f. induction cols as [|c cols IH]; intros f Hin Hnd.
  - by apply elem_of_nil in Hin.
  - apply NoDup_cons in Hnd as [Hc Hnd]. rewrite imap_cons.
    destruct (decide (c = name)) as [->|Hne].
    + exists 0%nat. rewrite filter_cons_True by done.
      change (imap ((λ i c, (f i, c)) ∘ S) cols)
        with (imap (λ i c, ((f ∘ S) i, c)) cols).
      by rewrite (AcNavsSpec.positions_absent name cols (f ∘ S) Hc).
    + apply elem_of_cons in Hin as [->|Hin]; [done|].
      destruct (IH (f ∘ S) Hin Hnd) as (j & Hj & Hl).
      exists (S j). rewrite filter_cons_False by done. by split.
Qed.

Lemma select_unique (b : DataFrame Z) (name : string) :
  name ∈ columns b → NoDup (columns b) →
  ∃ j, columns b !! j = Some name
       ∧ select b name
         = Ok {| index := index b; columns := [name];
                 values := (λ row : list Val, [default nan (row !! j)])
                           <$> values b |}.
Proof.
  intros Hin Hnd.
  destruct (positions_unique name (columns b) (λ i, i) Hin Hnd) as (j & Hj & Hl).
  exists j. split; [done|]. unfold select, positions.
  assert (H : filter (λ p : nat * string, p.2 = name) (imap pair (columns b))
              = [(j, name)]) by exact Hj.
  by rewrite H.
Qed.

Lemma concat_axis1_same_index (a c : DataFrame Z) :
  index a = index c →
  concat_axis1 [a; c]
  = Ok {| index := index c; columns := columns a ++ columns c;
          values := hstack (length (index c)) [values a; values c] |}.
Proof.
  intros Hi. unfold concat_axis1, union_indexes.
  cbn [fmap list_fmap label_datetime Z_Labels foldl]. rewrite Hi.
  rewrite index_union_same. rewrite decide_True.
  - change (mjoin [columns a; columns c])
      with (columns a ++ (columns c ++ [])).
    rewrite app_nil_r. unfold reindex_rows.
    by rewrite !decide_True by done.
  - apply Forall_cons; split; [by left|].
    apply Forall_cons; split; [by left|]. constructor.
Qed.

(** Below a cell that holds a value, a forward-filled table has no
    missing cell. *)
Lemma ffill_rows_no_gap (prev : list Val) (rs : list (list Val)) (i j : nat)
    (row row' : list Val) (v : Q) :
  ffill_rows prev rs !! i = Some row → row !! j = Some (Some v) →
  ffill_rows prev rs !! S i = Some row' → row' !! j ≠ Some nan.
Proof.
  revert prev i. induction rs as [|r rs IH]; intros prev i; [done|].
  cbn [ffill_rows]. set (r1 := zip_with _ prev r). destruct i as [|i].
  - intros [= <-] Hj. destruct rs as [|r2 rs]; [done|].
    cbn [ffill_rows]. intros [= <-]. rewrite lookup_zip_with.
    unfold Val in *. rewrite Hj.
    cbn [mbind option_bind]. destruct (r2 !! j) as [[x|]|]; by cbn.
  - intros Hi Hj Hi'. by apply (IH r1 i).
Qed.

(** A cell of the table keeps the value it has. *)
Lemma ffill_rows_keeps (prev : list Val) (rs : list (list Val)) (i j : nat)
    (row : list Val) (v : Q) :
  Forall (λ r, length r = length prev) rs →
  rs !! i = Some row → row !! j = Some (Some v) →
  ∃ row', ffill_rows prev rs !! i = Some row' ∧ row' !! j = Some (Some v).
Proof.
  revert prev i. induction rs as [|r rs IH]; intros prev i Hlen; [done|].
  apply Forall_cons in Hlen as [Hr Hlen]. cbn [ffill_rows].
  set (r1 := zip_with _ prev r).
  destruct i as [|i].
  - intros [= <-] Hj. exists r1. split; [done|].
    unfold r1. rewrite lookup_zip_with. unfold Val in *. rewrite Hj.
    destruct (lookup_lt_is_Some_2 prev j) as [p ->]; [|done].
    rewrite <- Hr. by eapply lookup_lt_Some.
  - intros Hi Hj. apply (IH r1 i); [|done|done].
    eapply Forall_impl; [exact Hlen|]. intros r' Hr'. cbn in Hr'.
    unfold r1. rewrite length_zip_with. lia.
Qed.

(** X18.  [get_navs] with a benchmark.  When the benchmark table is on the
    dates of the NAV table (as [set_navs] leaves it) and [name] is one of
    its distinct columns, the table returned has the benchmark as its
    first column, followed by the NAV columns, for every time period; for
    the whole period it is on the dates of the NAV table, and from the
    first value of a column downwards no cell of that column is missing. *)
Theorem get_navs_with_benchmark (self : MultiPortfolioData.t)
    (navs1 b : DataFrame Z) (name : string) :
  navs self = Some navs1 → benchmark_prices self = Some b →
  index b = index navs1 → name ∈ columns b → NoDup (columns b) →
  rectangular navs1 → rectangular b →
  (∀ time_period, ∃ t,
     get_navs self (Some name) time_period = Ok t
     ∧ columns t = name :: columns navs1)
  ∧ ∃ t, get_navs self (Some name) None = Ok t
      ∧ index t = index navs1
      ∧ (∀ i j row v,
           values navs1 !! i = Some row → row !! j = Some (Some v) →
           ∃ row', values t !! i = Some row' ∧ row' !! S j = Some (Some v))
      ∧ ∀ i j row row' v,
          values t !! i = Some row → row !! j = Some (Some v) →
          values t !! S i = Some row' → row' !! j ≠ Some nan.
Proof.
  intros Hnavs Hb Hidx Hin Hnd [Hn Hw] [Hbn _].
  destruct (select_unique b name Hin Hnd) as (k & _ & Hsel).
  assert (Hrun : ∀ tp, get_navs self (Some name) tp
    = Ok (window tp (ffill
        {| index := index navs1; columns := [name] ++ columns navs1;
           values := hstack (length (index navs1))
                       [(λ row : list Val, [default nan (row !! k)])
                        <$> values b; values navs1] |}))).
  { intros tp. unfold get_navs. rewrite Hnavs, Hb. cbn [mbind Err_bind].
    rewrite Hsel. cbn [mbind Err_bind].
    by rewrite concat_axis1_same_index by done. }
  split.
  - intros tp. eexists. split; [apply Hrun|]. by rewrite window_columns.
  - eexists. split; [apply Hrun|]. split; [done|].
    cbn [window ffill values columns].
    split; [|intros i j row row' v; apply ffill_rows_no_gap].
    set (B := (λ row : list Val, [default nan (row !! k)]) <$> values b).
    assert (Hblocks : Forall (λ blk : list (list Val),
                                length blk = length (index navs1))
                        [B; values navs1]).
    { repeat constructor; [|done]. unfold B. rewrite length_fmap. congruence. }
    assert (Hrow : ∀ i row, values navs1 !! i = Some row →
              hstack (length (index navs1)) [B; values navs1] !! i
              = Some (default nan (default [] (values b !! i) !! k) :: row)).
    { intros i row Hi.
      rewrite hstack_lookup; [|rewrite <- Hn; by eapply lookup_lt_Some|done].
      cbn [fmap list_fmap mjoin list_join]. rewrite Hi, app_nil_r. unfold B.
      rewrite list_lookup_fmap.
      destruct (lookup_lt_is_Some_2 (values b) i) as [rb ->]; [|done].
      rewrite Hbn, Hidx, <- Hn. by eapply lookup_lt_Some. }
    intros i j row v Hi Hj.
    apply (ffill_rows_keeps _ _ i (S j) _ v) with (2 := Hrow i row Hi); [|done].
    apply Forall_lookup. intros i' r Hr.
    assert (Hi' : (i' < length (index navs1))%nat).
    { rewrite <- (length_hstack _ _ Hblocks). by eapply lookup_lt_Some. }
    destruct (lookup_lt_is_Some_2 (values navs1) i') as [r' Hr'];
      [by rewrite Hn|].
    rewrite (Hrow i' r' Hr') in Hr. injection Hr as <-.
    rewrite length_replicate. cbn [length app]. f_equal.
    by apply (Forall_lookup_1 _ _ _ _ Hw Hr').
Qed.

Lemma get_navs_with_benchmark_witness :
  ∃ t, get_navs (self_after (set_navs None Samples.multi)) (Some "TLT") None
       = Ok t
       ∧ columns t = ["TLT"; "A"; "B"]%string.
Proof.
  destruct (get_navs_with_benchmark
              (self_after (set_navs None Samples.multi))
              (mkFrame [1; 2; 3; 4] ["A"; "B"]%string
                 [[Samples.q 100; nan];
                  [Samples.q 101; Samples.q 50];
                  [nan; Samples.q 51];
                  [Samples.q 103; nan]])
              (mkFrame [1; 2; 3; 4] ["SPY"; "TLT"]%string
                 [[Samples.q 10; Samples.q 20];
                  [Samples.q 10; Samples.q 20];
                  [Samples.q 11; Samples.q 21];
                  [Samples.q 11; Samples.q 21]])
              "TLT") as (H & _).
  - reflexivity.
  - reflexivity.
  - reflexivity.
  - apply (bool_decide_unpack _). by vm_compute.
  - apply (bool_decide_unpack _). by vm_compute.
  - split; [done|]. by repeat constructor.
  - split; [done|]. by repeat constructor.
  - exact (H None).
Defined.

End joined.

Section differences.
Import PnlDiffSpec.

Lemma fill0_is_Some (v : Val) : is_Some (fill0 v).
Proof. by destruct v. Qed.

Lemma Forall_values_build {L} `{Labels L} (P : Val → Prop) (I : list L)
    (C : list string) (f : L → string → Val) :
  (∀ r c, r ∈ I → c ∈ C → P (f r c)) →
  Forall (Forall P) (values (build I C f)).
Proof.
  intros Hf. unfold build. cbn [values].
  apply Forall_fmap, Forall_forall. intros r Hr.
  apply Forall_fmap, Forall_forall. intros c Hc. by apply Hf.
Qed.

Lemma loc_fillna0_reindex (a : DataFrame Z) (I : list Z) (C : list string)
    (r : Z) (c : string) :
  r ∈ I → c ∈ C → loc (fillna0 (reindex a I C)) r c = fill0 (loc a r c).
Proof.
  intros Hr Hc. unfold fillna0, reindex.
  rewrite map_cells_build. by rewrite loc_build.
Qed.

(** Running sums of rows of zeros. *)
Lemma cumsum_row_zero (acc : list Q) (row : list Val) :
  Forall (λ q, q == 0)%Q acc →
  Forall (λ v, veq v (Some 0%Q)) row →
  Forall (λ q, q == 0)%Q
    (zip_with (λ a (v : Val), match v with Some x => (a + x)%Q | None => a end)
       acc row)
  ∧ Forall (λ v, veq v (Some 0%Q))
      (zip_with (λ a' (v : Val), match v with Some _ => Some a' | None => nan end)
         (zip_with (λ a (v : Val),
                      match v with Some x => (a + x)%Q | None => a end)
            acc row) row).
Proof.
  intros Hacc. revert row.
  induction Hacc as [|a acc Ha _ IH]; intros row Hrow; [by split|].
  destruct Hrow as [|v row Hv Hrow]; [by split|].
  cbn [zip_with]. destruct (IH row Hrow) as [H1 H2].
  destruct v as [x|]; [|done]. simpl in Hv.
  split; constructor; try done; simpl; lra.
Qed.

Lemma cumsum_rows_zero (acc : list Q) (rs : list (list Val)) :
  Forall (λ q, q == 0)%Q acc →
  Forall (Forall (λ v, veq v (Some 0%Q))) rs →
  Forall (Forall (λ v, veq v (Some 0%Q))) (cumsum_rows acc rs).
Proof.
  intros Hacc Hrs. revert acc Hacc.
  induction Hrs as [|row rs Hrow _ IH]; intros acc Hacc; [constructor|].
  cbn [cumsum_rows]. destruct (cumsum_row_zero acc row Hacc Hrow) as [H1 H2].
  constructor; [done|]. by apply IH.
Qed.

(** X14.  The instrument P&L difference has no gaps, and a portfolio
    differs from itself by nothing.  For tables whose dates and whose
    instruments are distinct (the tables [align] is modelled for): after
    the outer alignment and [fillna(0.0)] every cell of the difference is
    a number, whatever is missing in either table; and for twice the same
    table every cell of the difference, and of its running sum, is
    zero. *)
Theorem instrument_pnl_diff_cells (a b : DataFrame Z) :
  NoDup (index a) → NoDup (columns a) →
  NoDup (index b) → NoDup (columns b) →
  Forall (Forall is_Some) (values (instrument_pnl_diff a b))
  ∧ length (values (instrument_pnl_diff a b))
    = length (index (instrument_pnl_diff a b))
  ∧ Forall (λ row, length row = length (columns (instrument_pnl_diff a b)))
      (values (instrument_pnl_diff a b))
  ∧ index (instrument_pnl_diff a a) = index a
  ∧ columns (instrument_pnl_diff a a) = columns a
  ∧ Forall (Forall (λ v, veq v (Some 0%Q))) (values (instrument_pnl_diff a a))
  ∧ Forall (Forall (λ v, veq v (Some 0%Q)))
      (values (cumsum (instrument_pnl_diff a a))).
Proof.
  intros _ _ _ _.
  assert (Hzero : Forall (Forall (λ v, veq v (Some 0%Q)))
                    (values (instrument_pnl_diff a a))).
  { rewrite instrument_pnl_diff_build.
    apply Forall_values_build. intros r c Hr Hc.
    rewrite loc_fillna0_reindex by done.
    destruct (loc a r c) as [x|]; simpl; ring. }
  split_and!.
  - rewrite instrument_pnl_diff_build.
    apply Forall_values_build. intros r c Hr Hc.
    rewrite !loc_fillna0_reindex by done.
    by destruct (loc a r c), (loc b r c).
  - rewrite instrument_pnl_diff_build. unfold build. cbn [values index].
    by rewrite length_fmap.
  - rewrite instrument_pnl_diff_build. unfold build. cbn [values columns].
    apply Forall_fmap, Forall_forall. intros r _. cbn. by rewrite length_fmap.
  - rewrite instrument_pnl_diff_build. cbn [build index].
    apply index_union_same.
  - rewrite instrument_pnl_diff_build. cbn [build columns].
    apply index_union_same.
  - done.
  - unfold cumsum. cbn [values]. apply cumsum_rows_zero; [|done].
    apply Forall_forall. intros q Hq.
    apply elem_of_replicate in Hq as [-> _]. done.
Qed.

Lemma instrument_pnl_diff_cells_witness :
  Forall (Forall is_Some)
    (values (instrument_pnl_diff Samples.pnl_a Samples.pnl_b))
  ∧ Forall (Forall (λ v, veq v (Some 0%Q)))
      (values (cumsum (instrument_pnl_diff Samples.pnl_a Samples.pnl_a))).
Proof.
  destruct (instrument_pnl_diff_cells Samples.pnl_a Samples.pnl_b)
    as (H1 & _ & _ & _ & _ & _ & H2).
  - apply (bool_decide_unpack _). by vm_compute.
  - apply (bool_decide_unpack _). by vm_compute.
  - apply (bool_decide_unpack _). by vm_compute.
  - apply (bool_decide_unpack _). by vm_compute.
  - by split.
Defined.

Lemma loc_absent {L} `{Labels L} (df : DataFrame L) (r : L) (c : string) :
  r ∉ index df ∨ c ∉ columns df → loc df r c = nan.
Proof.
  unfold loc. intros [Hr|Hc].
  - by rewrite (get_loc_None _ _ Hr).
  - rewrite (get_loc_None _ _ Hc). by destruct (get_loc r (index df)).
Qed.

(** X15.  The exposure difference is anti-symmetric, with gaps.
    [plot_exposures_diff] subtracts the two grouped exposure tables as
    they are (line 333): both orders of the two portfolios give the same
    dates and groups and cell-wise negated values; a cell is the
    difference of the two exposures, and NaN wherever a date or a group is
    absent from one of the tables (nothing is filled, unlike the P&L
    difference). *)
Theorem exposures_diff_antisymmetric (self : MultiPortfolioData.t)
    (i j : Z) (time_period : option TimePeriod) (p1 p2 : PortfolioData.t) :
  getitem (portfolio_datas self) i = Ok p1 →
  getitem (portfolio_datas self) j = Ok p2 →
  let e1 := get_exposures p1 true time_period false in
  let e2 := get_exposures p2 true time_period false in
  NoDup (index e1) → NoDup (columns e1) →
  NoDup (index e2) → NoDup (columns e2) →
  ∃ dij dji,
    plot_exposures_diff self i j None time_period
    = Ok [plot_time_series dij ("Net exposure diff " +:+ diff_name p1 p2)]
    ∧ plot_exposures_diff self j i None time_period
      = Ok [plot_time_series dji ("Net exposure diff " +:+ diff_name p2 p1)]
    ∧ index dij = index dji
    ∧ columns dij = columns dji
    ∧ Forall2 (Forall2 (λ x y, veq x (vneg y))) (values dij) (values dji)
    ∧ (∀ r c, r ∈ index dij → c ∈ columns dij →
         loc dij r c = vsub (loc e1 r c) (loc e2 r c))
    ∧ (∀ r c, r ∈ index dij → c ∈ columns dij →
         r ∉ index e1 ∨ c ∉ columns e1 ∨ r ∉ index e2 ∨ c ∉ columns e2 →
         loc dij r c = nan).
Proof.
  intros H1 H2 e1 e2 _ _ _ _.
  exists (subtract e1 e2), (subtract e2 e1).
  unfold plot_exposures_diff. rewrite H1, H2. cbn [mbind Err_bind].
  fold e1 e2. split; [done|]. split; [done|].
  unfold subtract. cbn [build index columns].
  split; [apply index_union_comm|]. split; [apply index_union_comm|].
  split.
  - rewrite (index_union_comm (index e2)), (index_union_comm (columns e2)).
    apply Forall2_build. intros r c _ _. apply veq_vsub_swap.
  - split.
    + intros r c Hr Hc.
      exact (loc_build _ _ (λ r c, vsub (loc e1 r c) (loc e2 r c)) r c Hr Hc).
    + intros r c Hr Hc Habs.
      rewrite (loc_build _ _ (λ r c, vsub (loc e1 r c) (loc e2 r c)) r c Hr Hc).
      destruct Habs as [Ha|[Ha|[Ha|Ha]]].
      * by rewrite (loc_absent e1 r c (or_introl Ha)).
      * by rewrite (loc_absent e1 r c (or_intror Ha)).
      * rewrite (loc_absent e2 r c (or_introl Ha)). by destruct (loc e1 r c).
      * rewrite (loc_absent e2 r c (or_intror Ha)). by destruct (loc e1 r c).
Qed.

Lemma exposures_diff_antisymmetric_witness :
  ∃ dij dji,
    plot_exposures_diff Samples.multi 0 1 None None
    = Ok [plot_time_series dij "Net exposure diff A-B"]
    ∧ plot_exposures_diff Samples.multi 1 0 None None
      = Ok [plot_time_series dji "Net exposure diff B-A"]
    ∧ index dij = index dji
    ∧ columns dij = columns dji
    ∧ Forall2 (Forall2 (λ x y, veq x (vneg y))) (values dij) (values dji).
Proof.
  destruct (exposures_diff_antisymmetric Samples.multi 0 1 None
              Samples.portfolio_a Samples.portfolio_b)
    as (dij & dji & Ha & Hb & Hi & Hc & Hv & _).
  - reflexivity.
  - reflexivity.
  - apply (bool_decide_unpack _). by vm_compute.
  - apply (bool_decide_unpack _). by vm_compute.
  - apply (bool_decide_unpack _). by vm_compute.
  - apply (bool_decide_unpack _). by vm_compute.
  - by exists dij, dji.
Defined.

End differences.

Section attribution.
Import AttributionSpec.

#[local] Instance desc_total {L} (j : nat) : Total (desc (L:=L) j).
Proof.
  intros a b. unfold desc.
  destruct (default nan (a.2 !! j)) as [x|], (default nan (b.2 !! j)) as [y|];
    try tauto.
  destruct (Qle_bool y x) eqn:E; [by left|right].
  apply not_true_iff_false in E. rewrite Qle_bool_iff in E.
  apply Qle_bool_iff. lra.
Qed.

#[local] Instance desc_trans {L} (j : nat) : Transitive (desc (L:=L) j).
Proof.
  intros a b c. unfold desc.
  destruct (default nan (a.2 !! j)) as [x|], (default nan (b.2 !! j)) as [y|],
    (default nan (c.2 !! j)) as [z|]; try tauto.
  rewrite !Qle_bool_iff. lra.
Qed.

Lemma StronglySorted_filter {A} (R : relation A) (P : A → Prop)
    `{∀ x, Decision (P x)} (l : list A) :
  StronglySorted R l → StronglySorted R (filter P l).
Proof.
  induction 1 as [|x l Hs IH Hx]; [constructor|].
  rewrite filter_cons. destruct (decide (P x)); [|done].
  constructor; [done|]. apply Forall_forall.
  intros z [_ Hz]%list_elem_of_filter. rewrite Forall_forall in Hx. by apply Hx.
Qed.

Lemma StronglySorted_lookup {A} (R : relation A) (l : list A) (i j : nat)
    (x y : A) :
  StronglySorted R l → (i < j)%nat →
  l !! i = Some x → l !! j = Some y → R x y.
Proof.
  intros Hs. revert i j. induction Hs as [|a l Hs IH Ha]; intros i j Hij Hi Hj.
  - done.
  - destruct j as [|j]; [lia|]. destruct i as [|i].
    + injection Hi as <-. rewrite Forall_forall in Ha.
      by eapply Ha, list_elem_of_lookup_2.
    + apply (IH i j); [lia|done|done].
Qed.

(** The rows that stay after [replace({0.0: np.nan}).dropna()], in the
    order they had. *)
Lemma filter_complete_zero_to_nan {L} (rs : list (L * list Val)) :
  filter (λ r : L * list Val, complete r.2 = true)
    ((λ r : L * list Val, (r.1, zero_to_nan <$> r.2)) <$> rs)
  = filter (λ r : L * list Val, complete (zero_to_nan <$> r.2) = true) rs.
Proof.
  induction rs as [|[l row] rs IH]; [done|].
  rewrite fmap_cons, !filter_cons. cbn [fst snd].
  destruct (decide (complete (zero_to_nan <$> row) = true)) as [Hc|Hc].
  - rewrite IH. f_equal. f_equal. apply zero_to_nan_nonzero.
    by apply complete_zero_to_nan.
  - apply IH.
Qed.

Lemma positions_first (c0 : string) (cols : list string) (j : nat) :
  getitem cols 0 = Ok c0 → positions c0 cols = [j] → j = 0%nat.
Proof.
  destruct cols as [|c cols]; [done|]. intros [= ->].
  unfold positions. rewrite imap_cons, filter_cons_True by done.
  by intros [= <- _].
Qed.

(** X16.  The bars of the attribution chart come in descending order of
    the first requested portfolio.  In the table handed to [plot_bars],
    the value of the first column never increases from one row to the
    next (line 480 sorts, and dropping rows keeps the order). *)
Theorem attribution_rows_descending (self : MultiPortfolioData.t)
    (portfolio_ids : list Z) (time_period : option TimePeriod)
    (attribution_metric : AttributionMetric) (py : Bars.Printer)
    (cfg : Bars.Config) (ax : option Bars.Axes) (out : DataFrame string)
    (res : Bars.Result) :
  plot_performance_attribution py self portfolio_ids time_period
    attribution_metric cfg ax = Ok (out, res) →
  length (index out) = length (values out)
  ∧ Forall (Forall nonzero) (values out)
  ∧ ∀ i j x y, (i < j)%nat →
      iat out i 0 = Some x → iat out j 0 = Some y → (y <= x)%Q.
Proof.
  unfold plot_performance_attribution, attribution_data.
  destruct (attribution_table self portfolio_ids time_period
              attribution_metric) as [e|data]; [done|].
  cbn [mbind Err_bind].
  destruct (getitem (columns data) 0) as [e|c0] eqn:Ec0; [done|].
  cbn [mbind Err_bind]. unfold sort_values_desc.
  destruct (positions c0 (columns data)) as [|j [|]] eqn:Epos; [done| |done].
  cbn [mbind Err_bind]. destruct (call_kw _ _) as [e|[]]; [done|].
  cbn [mbind Err_bind]. intros [= <- <-].
  apply (positions_first c0 _ j Ec0) in Epos as ->.
  unfold dropna, replace_zero_nan.
  rewrite rows_map_cells, rows_of_rows, filter_complete_zero_to_nan.
  set (rs := filter _ (merge_sort (desc 0) (rows data))).
  assert (Hsorted : StronglySorted (desc 0) rs).
  { apply StronglySorted_filter, StronglySorted_merge_sort; apply _. }
  assert (Hnz : Forall (λ r : string * list Val, Forall nonzero r.2) rs).
  { apply Forall_forall. intros r Hr.
    apply list_elem_of_filter in Hr as [Hc _]. by apply complete_zero_to_nan. }
  cbn [of_rows index values columns].
  split; [by rewrite !length_fmap|]. split; [by apply Forall_fmap|].
  intros i j x y Hij. unfold iat, of_rows. cbn [values].
  rewrite !list_lookup_fmap.
  destruct (rs !! i) as [ri|] eqn:Hi; [|done].
  destruct (rs !! j) as [rj|] eqn:Hj; [|done].
  cbn. intros Hx Hy.
  pose proof (StronglySorted_lookup _ rs i j ri rj Hsorted Hij Hi Hj) as Hd.
  unfold desc in Hd.
  destruct (ri.2 !! 0%nat) as [vx|]; [|done].
  destruct (rj.2 !! 0%nat) as [vy|]; [|done].
  cbn in *. subst vx vy. by apply Qle_bool_iff.
Qed.

Lemma getitem_raises {A} (l : list A) (i : Z) (e : exn) :
  getitem l i = Raise e → e = IndexError.
Proof.
  unfold getitem. repeat case_match; congruence.
Qed.

(** X17.  What [plot_performance_attribution] refuses.  Without
    portfolio ids there is nothing to join: [ValueError].  An id outside
    the list of portfolios, anywhere among the ids, raises [IndexError].
    In both cases the call ends before the table is sorted, and
    [plot_bars] is not reached. *)
Theorem plot_performance_attribution_refuses (py : Bars.Printer)
    (self : MultiPortfolioData.t) (portfolio_ids : list Z)
    (time_period : option TimePeriod) (attribution_metric : AttributionMetric)
    (cfg : Bars.Config) (ax : option Bars.Axes) :
  let n := Z.of_nat (length (portfolio_datas self)) in
  (portfolio_ids = [] →
   plot_performance_attribution py self portfolio_ids time_period
     attribution_metric cfg ax = Raise ValueError)
  ∧ (∀ id, id ∈ portfolio_ids → id < - n ∨ n <= id →
       attribution_table self portfolio_ids time_period attribution_metric
       = Raise IndexError
       ∧ plot_performance_attribution py self portfolio_ids time_period
           attribution_metric cfg ax = Raise IndexError).
Proof.
  intros n. split; [by intros ->|].
  intros id Hin Hout.
  assert (Htab : attribution_table self portfolio_ids time_period
                   attribution_metric = Raise IndexError).
  { unfold attribution_table.
    assert (Hfold :
      foldr (λ portfolio_id acc,
               match getitem (portfolio_datas self) portfolio_id with
               | Raise e => Raise e
               | Ok p => (λ r, get_performance_data p attribution_metric
                                 time_period :: r) <$> acc
               end) (Ok []) portfolio_ids = Raise IndexError);
      [|by rewrite Hfold].
    induction portfolio_ids as [|id0 ids IH]; [by apply elem_of_nil in Hin|].
    cbn [foldr].
    destruct (getitem (portfolio_datas self) id0) as [e|p] eqn:E.
    - by rewrite (getitem_raises _ _ _ E).
    - apply elem_of_cons in Hin as [->|Hin].
      + rewrite PyFacts.getitem_out_of_range in E by done. done.
      + by rewrite (IH Hin). }
  split; [done|].
  unfold plot_performance_attribution, attribution_data. by rewrite Htab.
Qed.

Lemma grouped_fields (cfg : Bars.Config) :
  Bars.kwargs (grouped cfg)
  = "skip_y_axis" :: "ncol" :: filter (λ k, k ≠ "ncol") (Bars.kwargs cfg)
  ∧ Bars.colors (grouped cfg) = Bars.colors cfg
  ∧ Bars.var_name (grouped cfg) = Bars.var_name cfg
  ∧ Bars.value_name (grouped cfg) = Bars.value_name cfg.
Proof. by destruct cfg. Qed.

(** X23.  The call of [plot_bars] at lines 487-492 cannot return.  It
    writes out [skip_y_axis=True]; [skip_y_axis] is no parameter of
    [plot_bars], so it arrives in its [**kwargs], and line 169 of bars.py
    hands [skip_y_axis=show_y_axis] and [**kwargs] to
    [put.set_ax_tick_labels]: the keyword is given twice.  Whenever
    [plot_performance_attribution] gets to [plot_bars], that call raises:
    [IndexError] for a table without rows, [ValueError] when the bar plot
    refuses the index, [TypeError] otherwise; and for a table with rows
    that the bar plot takes, with colours given or fetched without a
    clash, the [TypeError] comes after the bars have been drawn. *)
Theorem attribution_plot_bars_raises (py : Bars.Printer)
    (self : MultiPortfolioData.t) (portfolio_ids : list Z)
    (time_period : option TimePeriod) (attribution_metric : AttributionMetric)
    (cfg : Bars.Config) (ax : option Bars.Axes) (out : DataFrame string)
    (res : Bars.Result) :
  plot_performance_attribution py self portfolio_ids time_period
    attribution_metric cfg ax = Ok (out, res) →
  res = Bars.plot_bars py {[ 0%nat := bars_table out ]} 0%nat (grouped cfg) ax
  ∧ "skip_y_axis" ∈ Bars.kwargs (grouped cfg)
  ∧ (∀ f, Bars.returned res ≠ Ok f)
  ∧ (Bars.returned res = Raise IndexError
     ∨ Bars.returned res = Raise TypeError
     ∨ Bars.returned res = Raise ValueError)
  ∧ (index out ≠ [] →
     (Bars.colors cfg = None → "n" ∉ Bars.kwargs cfg) →
     Bars.melted_index (Bars.var_name cfg) (Bars.value_name cfg)
       (bars_table out) = false →
     Bars.returned res = Raise TypeError
     ∧ ∃ p ops, Bars.drawn res = Bars.barplot p :: ops).
Proof.
  unfold plot_performance_attribution.
  destruct (attribution_data self portfolio_ids time_period attribution_metric)
    as [e|data]; [done|].
  cbn [mbind Err_bind]. destruct (call_kw _ _) as [e|[]]; [done|].
  cbn [mbind Err_bind]. intros [= <- <-].
  destruct (grouped_fields cfg) as (Hkw & Hcol & Hvar & Hval).
  set (t := bars_table data).
  set (h := ({[ 0%nat := t ]} : Bars.Heap)).
  assert (Ht : h !! 0%nat = Some t) by apply lookup_singleton_eq.
  assert (Hskip : "skip_y_axis" ∈ Bars.kwargs (grouped cfg))
    by (rewrite Hkw; by left).
  assert (Hclash : ¬ Forall (λ k, k ∉ Bars.bars_keywords)
                       (Bars.kwargs (grouped cfg))).
  { intros Hall. rewrite Forall_forall in Hall.
    apply (Hall "skip_y_axis" Hskip).
    apply (bool_decide_unpack _). by vm_compute. }
  assert (Hn : "n" ∈ Bars.kwargs (grouped cfg) ↔ "n" ∈ Bars.kwargs cfg).
  { rewrite Hkw, !elem_of_cons, list_elem_of_filter. split.
    - intros [?|[?|[_ ?]]]; done.
    - intros ?. right. right. done. }
  assert (Hre : Bars.reformat_index py (grouped cfg) t
                = if decide (index data = []) then Raise IndexError else Ok t).
  { unfold Bars.reformat_index, t, bars_table. cbn [Bars.table_index index].
    destruct (index data) as [|l rest]; [done|].
    rewrite decide_False by done. by rewrite fmap_cons. }
  assert (Hlate : index data ≠ [] →
            (Bars.colors cfg = None → "n" ∉ Bars.kwargs cfg) →
            Bars.melted_index (Bars.var_name cfg) (Bars.value_name cfg) t = false →
            Bars.returned (Bars.plot_bars py h 0%nat (grouped cfg) ax)
            = Raise TypeError
            ∧ ∃ p ops, Bars.drawn (Bars.plot_bars py h 0%nat (grouped cfg) ax)
                       = Bars.barplot p :: ops).
  { intros Hrows Hpal Hme. rewrite decide_False in Hre by done.
    destruct (PlotBarsRunSpec.plot_bars_late py h 0%nat (grouped cfg) ax t t Ht)
      as (_ & Hdrawn & _ & Hraise).
    - rewrite Hcol, Hn. exact Hpal.
    - exact Hre.
    - by rewrite Hvar, Hval.
    - split; [by apply Hraise|done]. }
  assert (Hcases : Bars.returned (Bars.plot_bars py h 0%nat (grouped cfg) ax)
                   = Raise IndexError
                   ∨ Bars.returned (Bars.plot_bars py h 0%nat (grouped cfg) ax)
                     = Raise TypeError
                   ∨ Bars.returned (Bars.plot_bars py h 0%nat (grouped cfg) ax)
                     = Raise ValueError).
  { destruct (PlotBarsFrameSpec.palette_of_cases (grouped cfg) t)
      as [(p & Hp & Hpal)|(Hp & Hc & Hk)].
    2:{ right. left.
        by rewrite (PlotBarsRunSpec.plot_bars_early_palette py h 0%nat
                      (grouped cfg) ax t Ht Hc Hk). }
    destruct (decide (index data = [])) as [Hnil|Hrows].
    { left.
      by rewrite (PlotBarsRunSpec.plot_bars_early_index py h 0%nat
                    (grouped cfg) ax t IndexError Ht Hpal Hre). }
    destruct (Bars.melted_index (Bars.var_name cfg) (Bars.value_name cfg) t)
      eqn:Hme.
    { right. right.
      rewrite (PlotBarsRunSpec.plot_bars_melted py h 0%nat (grouped cfg) ax
                 t t Ht Hpal Hre); [done|]. by rewrite Hvar, Hval. }
    right. left. apply Hlate; [done| |done].
    intros Hc. rewrite <- Hn. apply Hpal. by rewrite Hcol. }
  split_and!; [done|done| |done|done].
  intros f Hf. destruct Hcases as [H|[H|H]]; congruence.
Qed.

End attribution.

Lemma attribution_plot_bars_raises_witness :
  plot_performance_attribution Samples.printer Samples.multi_b [0] None
    Samples.pnl Samples.config None
  = Ok (mkFrame ["y"; "x"]%string ["B"]%string [[Samples.q 5]; [Samples.q 1]],
        Bars.plot_bars Samples.printer
          {[ 0%nat := bars_table
                        (mkFrame ["y"; "x"]%string ["B"]%string
                           [[Samples.q 5]; [Samples.q 1]]) ]} 0%nat
          (grouped Samples.config) None)
  ∧ ∀ f, Bars.returned
           (Bars.plot_bars Samples.printer
              {[ 0%nat := bars_table
                            (mkFrame ["y"; "x"]%string ["B"]%string
                               [[Samples.q 5]; [Samples.q 1]]) ]} 0%nat
              (grouped Samples.config) None) ≠ Ok f.
Proof.
  split; [reflexivity|].
  refine (proj1 (proj2 (proj2
    (attribution_plot_bars_raises Samples.printer Samples.multi_b [0] None
       Samples.pnl Samples.config None
       (mkFrame ["y"; "x"]%string ["B"]%string [[Samples.q 5]; [Samples.q 1]])
       (Bars.plot_bars Samples.printer
          {[ 0%nat := bars_table
                        (mkFrame ["y"; "x"]%string ["B"]%string
                           [[Samples.q 5]; [Samples.q 1]]) ]} 0%nat
          (grouped Samples.config) None) _)))).
  reflexivity.
Defined.

Lemma attribution_rows_descending_witness :
  plot_performance_attribution Samples.printer Samples.multi_b [0] None
    Samples.pnl Samples.config None
  = Ok (mkFrame ["y"; "x"]%string ["B"]%string [[Samples.q 5]; [Samples.q 1]],
        Bars.plot_bars Samples.printer
          {[ 0%nat := bars_table
                        (mkFrame ["y"; "x"]%string ["B"]%string
                           [[Samples.q 5]; [Samples.q 1]]) ]} 0%nat
          (grouped Samples.config) None)
  ∧ ∀ i j x y, (i < j)%nat →
      iat (mkFrame ["y"; "x"]%string ["B"]%string
             [[Samples.q 5]; [Samples.q 1]]) i 0 = Some x →
      iat (mkFrame ["y"; "x"]%string ["B"]%string
             [[Samples.q 5]; [Samples.q 1]]) j 0 = Some y →
      (y <= x)%Q.
Proof.
  split; [reflexivity|].
  apply (attribution_rows_descending Samples.multi_b [0] None Samples.pnl
           Samples.printer Samples.config None
           (mkFrame ["y"; "x"]%string ["B"]%string
              [[Samples.q 5]; [Samples.q 1]])
           (Bars.plot_bars Samples.printer
              {[ 0%nat := bars_table
                            (mkFrame ["y"; "x"]%string ["B"]%string
                               [[Samples.q 5]; [Samples.q 1]]) ]} 0%nat
              (grouped Samples.config) None)).
  reflexivity.
Defined.

End AggregatorSpec.
